(** * PDF text extractor with OCR support: model of [pdf_extractor_python.py]

    The development follows the source file top-down: Python strings and the
    string methods the pipeline calls, the external capabilities (PIL, numpy,
    OpenCV, the OCR reader, pdfplumber and pdf2image), a small exception/state
    monad for the heap of image objects and the UI log, then [perform_ocr],
    [draw_bboxes_on_image], [count_words_and_chars] and [process_pdf].

    Modelling decisions, stated once:
    - a Python [str] is a list of Unicode code points ([N]); [len] is the
      length of that list;
    - Python [int]s that count things are [nat];
    - a finite binary64 float is the rational number ([Q]) it denotes, and
      every float operation rounds its exact result to the nearest binary64
      number, ties to even ([round64]); infinities, NaN and the sign of zero
      are not represented, so the operations are Python's for results below
      2^1024 in magnitude;
    - image objects live in a heap indexed by locations, so that copying and
      in-place drawing are distinguishable;
    - an exception is represented by its message and by whether it is an
      instance of [Exception].

    [page_to_image] and one run of the Streamlit script ([main]) are
    modelled after [process_pdf]; the cached [load_ocr_reader] is not: its
    outcome is an input of [main]. *)

From Stdlib Require Import ZArith NArith QArith Qabs Qround Qpower Lia Lqa
  DecimalString.
From stdpp Require Import base option list strings gmap.

Local Open Scope nat_scope.

(** ** Python strings *)

Definition char := N.
Abbreviation str := (list char).

(** An ASCII literal of the source, as a Python string. *)
Definition lit (s : string) : str :=
  (fun a => Ascii.N_of_ascii a) <$> String.list_ascii_of_string s.

(** ["\n"] and ["\t"]. *)
Definition nl : str := [0x0a%N].
Definition tab : str := [0x09%N].

(** [str(n)] of a non-negative [int], as used by f-string fields. *)
Definition str_of_nat (n : nat) : str :=
  lit (NilEmpty.string_of_uint (Nat.to_uint n)).

(** [s * n] *)
Definition rep (s : str) (n : nat) : str := concat (replicate n s).

(** Whitespace as [str.strip()] and [str.split()] see it: the code points for
    which CPython's [Py_UNICODE_ISSPACE] holds. *)
Definition is_space (c : char) : bool :=
  ((0x09 <=? c) && (c <=? 0x0d) || (0x1c <=? c) && (c <=? 0x20)
   || (c =? 0x85) || (c =? 0xa0) || (c =? 0x1680)
   || (0x2000 <=? c) && (c <=? 0x200a)
   || (c =? 0x2028) || (c =? 0x2029) || (c =? 0x202f) || (c =? 0x205f)
   || (c =? 0x3000))%N.

Fixpoint lstrip (s : str) : str :=
  match s with
  | [] => []
  | c :: s' => if is_space c then lstrip s' else s
  end.

Definition rstrip (s : str) : str := rev (lstrip (rev s)).

(** [s.strip()] *)
Definition strip (s : str) : str := rstrip (lstrip s).

(** [s.split()]: [cur] is the token being read. *)
Fixpoint split_from (cur : str) (s : str) : list str :=
  match s with
  | [] => match cur with [] => [] | _ => [cur] end
  | c :: s' =>
      if is_space c
      then match cur with
           | [] => split_from [] s'
           | _ => cur :: split_from [] s'
           end
      else split_from (cur ++ [c]) s'
  end.

Definition split (s : str) : list str := split_from [] s.

(** [s.replace(old, new)] for a one-character [old]. *)
Definition replace (old : char) (new : str) (s : str) : str :=
  flat_map (fun c => if (c =? old)%N then new else [c]) s.

(** [sep.join(l)] *)
Fixpoint join (sep : str) (l : list str) : str :=
  match l with
  | [] => []
  | [x] => x
  | x :: l' => x ++ sep ++ join sep l'
  end.

(** ** Floats

    Nearest integer, ties to even. *)
Definition round_half_even (q : Q) : Z :=
  let f := Qfloor q in
  match (q - inject_Z f) ?= (1 # 2) with
  | Lt => f
  | Gt => (f + 1)%Z
  | Eq => if Z.even f then f else (f + 1)%Z
  end%Q.

(** [2 ** e] *)
Definition pow2 (e : Z) : Q := (2 ^ e)%Q.

(** For [a > 0], the exponent [e] with [2^e <= a < 2^(e+1)]. *)
Definition floor_log2 (a : Q) : Z :=
  let e := (Z.log2 (Qnum a) - Z.log2 (Z.pos (Qden a)))%Z in
  if Qle_bool (pow2 e) a then e else (e - 1)%Z.

(** The distance between consecutive binary64 numbers around [a > 0]: 53
    significant bits, and the spacing of the subnormal numbers below
    [2^-1022]. *)
Definition ulp (a : Q) : Q := pow2 (Z.max (floor_log2 a) (-1022) - 52).

(** The binary64 number nearest to [x], ties to even. *)
Definition round64 (x : Q) : Q :=
  if Qeq_bool x 0 then 0%Q
  else
    let a := Qabs x in
    let m := (inject_Z (round_half_even (a / ulp a)) * ulp a)%Q in
    if Qlt_le_dec x 0 then (- m)%Q else m.

(** [a + b] and [a * b] on floats, and [float(n)] of an [int]. *)
Definition float_add (a b : Q) : Q := round64 (a + b).
Definition float_mul (a b : Q) : Q := round64 (a * b).
Definition float_of_int (n : Z) : Q := round64 (inject_Z n).

(** [sum(l)] of a list of floats: the additions are made from left to
    right, starting from the integer 0, and each one is rounded.  (CPython
    3.12 and later add a compensation term when every item is a built-in
    [float]; the floats of the OCR reader are NumPy's, which are added this
    way in every version.) *)
Definition sum (l : list Q) : Q := foldl float_add 0%Q l.

(** [f"{x:.1f}"]: the decimal expansion of the float [x], correctly
    rounded to one digit after the point. *)
Definition format_1f (x : Q) : str :=
  let t := Z.to_nat (round_half_even (Qabs x * inject_Z 10)) in
  (if Qlt_le_dec x 0 then lit "-" else [])
  ++ str_of_nat (t / 10) ++ lit "." ++ str_of_nat (t mod 10).

(** [f"{confidence * 100:.1f}%"]: the product is a float. *)
Definition format_pct (confidence : Q) : str :=
  format_1f (float_mul confidence (float_of_int 100)) ++ lit "%".

(** ** count_words_and_chars *)

Definition count_words_and_chars (text : str) : nat * nat * nat :=
  let words := length (split text) in
  let chars_with_spaces := length text in
  let chars_without_spaces :=
    length (replace 0x0a%N [] (replace 0x20%N [] text)) in
  (words, chars_with_spaces, chars_without_spaces).

(** ** Outcomes of calls that may raise

    An exception carries its message, [str(e)].  [Exception msg] is an
    instance of [Exception]; [BaseException msg] is an instance of
    [BaseException] only, as [KeyboardInterrupt], [SystemExit] and the
    exceptions by which Streamlit stops or reruns a script are. *)

Inductive exn : Type :=
  | Exception (msg : str)
  | BaseException (msg : str).

Definition exn_str (e : exn) : str :=
  match e with
  | Exception msg => msg
  | BaseException msg => msg
  end.

Definition is_Exception (e : exn) : bool :=
  match e with
  | Exception _ => true
  | BaseException _ => false
  end.

Inductive outcome (A : Type) : Type :=
  | Returns (a : A)
  | Raises (e : exn).
Arguments Returns {A} a.
Arguments Raises {A} e.

(** ** External capabilities

    What numpy and OpenCV do to pixel data is not part of this program; it
    is taken as an interface.  [np_int32 bbox] is the outcome of
    [np.array(bbox, dtype=np.int32)], which raises on a polygon it cannot
    convert; [cv2_polylines px pts closed color thickness] is the outcome of
    [cv2.polylines] on an array of content [px]: the content after the
    drawing, or the exception it raises. *)

Class Externals := {
  Pixels : Type;
  BBox : Type;
  Pts : Type;
  np_int32 : BBox -> outcome Pts;
  cv2_polylines :
    Pixels -> list Pts -> bool -> Z * Z * Z -> Z -> outcome Pixels
}.

(** One element of [reader.readtext(...)]: [(bbox, text, conf)]. *)
Definition Detection `{Externals} : Type := BBox * str * Q.

(** The OCR reader: what [readtext] answers on given pixel content. *)
Definition Reader `{Externals} : Type := Pixels -> outcome (list Detection).

(** A pdfplumber page: what [extract_text()] does on it ([None] is Python's
    [None]). *)
Record PdfPage := mkPdfPage {
  page_extract_text : outcome (option str)
}.

(** The uploaded file.  [pdf_open] is the outcome of [pdfplumber.open]
    (the list is [pdf.pages]); [pdf_convert n] is the outcome of
    [convert_from_bytes(pdf_file.read(), first_page=n, last_page=n, dpi=200)],
    the pixel content of each image it returns. *)
Record PdfFile `{Externals} := mkPdfFile {
  pdf_open : outcome (list PdfPage);
  pdf_convert : nat -> outcome (list Pixels)
}.
Arguments mkPdfFile {_} pdf_open pdf_convert.

(** ** Heap, UI log and the monad *)

Definition loc := positive.

Inductive obj `{Externals} : Type :=
  | PILImage (px : Pixels)
  | NdArray (px : Pixels).
Arguments PILImage {_} px.
Arguments NdArray {_} px.

Inductive Event : Type :=
  | StatusText (s : str)
  | ProgressBar (page_num total_pages : nat)
  | ConvertFromBytes (first_page last_page dpi : nat)
  | Readtext (img_array : loc)
  | StError (msg : str).

Record World `{Externals} := mkWorld {
  heap : gmap loc obj;
  ui : list Event
}.
Arguments mkWorld {_} heap ui.

Definition M `{Externals} (A : Type) : Type := World -> outcome A * World.

#[export] Instance M_ret `{Externals} : MRet M :=
  fun A a w => (Returns a, w).

#[export] Instance M_bind `{Externals} : MBind M :=
  fun A B f m w =>
    match m w with
    | (Returns a, w') => f a w'
    | (Raises e, w') => (Raises e, w')
    end.

Section Pipeline.
Context `{Externals}.

Definition raise {A} (e : exn) : M A := fun w => (Raises e, w).

Definition lift {A} (o : outcome A) : M A := fun w => (o, w).

Definition emit (ev : Event) : M unit :=
  fun w => (Returns (), mkWorld (heap w) (ui w ++ [ev])).

Definition alloc (o : obj) : M loc :=
  fun w =>
    let l := fresh (dom (heap w)) in
    (Returns l, mkWorld (<[l:=o]> (heap w)) (ui w)).

(** Reading an object.  Python cannot hold a reference to an object that
    is gone, so the second case is never taken on a location the program
    obtained from an allocation. *)
Definition load (l : loc) : M obj :=
  fun w =>
    match heap w !! l with
    | Some o => (Returns o, w)
    | None => (Raises (Exception (lit "ReferenceError")), w)
    end.

Definition store (l : loc) (o : obj) : M unit :=
  fun w => (Returns (), mkWorld (<[l:=o]> (heap w)) (ui w)).

(** [try: m  except Exception as e: h e]: an exception that is not an
    instance of [Exception] is not caught. *)
Definition try_except {A} (m : M A) (h : exn -> M A) : M A :=
  fun w =>
    match m w with
    | (Returns a, w') => (Returns a, w')
    | (Raises e, w') => if is_Exception e then h e w' else (Raises e, w')
    end.

(** *** PIL, numpy, OpenCV and pdf2image calls *)

(** [image.copy()] *)
Definition image_copy (image : loc) : M loc :=
  o ← load image;
  match o with
  | PILImage px => alloc (PILImage px)
  | NdArray px => alloc (NdArray px)
  end.

(** [np.array(image)]: a new array holding the image's pixels. *)
Definition np_array (image : loc) : M loc :=
  o ← load image;
  match o with
  | PILImage px => alloc (NdArray px)
  | NdArray px => alloc (NdArray px)
  end.

(** [Image.fromarray(arr)] *)
Definition Image_fromarray (arr : loc) : M loc :=
  o ← load arr;
  match o with
  | NdArray px => alloc (PILImage px)
  | PILImage px => alloc (PILImage px)
  end.

(** [cv2.polylines(arr, pts, closed, color, thickness)] draws in place.
    What a drawing that raises leaves in the array is not modelled: the
    array of [draw_bboxes_on_image] is out of reach once the exception has
    left the function. *)
Definition polylines (arr : loc) (pts : list Pts) (closed : bool)
    (color : Z * Z * Z) (thickness : Z) : M unit :=
  o ← load arr;
  match o with
  | NdArray px =>
      px' ← lift (cv2_polylines px pts closed color thickness);
      store arr (NdArray px')
  | PILImage _ => raise (Exception (lit "TypeError"))
  end.

(** [reader.readtext(img_array)] *)
Definition readtext (reader : Reader) (img_array : loc) : M (list Detection) :=
  o ← load img_array;
  match o with
  | NdArray px => emit (Readtext img_array);; lift (reader px)
  | PILImage _ => raise (Exception (lit "TypeError"))
  end.

(** [convert_from_bytes(pdf_file.read(), first_page=n, last_page=n, dpi=200)]:
    every returned image is a fresh PIL image. *)
Fixpoint alloc_images (pxs : list Pixels) : M (list loc) :=
  match pxs with
  | [] => mret []
  | px :: rest =>
      l ← alloc (PILImage px);
      ls ← alloc_images rest;
      mret (l :: ls)
  end.

Definition convert_from_bytes (pdf_file : PdfFile) (page_num : nat) : M (list loc) :=
  emit (ConvertFromBytes page_num page_num 200);;
  pxs ← lift (pdf_convert pdf_file page_num);
  alloc_images pxs.

(** [a / b] on floats *)
Definition true_div (a b : Q) : M Q :=
  if Qeq_bool b 0 then raise (Exception (lit "float division by zero"))
  else mret (round64 (a / b)).

(** ** extract_text_from_page *)

Definition extract_text_from_page (pdf_page : PdfPage) : str :=
  match page_extract_text pdf_page with
  | Returns (Some text) => match text with [] => [] | _ => text end
  | Returns None => []
  | Raises _ => []
  end.

(** ** perform_ocr *)

(** The [for (bbox, text, conf) in results] loop with its three appends. *)
Definition collect (results : list Detection) : list str * list Q * list BBox :=
  foldl (fun '(texts, confidences, bboxes) '(bbox, text, conf) =>
           (texts ++ [text], confidences ++ [conf], bboxes ++ [bbox]))
        ([], [], []) results.

Definition perform_ocr (image : loc) (reader : Reader) : M (str * Q * list BBox) :=
  img_array ← np_array image;
  results ← readtext reader img_array;
  match results with
  | [] => mret ([], 0%Q, [])
  | _ =>
      let '(texts, confidences, bboxes) := collect results in
      avg_confidence ←
        match confidences with
        | [] => mret 0%Q
        | _ =>
            true_div (sum confidences)
              (float_of_int (Z.of_nat (length confidences)))
        end;
      let full_text := join (lit " ") texts in
      mret (full_text, avg_confidence, bboxes)
  end.

(** ** draw_bboxes_on_image *)

Fixpoint draw_each (img_array : loc) (bboxes : list BBox) : M unit :=
  match bboxes with
  | [] => mret ()
  | bbox :: rest =>
      pts ← lift (np_int32 bbox);
      polylines img_array [pts] true (0, 255, 0)%Z 2%Z;;
      draw_each img_array rest
  end.

Definition draw_bboxes_on_image (image : loc) (bboxes : list BBox) : M loc :=
  copy ← image_copy image;
  img_array ← np_array copy;
  draw_each img_array bboxes;;
  Image_fromarray img_array.

End Pipeline.

(** ** process_pdf *)

(** The [page_info] dictionary. *)
Record PageInfo := mkPageInfo {
  page_num : nat;
  type : str;
  confidence : str;
  text : str;
  word_count : nat;
  preview_image : option loc
}.

(** The [results] dictionary; [extracted_text] is absent until the end. *)
Record Results := mkResults {
  pages : list PageInfo;
  total_words : nat;
  total_chars_with_spaces : nat;
  total_chars_without_spaces : nat;
  total_pages : nat;
  editable_pages : nat;
  scanned_pages : nat;
  hybrid_pages : nat;
  extracted_text : option str
}.

(** Item assignments on the two dictionaries. *)
Definition set_type (v : str) (p : PageInfo) : PageInfo :=
  mkPageInfo (page_num p) v (confidence p) (text p) (word_count p) (preview_image p).
Definition set_confidence (v : str) (p : PageInfo) : PageInfo :=
  mkPageInfo (page_num p) (type p) v (text p) (word_count p) (preview_image p).
Definition set_text (v : str) (p : PageInfo) : PageInfo :=
  mkPageInfo (page_num p) (type p) (confidence p) v (word_count p) (preview_image p).
Definition set_word_count (v : nat) (p : PageInfo) : PageInfo :=
  mkPageInfo (page_num p) (type p) (confidence p) (text p) v (preview_image p).
Definition set_preview_image (v : option loc) (p : PageInfo) : PageInfo :=
  mkPageInfo (page_num p) (type p) (confidence p) (text p) (word_count p) v.

Definition set_total_pages (v : nat) (r : Results) : Results :=
  mkResults (pages r) (total_words r) (total_chars_with_spaces r)
    (total_chars_without_spaces r) v (editable_pages r) (scanned_pages r)
    (hybrid_pages r) (extracted_text r).
Definition incr_editable_pages (r : Results) : Results :=
  mkResults (pages r) (total_words r) (total_chars_with_spaces r)
    (total_chars_without_spaces r) (total_pages r) (editable_pages r + 1)
    (scanned_pages r) (hybrid_pages r) (extracted_text r).
Definition incr_scanned_pages (r : Results) : Results :=
  mkResults (pages r) (total_words r) (total_chars_with_spaces r)
    (total_chars_without_spaces r) (total_pages r) (editable_pages r)
    (scanned_pages r + 1) (hybrid_pages r) (extracted_text r).
Definition incr_hybrid_pages (r : Results) : Results :=
  mkResults (pages r) (total_words r) (total_chars_with_spaces r)
    (total_chars_without_spaces r) (total_pages r) (editable_pages r)
    (scanned_pages r) (hybrid_pages r + 1) (extracted_text r).
(** Lines 189-193: the three [+=] on the totals and [pages.append]. *)
Definition add_page (p : PageInfo) (words chars_with chars_without : nat)
    (r : Results) : Results :=
  mkResults (pages r ++ [p]) (total_words r + words)
    (total_chars_with_spaces r + chars_with)
    (total_chars_without_spaces r + chars_without) (total_pages r)
    (editable_pages r) (scanned_pages r) (hybrid_pages r) (extracted_text r).
Definition set_extracted_text (v : str) (r : Results) : Results :=
  mkResults (pages r) (total_words r) (total_chars_with_spaces r)
    (total_chars_without_spaces r) (total_pages r) (editable_pages r)
    (scanned_pages r) (hybrid_pages r) (Some v).

(** Lines 196-200: the three adjacent f-strings are one string. *)
Definition page_block (p : PageInfo) : str :=
  nl ++ lit "PAGE " ++ str_of_nat (page_num p) ++ lit " | Type: " ++ type p
    ++ lit " | Confidence: " ++ confidence p ++ nl
  ++ rep (lit "-") 60 ++ nl
  ++ text p ++ nl.

(** Lines 210-216, the seven f-strings of the summary. *)
Definition summary (r : Results) : str :=
  lit "Total Word Count: " ++ str_of_nat (total_words r) ++ nl
  ++ lit "Total Character Count (with spaces): "
     ++ str_of_nat (total_chars_with_spaces r) ++ nl
  ++ lit "Total Character Count (without spaces): "
     ++ str_of_nat (total_chars_without_spaces r) ++ nl
  ++ lit "Total Pages Processed: " ++ str_of_nat (total_pages r) ++ nl
  ++ lit "Editable Pages: " ++ str_of_nat (editable_pages r) ++ nl
  ++ lit "Scanned Pages: " ++ str_of_nat (scanned_pages r) ++ nl
  ++ lit "Hybrid Pages: " ++ str_of_nat (hybrid_pages r) ++ nl.

(** Lines 206-218.  Python joins adjacent string literals into one operand
    before it applies [*] and [+], so the parenthesised expression reads
    [A * 60 + B * 60 + C * 60 + "\n"] with
    [A = "="],
    [B = "\n" "PDF TEXT EXTRACTION REPORT\n" "="] and
    [C = "\n" f"Total Word Count: ..." ... f"Hybrid Pages: ...\n" "="]. *)
Definition header (r : Results) : str :=
  rep (lit "=") 60
  ++ rep (nl ++ lit "PDF TEXT EXTRACTION REPORT" ++ nl ++ lit "=") 60
  ++ rep (nl ++ summary r ++ lit "=") 60
  ++ nl.

(** Line 128: [f"Processing page {page_num}/{total_pages}..."] *)
Definition status_message (page_num total_pages : nat) : str :=
  lit "Processing page " ++ str_of_nat page_num ++ lit "/"
  ++ str_of_nat total_pages ++ lit "...".

(** Lines 185-200: count, add to the totals, append the page and its
    block of the report. *)
Definition record_page (page_info : PageInfo) (results : Results)
    (all_text_content : list str) : Results * list str :=
  let '(words, chars_with, chars_without) :=
    count_words_and_chars (text page_info) in
  let page_info := set_word_count words page_info in
  (add_page page_info words chars_with chars_without results,
   all_text_content ++ [page_block page_info]).

Section ProcessPdf.
Context `{Externals}.

(** Lines 143-183: classification of one page. *)
Definition classify (pdf_file : PdfFile) (reader : Reader) (editable_text : str)
    (results : Results) (page_info : PageInfo) : M (Results * PageInfo) :=
  if length (strip editable_text) <? 50 then
    (* lines 145-152 read the file, rewind it and open a temporary file
       whose content is never used *)
    images ← convert_from_bytes pdf_file (page_num page_info);
    match images with
    | page_image :: _ =>
        '(ocr_text, confidence, bboxes) ← perform_ocr page_image reader;
        let '(results, page_info) :=
          if 0 <? length (strip editable_text) then
            (incr_hybrid_pages results,
             set_text (editable_text ++ nl ++ ocr_text)
               (set_type (lit "Hybrid") page_info))
          else
            (incr_scanned_pages results,
             set_text ocr_text (set_type (lit "Scanned") page_info)) in
        let page_info := set_confidence (format_pct confidence) page_info in
        preview_image ← draw_bboxes_on_image page_image bboxes;
        mret (results, set_preview_image (Some preview_image) page_info)
    | [] => mret (results, page_info)
    end
  else
    mret (incr_editable_pages results,
          set_text editable_text (set_type (lit "Editable") page_info)).

(** Lines 128-203: the body of the loop over [enumerate(pdf.pages, 1)]. *)
Definition process_page (pdf_file : PdfFile) (reader : Reader) (total_pages : nat)
    (page_num : nat) (page : PdfPage) (st : Results * list str)
    : M (Results * list str) :=
  let '(results, all_text_content) := st in
  emit (StatusText (status_message page_num total_pages));;
  let editable_text := extract_text_from_page page in
  let page_info := mkPageInfo page_num [] (lit "N/A") [] 0 None in
  '(results, page_info) ← classify pdf_file reader editable_text results page_info;
  let st := record_page page_info results all_text_content in
  emit (ProgressBar page_num total_pages);;
  mret st.

Fixpoint process_pages (pdf_file : PdfFile) (reader : Reader) (total_pages : nat)
    (page_num : nat) (pdf_pages : list PdfPage) (st : Results * list str)
    : M (Results * list str) :=
  match pdf_pages with
  | [] => mret st
  | page :: rest =>
      st' ← process_page pdf_file reader total_pages page_num page st;
      process_pages pdf_file reader total_pages (S page_num) rest st'
  end.

Definition process_pdf (pdf_file : PdfFile) (reader : Reader) : M (option Results) :=
  let results := mkResults [] 0 0 0 0 0 0 0 None in
  let all_text_content := [] in
  try_except
    (pdf_pages ← lift (pdf_open pdf_file);
     let total_pages := length pdf_pages in
     let results := set_total_pages total_pages results in
     '(results, all_text_content) ←
       process_pages pdf_file reader total_pages 1 pdf_pages
         (results, all_text_content);
     mret (Some (set_extracted_text
                   (header results ++ concat all_text_content) results)))
    (fun e =>
       emit (StError (lit "Error processing PDF: " ++ exn_str e));;
       mret None).

End ProcessPdf.

(** ** page_to_image

    [pdf_page_bytes dpi] stands for the outcome of
    [convert_from_bytes(pdf_page_bytes, dpi=dpi)] on the bytes given. *)
Definition page_to_image `{Externals}
    (pdf_page_bytes : nat -> outcome (list Pixels)) (dpi : nat)
    : M (option loc) :=
  pxs ← lift (pdf_page_bytes dpi);
  images ← alloc_images pxs;
  mret (match images with
        | image :: _ => Some image
        | [] => None
        end).

(** ** main

    One run of the Streamlit script.  The calls that only display constant
    text are recorded by name; calls that display values carry them.  The
    session state holds the results of the last successful extraction. *)

Record UploadedFile `{Externals} := mkUploadedFile {
  upload_name : str;       (* uploaded_file.name *)
  upload_stem : str;       (* Path(uploaded_file.name).stem *)
  upload_size : N;         (* uploaded_file.size, in bytes *)
  upload_pdf : PdfFile
}.
Arguments mkUploadedFile {_} upload_name upload_stem upload_size upload_pdf.

Inductive Widget : Type :=
  | Title                                   (* line 230 *)
  | Intro                                   (* line 231 *)
  | Sidebar                                 (* lines 234-258 *)
  | FileUploader                            (* lines 261-265 *)
  | SizeError                               (* line 272 *)
  | FileSuccess (name : str)                (* line 278 *)
  | FileInfo (size_mb : str)                (* line 280 *)
  | Button                                  (* line 282 *)
  | Spinner                                 (* line 286 *)
  | ProcessingInfo                          (* line 289 *)
  | Progress0                               (* line 291 *)
  | EmptyStatus                             (* line 292 *)
  | Complete                                (* line 299 *)
  | Balloons                                (* line 300 *)
  | Rule                                    (* lines 306 and 338 *)
  | ResultsHeader                           (* line 307 *)
  | Metric (label : str) (value : nat)      (* lines 312-326 *)
  | DownloadButton (data file_name : str)   (* lines 329-335 *)
  | PageDetails                             (* line 339 *)
  | Tabs                                    (* line 342 *)
  | Dataframe (page_data : list (nat * str * str * nat))  (* line 355 *)
  | PreviewInfo                             (* line 359 *)
  | Expander (label : str) (image : loc).   (* lines 363-364 *)

Record App `{Externals} := mkApp {
  app_world : World;
  app_widgets : list Widget;
  app_session : option Results             (* st.session_state.processed_results *)
}.
Arguments mkApp {_} app_world app_widgets app_session.

(** [f"{x:.2f}"] *)
Definition format_2f (x : Q) : str :=
  let t := Z.to_nat (round_half_even (Qabs x * inject_Z 100)) in
  (if Qlt_le_dec x 0 then lit "-" else [])
  ++ str_of_nat (t / 100) ++ lit "."
  ++ str_of_nat (t mod 100 / 10) ++ str_of_nat (t mod 10).

Section Main.
Context `{Externals}.

Definition show (ws : list Widget) (a : App) : App :=
  mkApp (app_world a) (app_widgets a ++ ws) (app_session a).

(** Lines 346-353: the rows of the table. *)
Definition page_data (ps : list PageInfo) : list (nat * str * str * nat) :=
  (fun page => (page_num page, type page, confidence page, word_count page))
    <$> ps.

(** Lines 361-364: one expander for every page with a preview image. *)
Definition previews (ps : list PageInfo) : list Widget :=
  flat_map (fun page =>
              match preview_image page with
              | Some image =>
                  [Expander (lit "Page " ++ str_of_nat (page_num page)
                             ++ lit " - " ++ type page
                             ++ lit " (Confidence: " ++ confidence page
                             ++ lit ")") image]
              | None => []
              end) ps.

(** Lines 304-364. *)
Definition display_results (uploaded_file : UploadedFile) (results : Results)
    (a : App) : outcome unit * App :=
  let a :=
    show [Rule; ResultsHeader;
          Metric (lit "Total Pages") (total_pages results);
          Metric (lit "Total Words") (total_words results);
          Metric (lit "Chars (with spaces)") (total_chars_with_spaces results);
          Metric (lit "Chars (no spaces)") (total_chars_without_spaces results);
          Metric (lit "Editable Pages") (editable_pages results);
          Metric (lit "Scanned Pages") (scanned_pages results);
          Metric (lit "Hybrid Pages") (hybrid_pages results)] a in
  match extracted_text results with
  | None => (Raises (Exception (lit "'extracted_text'")), a)
  | Some data =>
      (Returns (),
       show ([DownloadButton data
                (upload_stem uploaded_file ++ lit "_extracted.txt");
              Rule; PageDetails; Tabs; Dataframe (page_data (pages results));
              PreviewInfo]
             ++ previews (pages results)) a)
  end.

(** Lines 285-300: [load_ocr_reader] is the outcome of the cached loader. *)
Definition run_extraction (uploaded_file : UploadedFile)
    (load_ocr_reader : outcome Reader) (a : App) : outcome unit * App :=
  let a := show [Spinner] a in
  match load_ocr_reader with
  | Raises e => (Raises e, a)
  | Returns reader =>
      let a := show [ProcessingInfo; Progress0; EmptyStatus] a in
      match process_pdf (upload_pdf uploaded_file) reader (app_world a) with
      | (Raises e, w') => (Raises e, mkApp w' (app_widgets a) (app_session a))
      | (Returns (Some results), w') =>
          (Returns (),
           show [Complete; Balloons] (mkApp w' (app_widgets a) (Some results)))
      | (Returns None, w') =>
          (Returns (), mkApp w' (app_widgets a) (app_session a))
      end
  end.

(** Lines 229-364.  [process_button] is what [st.button] returns in this
    run. *)
Definition main (uploaded_file : option UploadedFile) (process_button : bool)
    (load_ocr_reader : outcome Reader) (a : App) : outcome unit * App :=
  let a := show [Title; Intro; Sidebar; FileUploader] a in
  match uploaded_file with
  | None => (Returns (), a)
  | Some uploaded_file =>
      (* the quotient by 2^20 is a float without rounding *)
      let file_size_mb :=
        (inject_Z (Z.of_N (upload_size uploaded_file))
         / inject_Z (1024 * 1024))%Q in
      if Qlt_le_dec 100 file_size_mb then (Returns (), show [SizeError] a)
      else
        let a := show [FileSuccess (upload_name uploaded_file);
                       FileInfo (format_2f file_size_mb); Button] a in
        match (if process_button
               then run_extraction uploaded_file load_ocr_reader a
               else (Returns (), a))
        with
        | (Raises e, a) => (Raises e, a)
        | (Returns _, a) =>
            match app_session a with
            | Some results => display_results uploaded_file results a
            | None => (Returns (), a)
            end
        end
  end.

End Main.

(** ** A concrete instance of the external capabilities

    Pixel content is the list of polygons drawn so far, each with its
    closed flag, colour and thickness.  A polygon is a list of points with
    integer coordinates; as numpy does, the conversion to [int32] raises
    [OverflowError] on a coordinate that is not a 32-bit signed integer. *)

Definition is_int32 (z : Z) : bool :=
  ((- 2 ^ 31 <=? z) && negb (2 ^ 31 <=? z))%Z.

Definition display_list : Externals := {|
  Pixels := list (list (list (Z * Z)) * bool * (Z * Z * Z) * Z);
  BBox := list (Z * Z);
  Pts := list (Z * Z);
  np_int32 := fun bbox =>
                if forallb (fun p => is_int32 p.1 && is_int32 p.2) bbox
                then Returns bbox
                else Raises (Exception
                               (lit "Python integer out of bounds for int32"));
  cv2_polylines := fun px pts closed color thickness =>
                     Returns (px ++ [(pts, closed, color, thickness)])
|}.

Definition empty_world `{Externals} : World := mkWorld ∅ [].

(** Sample inputs over [display_list]: a polygon, a blank raster, a reader
    that answers the same detections on every image, a world holding one
    blank image, and a document given by the outcome of text extraction and
    of rasterization for each page. *)
Section Samples.
Local Existing Instance display_list.

Definition box : BBox := [(0, 0); (10, 0); (10, 5); (0, 5)]%Z.

Definition blank : Pixels := [].

Definition reads (dets : list Detection) : Reader := fun _ => Returns dets.

Definition one_image_world : World := mkWorld {[1%positive := PILImage blank]} [].

Definition document (ps : list (outcome (option str) * outcome (list Pixels)))
    : PdfFile :=
  mkPdfFile (Returns ((fun p => mkPdfPage p.1) <$> ps))
    (fun n =>
       match n with
       | 0 => Raises (Exception (lit "no such page"))
       | S i => match ps !! i with
                | Some p => p.2
                | None => Raises (Exception (lit "no such page"))
                end
       end).

(** A text of 60 characters, 59 once stripped. *)
Definition sample_text : str := rep (lit "word ") 12.

(** [results] before the first page of a one-page document. *)
Definition one_page_results : Results := mkResults [] 0 0 0 1 0 0 0 None.

Definition text_page (t : str) : PdfPage := mkPdfPage (Returns (Some t)).

(** One-page documents: embedded text [t]; the rasterizer returns one blank
    image, or no image at all. *)
Definition rendered_doc (t : str) : PdfFile :=
  document [(Returns (Some t), Returns [blank])].

Definition unrendered_doc (t : str) : PdfFile :=
  document [(Returns (Some t), Returns [])].

(** A three-page document: a page of text, a page with a short header
    over an image, and a page whose text extraction raises and for which the
    rasterizer returns no image; and a reader that finds two fragments. *)
Definition three_page_doc : PdfFile :=
  document [(Returns (Some sample_text), Returns [blank]);
            (Returns (Some (lit "Header")), Returns [blank]);
            (Raises (Exception (lit "bad stream")), Returns [])].

(** The floats [0.9] and [0.8]. *)
Definition float_0_9 : Q := 8106479329266893 # 9007199254740992.
Definition float_0_8 : Q := 3602879701896397 # 4503599627370496.

Definition two_fragments : Reader :=
  reads [(box, lit "Scan", float_0_9); (box, lit "ned", float_0_8)].

(** The results a run returned, if it returned any. *)
Definition results_of (run : outcome (option Results) * World) : Results :=
  match run.1 with
  | Returns (Some r) => r
  | _ => mkResults [] 0 0 0 0 0 0 0 None
  end.

(** A two-page document whose second page has only a page number as text
    and cannot be rasterized. *)
Definition failing_doc : PdfFile :=
  document [(Returns (Some sample_text), Returns [blank]);
            (Returns (Some (lit "7")),
             Raises (Exception (lit "Unable to get page count")))].

(** The report text a run returned, if it returned any. *)
Definition report_of (run : outcome (option Results) * World) : str :=
  default [] (extracted_text (results_of run)).

End Samples.

(** Sample inputs of the script: an uploaded file of a given size, an
    application state at the start of a session, and one that holds the
    results of an earlier extraction. *)
Section MainSamples.
Local Existing Instance display_list.

Definition sample_upload (size : N) (pdf : PdfFile) : UploadedFile :=
  mkUploadedFile (lit "scan.pdf") (lit "scan") size pdf.

Definition fresh_app : App := mkApp empty_world [] None.

Definition earlier_results : Results :=
  results_of (process_pdf three_page_doc two_fragments empty_world).

Definition returning_app : App := mkApp empty_world [] (Some earlier_results).

(** A document of two pages of text that cannot be rasterized, and a reader
    that always raises. *)
Definition text_doc : PdfFile :=
  document [(Returns (Some sample_text), Raises (Exception (lit "no raster")));
            (Returns (Some sample_text), Raises (Exception (lit "no raster")))].

Definition broken_reader : Reader :=
  fun _ => Raises (Exception (lit "no reader")).

(** A reader that is interrupted: [KeyboardInterrupt] is not an instance of
    [Exception]. *)
Definition interrupted_reader : Reader :=
  fun _ => Raises (BaseException (lit "KeyboardInterrupt")).

(** A polygon with two corners at x = 2^31, which is not an [int32]. *)
Definition wide_box : BBox :=
  [(0, 0); (2147483648, 0); (2147483648, 5); (0, 5)]%Z.

End MainSamples.

(** ** Specification-side notions *)

(** The number of whitespace-delimited tokens of a string: the number of
    maximal runs of non-whitespace characters.  [in_token] tells whether the
    previous character belongs to a token. *)
Fixpoint count_tokens_from (in_token : bool) (s : str) : nat :=
  match s with
  | [] => 0
  | c :: s' =>
      if is_space c then count_tokens_from false s'
      else (if in_token then 0 else 1) + count_tokens_from true s'
  end.

Definition whitespace_delimited_tokens (s : str) : nat :=
  count_tokens_from false s.

(** The arithmetic mean of a non-empty list of confidences, in exact
    arithmetic. *)
Definition arithmetic_mean (l : list Q) : Q :=
  (fold_right Qplus 0 l / inject_Z (Z.of_nat (length l)))%Q.

(** A world [w'] extends [w] when every object of [w] is still there,
    unchanged. *)
Definition extends `{Externals} (w w' : World) : Prop :=
  forall l o, heap w !! l = Some o -> heap w' !! l = Some o.

(** The outcome of drawing the outlines of [bboxes] on content [px], one
    closed green polygon of thickness 2 per box, in order: the content after
    the last drawing, or the first exception that a conversion or a drawing
    raises. *)
Fixpoint outlined `{Externals} (px : Pixels) (bboxes : list BBox)
    : outcome Pixels :=
  match bboxes with
  | [] => Returns px
  | bbox :: rest =>
      match np_int32 bbox with
      | Raises e => Raises e
      | Returns pts =>
          match cv2_polylines px [pts] true (0, 255, 0)%Z 2%Z with
          | Raises e => Raises e
          | Returns px' => outlined px' rest
          end
      end
  end.

(** The components of a detection, and what [perform_ocr] makes of a list
    of detections. *)
Definition det_bbox `{Externals} (d : Detection) : BBox := d.1.1.
Definition det_text `{Externals} (d : Detection) : str := d.1.2.
Definition det_conf `{Externals} (d : Detection) : Q := d.2.

Definition ocr_text `{Externals} (dets : list Detection) : str :=
  join (lit " ") (det_text <$> dets).

Definition avg_confidence `{Externals} (dets : list Detection) : Q :=
  match dets with
  | [] => 0%Q
  | _ =>
      round64 (sum (det_conf <$> dets)
               / float_of_int (Z.of_nat (length dets)))
  end.

(** What [classify] can return for page [n] with embedded text [t], by
    case: the page keeps its text; the rasterizer gave no image; OCR ran on
    the first image and the stripped text is non-empty, or empty. *)
Inductive classified `{Externals} (pdf_file : PdfFile) (reader : Reader)
    (t : str) (results : Results) (n : nat) : Results * PageInfo -> Prop :=
  | classified_editable :
      50 <= length (strip t) ->
      classified pdf_file reader t results n
        (incr_editable_pages results,
         mkPageInfo n (lit "Editable") (lit "N/A") t 0 None)
  | classified_no_image :
      length (strip t) < 50 ->
      pdf_convert pdf_file n = Returns [] ->
      classified pdf_file reader t results n
        (results, mkPageInfo n [] (lit "N/A") [] 0 None)
  | classified_hybrid px rest dets preview :
      0 < length (strip t) < 50 ->
      pdf_convert pdf_file n = Returns (px :: rest) ->
      reader px = Returns dets ->
      classified pdf_file reader t results n
        (incr_hybrid_pages results,
         mkPageInfo n (lit "Hybrid") (format_pct (avg_confidence dets))
           (t ++ nl ++ ocr_text dets) 0 (Some preview))
  | classified_scanned px rest dets preview :
      length (strip t) = 0 ->
      pdf_convert pdf_file n = Returns (px :: rest) ->
      reader px = Returns dets ->
      classified pdf_file reader t results n
        (incr_scanned_pages results,
         mkPageInfo n (lit "Scanned") (format_pct (avg_confidence dets))
           (ocr_text dets) 0 (Some preview)).

(** The totals of [results] are the sums over its pages and the counters
    count the pages of each type. *)
Definition without_spaces (s : str) : str :=
  filter (fun c => c <> 0x20%N /\ c <> 0x0a%N) s.

Definition pages_of_type (ty : str) (ps : list PageInfo) : nat :=
  length (filter (fun p => type p = ty) ps).

Record totals_agree (r : Results) : Prop := {
  agree_words : total_words r = sum_list_with word_count (pages r);
  agree_chars_with :
    total_chars_with_spaces r = sum_list_with (fun p => length (text p)) (pages r);
  agree_chars_without :
    total_chars_without_spaces r
    = sum_list_with (fun p => length (without_spaces (text p))) (pages r);
  agree_editable : editable_pages r = pages_of_type (lit "Editable") (pages r);
  agree_scanned : scanned_pages r = pages_of_type (lit "Scanned") (pages r);
  agree_hybrid : hybrid_pages r = pages_of_type (lit "Hybrid") (pages r);
  agree_word_count :
    Forall (fun p => word_count p = whitespace_delimited_tokens (text p)) (pages r)
}.

(** A page needs OCR when its stripped embedded text is shorter than 50
    characters.  For such a page, numbered [n], rasterization or OCR fails
    when [convert_from_bytes] raises or the reader raises on the first
    image. *)
Definition needs_ocr (page : PdfPage) : Prop :=
  length (strip (extract_text_from_page page)) < 50.

Definition raster_or_ocr_fails `{Externals} (pdf_file : PdfFile)
    (reader : Reader) (n : nat) : Prop :=
  (exists e, pdf_convert pdf_file n = Raises e)
  \/ (exists px rest e,
        pdf_convert pdf_file n = Returns (px :: rest) /\ reader px = Raises e).

(** The exception with which lines 145-178 end for page [n], if they end
    with one: that of [convert_from_bytes]; or that of the reader on the
    first image; or that of the annotation of the preview with the polygons
    the reader returned. *)
Definition ocr_failure `{Externals} (pdf_file : PdfFile) (reader : Reader)
    (n : nat) : option exn :=
  match pdf_convert pdf_file n with
  | Raises e => Some e
  | Returns [] => None
  | Returns (px :: _) =>
      match reader px with
      | Raises e => Some e
      | Returns dets =>
          match outlined px (det_bbox <$> dets) with
          | Raises e => Some e
          | Returns _ => None
          end
      end
  end.

(** The exception with which the loop body ends for [page], numbered [n],
    and the one with which the loop over [pdf_pages], the first of them
    numbered [n], ends: that of the first page whose body raises. *)
Definition page_failure `{Externals} (pdf_file : PdfFile) (reader : Reader)
    (n : nat) (page : PdfPage) : option exn :=
  if length (strip (extract_text_from_page page)) <? 50
  then ocr_failure pdf_file reader n
  else None.

Fixpoint first_failure `{Externals} (pdf_file : PdfFile) (reader : Reader)
    (n : nat) (pdf_pages : list PdfPage) : option exn :=
  match pdf_pages with
  | [] => None
  | page :: rest =>
      match page_failure pdf_file reader n page with
      | Some e => Some e
      | None => first_failure pdf_file reader (S n) rest
      end
  end.

(** What lines 224-226 make of an exception raised inside the [try] block
    in world [w]: an instance of [Exception] is reported and the function
    returns [None]; any other exception goes on to the caller. *)
Definition handled `{Externals} (e : exn) (w : World)
    : outcome (option Results) * World :=
  if is_Exception e
  then (Returns None,
        mkWorld (heap w)
          (ui w ++ [StError (lit "Error processing PDF: " ++ exn_str e)]))
  else (Raises e, w).

(** The lines of a text: the pieces between newlines. *)
Fixpoint lines_from (cur : str) (s : str) : list str :=
  match s with
  | [] => [cur]
  | c :: s' =>
      if (c =? 0x0a)%N then cur :: lines_from [] s'
      else lines_from (cur ++ [c]) s'
  end.

Definition lines (s : str) : list str := lines_from [] s.

(** How many lines of [s] are equal to [l]. *)
Definition count_lines (l : str) (s : str) : nat :=
  length (filter (fun x => x = l) (lines s)).

(** The events of the log, by kind, and how many events of a kind a log
    holds. *)
Definition is_readtext (ev : Event) : bool :=
  match ev with Readtext _ => true | _ => false end.

Definition is_convert (ev : Event) : bool :=
  match ev with ConvertFromBytes _ _ _ => true | _ => false end.

Definition is_progress (ev : Event) : bool :=
  match ev with ProgressBar _ _ => true | _ => false end.

Definition is_error (ev : Event) : bool :=
  match ev with StError _ => true | _ => false end.

Definition count_events (kind : Event -> bool) (evs : list Event) : nat :=
  length (List.filter kind evs).

(** The shape of a page record in world [w]: its word count is that of its
    text, and it is an Editable page, a page left without type, or a page
    that went through OCR and holds a preview image that exists in [w]. *)
Definition page_record_ok `{Externals} (w : World) (p : PageInfo) : Prop :=
  word_count p = whitespace_delimited_tokens (text p)
  /\ ((type p = lit "Editable" /\ confidence p = lit "N/A"
       /\ preview_image p = None /\ 50 <= length (strip (text p)))
      \/ (type p = [] /\ confidence p = lit "N/A"
          /\ preview_image p = None /\ text p = [])
      \/ ((type p = lit "Scanned" \/ type p = lit "Hybrid")
          /\ (exists q : Q, confidence p = format_pct q)
          /\ exists l px, preview_image p = Some l
                          /\ heap w !! l = Some (PILImage px))).

(** The records of a run of pages that all keep their embedded text, the
    first of them numbered [n], and the events of [len] iterations of the
    loop that call neither the rasterizer nor the reader. *)
Definition editable_records (n : nat) (pdf_pages : list PdfPage) : list PageInfo :=
  imap (fun i page =>
          mkPageInfo (n + i) (lit "Editable") (lit "N/A")
            (extract_text_from_page page)
            (whitespace_delimited_tokens (extract_text_from_page page)) None)
       pdf_pages.

Definition quiet_events (total n len : nat) : list Event :=
  flat_map (fun k => [StatusText (status_message k total); ProgressBar k total])
           (seq n len).

(** * Properties of the string functions *)

Lemma split_from_length (cur s : str) :
  length (split_from cur s)
  = match cur with
    | [] => count_tokens_from false s
    | _ => count_tokens_from true s + 1
    end.
Proof.
  revert cur. induction s as [|c s IH]; intros cur; simpl.
  - by destruct cur.
  - destruct (is_space c).
    + destruct cur; simpl; rewrite IH; simpl; lia.
    + rewrite IH. destruct cur; simpl; lia.
Qed.

Lemma split_from_tokens (cur s : str) :
  Forall (fun c => is_space c = false) cur ->
  Forall (fun t => t <> [] /\ Forall (fun c => is_space c = false) t)
         (split_from cur s).
Proof.
  revert cur. induction s as [|c s IH]; intros cur Hcur; simpl.
  - destruct cur; [constructor|]. constructor; [by split | constructor].
  - destruct (is_space c) eqn:Hc.
    + destruct cur; [by apply IH|].
      constructor; [done|]. by apply IH.
    + apply IH. apply Forall_app. split; [done|]. by constructor.
Qed.

Lemma split_from_concat (cur s : str) :
  concat (split_from cur s) = cur ++ filter (fun c => is_space c = false) s.
Proof.
  revert cur. induction s as [|c s IH]; intros cur.
  - destruct cur; simpl; by rewrite ?app_nil_r.
  - rewrite filter_cons. cbn [split_from]. destruct (is_space c) eqn:Hc.
    + rewrite decide_False by done.
      destruct cur; cbn [concat]; by rewrite IH.
    + rewrite decide_True by done. rewrite IH. by rewrite <- app_assoc.
Qed.

Lemma replace_delete (old : char) (s : str) :
  replace old [] s = filter (fun c => c <> old) s.
Proof.
  unfold replace. induction s as [|c s IH]; [done|].
  rewrite filter_cons. cbn [flat_map]. rewrite IH.
  destruct (N.eqb_spec c old) as [->|Hne].
  - by rewrite decide_False by (intros ?; done).
  - by rewrite decide_True by done.
Qed.

Lemma filter_filter_and {A} (P Q : A -> Prop)
    `{forall x, Decision (P x)} `{forall x, Decision (Q x)} (l : list A) :
  filter Q (filter P l) = filter (fun x => P x /\ Q x) l.
Proof.
  induction l as [|x l IH]; [done|].
  rewrite !filter_cons.
  destruct (decide (P x)); destruct (decide (Q x));
    rewrite ?filter_cons; repeat case_decide; try tauto; by f_equal.
Qed.

(** C6 (count_words_and_chars, lines 95-101).  For every string the word
    count is the number of whitespace-delimited tokens: the tokens are
    non-empty, free of whitespace, and together make up the non-whitespace
    characters of the string in order; the count with spaces is the length;
    the count without spaces is the length after deleting exactly the
    characters space and newline, so a string with neither keeps its length.
    The empty string has 0 words, ["a  b\nc"] has 3, and ["a\tb c"] has 4
    characters without spaces, those of ["a\tbc"]. *)
Theorem count_words_and_chars_spec :
  (forall text : str,
     count_words_and_chars text
     = (whitespace_delimited_tokens text,
        length text,
        length (without_spaces text))
     /\ length (split text) = whitespace_delimited_tokens text
     /\ Forall (fun t => t <> [] /\ Forall (fun c => is_space c = false) t)
               (split text)
     /\ concat (split text) = filter (fun c => is_space c = false) text
     /\ (Forall (fun c => c <> 0x20%N /\ c <> 0x0a%N) text ->
         (count_words_and_chars text).2 = length text))
  /\ count_words_and_chars [] = (0, 0, 0)
  /\ (count_words_and_chars (lit "a  b" ++ nl ++ lit "c")).1.1 = 3
  /\ replace 0x0a%N [] (replace 0x20%N [] (lit "a" ++ tab ++ lit "b c"))
     = lit "a" ++ tab ++ lit "bc"
  /\ (count_words_and_chars (lit "a" ++ tab ++ lit "b c")).2 = 4.
Proof.
  split; [|by repeat split].
  intros text.
  assert (Hlen : length (split text) = whitespace_delimited_tokens text)
    by apply (split_from_length [] text).
  assert (Hwo : replace 0x0a%N [] (replace 0x20%N [] text)
                = filter (fun c => c <> 0x20%N /\ c <> 0x0a%N) text).
  { rewrite !replace_delete. apply filter_filter_and. }
  unfold count_words_and_chars. rewrite Hlen, Hwo.
  repeat split.
  - by apply split_from_tokens.
  - apply (split_from_concat [] text).
  - intros Hall. cbn [snd]. clear Hlen Hwo.
    induction Hall as [|c l Hc _ IH]; [done|].
    rewrite filter_cons, decide_True by done. cbn [length]. f_equal. exact IH.
Qed.

Lemma count_words_and_chars_spec_witness :
  (count_words_and_chars (lit "a" ++ tab ++ lit "bc")).2
  = length (lit "a" ++ tab ++ lit "bc").
Proof.
  apply (proj1 count_words_and_chars_spec (lit "a" ++ tab ++ lit "bc")).
  repeat constructor; discriminate.
Defined.

(** * Properties of the float operations *)

Lemma pow2_pos (e : Z) : (0 < pow2 e)%Q.
Proof. by apply Qpower_0_lt. Qed.

Lemma pow2_le (n m : Z) : (n <= m)%Z -> (pow2 n <= pow2 m)%Q.
Proof. intros Hnm. by apply Qpower_le_compat_l. Qed.

Lemma pow2_lt (n m : Z) : (n < m)%Z -> (pow2 n < pow2 m)%Q.
Proof. intros Hnm. by apply Qpower_lt_compat_l. Qed.

Lemma pow2_le_inv (n m : Z) : (pow2 n <= pow2 m)%Q -> (n <= m)%Z.
Proof. intros Hnm. by apply (Qpower_le_compat_l_inv 2). Qed.

Lemma pow2_lt_inv (n m : Z) : (pow2 n < pow2 m)%Q -> (n < m)%Z.
Proof. intros Hnm. by apply (Qpower_lt_compat_l_inv 2). Qed.

Lemma pow2_inject (k : Z) : (0 <= k)%Z -> (pow2 k == inject_Z (2 ^ k))%Q.
Proof. intros Hk. unfold pow2. by rewrite Zpower_Qpower. Qed.

Lemma pow2_plus (n m : Z) : (pow2 (n + m) == pow2 n * pow2 m)%Q.
Proof. by apply Qpower_plus. Qed.

Lemma floor_log2_spec (a : Q) :
  (0 < a)%Q -> (pow2 (floor_log2 a) <= a /\ a < pow2 (floor_log2 a + 1))%Q.
Proof.
  intros Ha. destruct a as [n d].
  assert (Hn : (0 < n)%Z) by (unfold Qlt in Ha; simpl in Ha; lia).
  unfold floor_log2. cbn [Qnum Qden].
  set (ln := Z.log2 n). set (ld := Z.log2 (Z.pos d)).
  destruct (Z.log2_spec n Hn) as [Hn1 Hn2]. fold ln in Hn1, Hn2.
  destruct (Z.log2_spec (Z.pos d) eq_refl) as [Hd1 Hd2]. fold ld in Hd1, Hd2.
  assert (Hln : (0 <= ln)%Z) by apply Z.log2_nonneg.
  assert (Hld : (0 <= ld)%Z) by apply Z.log2_nonneg.
  assert (Hqn1 : (pow2 ln <= inject_Z n)%Q).
  { rewrite pow2_inject by done. by rewrite <- Zle_Qle. }
  assert (Hqn2 : (inject_Z n < pow2 (ln + 1))%Q).
  { rewrite pow2_inject by lia. rewrite <- Zlt_Qlt. lia. }
  assert (Hqd1 : (pow2 ld <= inject_Z (Z.pos d))%Q).
  { rewrite pow2_inject by done. by rewrite <- Zle_Qle. }
  assert (Hqd2 : (inject_Z (Z.pos d) < pow2 (ld + 1))%Q).
  { rewrite pow2_inject by lia. rewrite <- Zlt_Qlt. lia. }
  assert (Hdpos : (0 < inject_Z (Z.pos d))%Q) by done.
  assert (Had : ((n # d) * inject_Z (Z.pos d) == inject_Z n)%Q).
  { unfold Qeq, inject_Z. simpl. lia. }
  assert (Hlo : (pow2 (ln - ld - 1) <= n # d)%Q).
  { assert (Hsplit : (pow2 ln == pow2 (ln - ld - 1) * pow2 (ld + 1))%Q).
    { rewrite <- pow2_plus. by replace (ln - ld - 1 + (ld + 1))%Z with ln by lia. }
    pose proof (pow2_pos (ln - ld - 1)). pose proof (pow2_pos (ld + 1)).
    pose proof (pow2_pos ln).
    apply Qnot_lt_le. intros Hlt.
    assert (((n # d) * inject_Z (Z.pos d) < pow2 (ln - ld - 1) * pow2 (ld + 1))%Q).
    { eapply Qle_lt_trans; [|apply Qmult_lt_compat_r; [|apply Hlt]].
      - apply Qmult_le_l; [done|]. by apply Qlt_le_weak.
      - apply pow2_pos. }
    lra. }
  assert (Hhi : (n # d < pow2 (ln - ld + 1))%Q).
  { assert (Hsplit : (pow2 (ln + 1) == pow2 (ln - ld + 1) * pow2 ld)%Q).
    { rewrite <- pow2_plus. by replace (ln - ld + 1 + ld)%Z with (ln + 1)%Z by lia. }
    pose proof (pow2_pos (ln - ld + 1)). pose proof (pow2_pos ld).
    apply Qnot_le_lt. intros Hle.
    assert ((pow2 (ln - ld + 1) * pow2 ld <= (n # d) * inject_Z (Z.pos d))%Q).
    { eapply Qle_trans; [apply Qmult_le_compat_r; [apply Hle|by apply Qlt_le_weak]|].
      apply Qmult_le_l; [done|]. apply Hqd1. }
    lra. }
  destruct (Qle_bool (pow2 (ln - ld)) (n # d)) eqn:Hcmp.
  - apply Qle_bool_iff in Hcmp. by split.
  - split; [done|]. replace (ln - ld - 1 + 1)%Z with (ln - ld)%Z by lia.
    apply Qnot_le_lt. intros Hle. apply Qle_bool_iff in Hle. congruence.
Qed.

Lemma round_half_even_le (y : Q) (k : Z) :
  (y <= inject_Z k)%Q -> (round_half_even y <= k)%Z.
Proof.
  intros Hy. unfold round_half_even.
  assert (Hfq := Qfloor_le y).
  assert (Hfk : (Qfloor y <= k)%Z).
  { rewrite Zle_Qle. by eapply Qle_trans. }
  assert (Hstep : (inject_Z (Qfloor y) < y)%Q -> (Qfloor y + 1 <= k)%Z).
  { intros Hlt. assert (Hlt' : (Qfloor y < k)%Z); [|lia].
    rewrite Zlt_Qlt. by eapply Qlt_le_trans. }
  destruct (Qcompare_spec (y - inject_Z (Qfloor y)) (1 # 2)) as [Heq|Hlt|Hgt].
  - destruct (Z.even (Qfloor y)); [lia|]. apply Hstep. lra.
  - lia.
  - apply Hstep. lra.
Qed.

Lemma round_half_even_ge (y : Q) (k : Z) :
  (inject_Z k <= y)%Q -> (k <= round_half_even y)%Z.
Proof.
  intros Hy. unfold round_half_even.
  assert (Hfk : (k <= Qfloor y)%Z).
  { rewrite <- (Qfloor_Z k). by apply Qfloor_resp_le. }
  destruct (Qcompare_spec (y - inject_Z (Qfloor y)) (1 # 2)) as [Heq|Hlt|Hgt].
  - destruct (Z.even (Qfloor y)); lia.
  - lia.
  - lia.
Qed.

Lemma round_half_even_tie (y : Q) (k : Z) :
  (y <= inject_Z k + (1 # 2))%Q -> Z.even k = true ->
  (round_half_even y <= k)%Z.
Proof.
  intros Hy Hk. unfold round_half_even.
  assert (Hfq := Qfloor_le y).
  assert (Hfk : (Qfloor y <= k)%Z).
  { assert (Hlt : (Qfloor y < k + 1)%Z); [|lia].
    rewrite Zlt_Qlt. rewrite inject_Z_plus.
    eapply Qle_lt_trans; [apply Hfq|]. change (inject_Z 1) with 1%Q. lra. }
  destruct (Z.eq_dec (Qfloor y) k) as [Heqk|Hne].
  - rewrite Heqk.
    destruct (Qcompare_spec (y - inject_Z k) (1 # 2)) as [Heq|Hlt|Hgt].
    + by rewrite Hk.
    + lia.
    + lra.
  - destruct (Qcompare_spec (y - inject_Z (Qfloor y)) (1 # 2)) as [Heq|Hlt|Hgt].
    + destruct (Z.even (Qfloor y)); lia.
    + lia.
    + lia.
Qed.

Lemma ulp_pos (a : Q) : (0 < ulp a)%Q.
Proof. apply pow2_pos. Qed.

Lemma round64_of_pos (x : Q) :
  (0 < x)%Q ->
  round64 x = (inject_Z (round_half_even (x / ulp x)) * ulp x)%Q.
Proof.
  intros Hx. unfold round64.
  destruct (Qeq_bool x 0) eqn:Hz.
  { apply Qeq_bool_iff in Hz. lra. }
  assert (Habs : Qabs x = x).
  { destruct x as [n d]. unfold Qlt in Hx. simpl in Hx. simpl.
    f_equal. lia. }
  rewrite Habs.
  destruct (Qlt_le_dec x 0) as [Hneg|_]; [lra|done].
Qed.

Lemma round64_sign (x : Q) :
  ((0 <= x -> 0 <= round64 x) /\ (x <= 0 -> round64 x <= 0))%Q.
Proof.
  unfold round64. destruct (Qeq_bool x 0) eqn:Hz; [split; intros; lra|].
  assert (Hm : (0 <= inject_Z (round_half_even (Qabs x / ulp (Qabs x)))
                    * ulp (Qabs x))%Q).
  { apply Qmult_le_0_compat; [|apply Qlt_le_weak, ulp_pos].
    change 0%Q with (inject_Z 0). rewrite <- Zle_Qle.
    apply round_half_even_ge. apply Qle_shift_div_l; [apply ulp_pos|].
    change (inject_Z 0) with 0%Q. ring_simplify. apply Qabs_nonneg. }
  apply Qeq_bool_neq in Hz.
  destruct (Qlt_le_dec x 0) as [Hneg|Hpos]; split; intros; lra.
Qed.

(** Rounding does not cross a multiple of the spacing. *)
Lemma round64_le_grid (x : Q) (j : Z) :
  (0 < x)%Q -> (x <= inject_Z j * ulp x)%Q ->
  (round64 x <= inject_Z j * ulp x)%Q.
Proof.
  intros Hx Hj. rewrite (round64_of_pos x Hx).
  apply Qmult_le_compat_r; [|apply Qlt_le_weak, ulp_pos].
  rewrite <- Zle_Qle. apply round_half_even_le.
  by apply Qle_shift_div_r; [apply ulp_pos|].
Qed.

Lemma round64_ge_grid (x : Q) (j : Z) :
  (0 < x)%Q -> (inject_Z j * ulp x <= x)%Q ->
  (inject_Z j * ulp x <= round64 x)%Q.
Proof.
  intros Hx Hj. rewrite (round64_of_pos x Hx).
  apply Qmult_le_compat_r; [|apply Qlt_le_weak, ulp_pos].
  rewrite <- Zle_Qle. apply round_half_even_ge.
  by apply Qle_shift_div_l; [apply ulp_pos|].
Qed.

(** An integer is a multiple of the spacing when the spacing is at most 1. *)
Lemma int_on_grid (x : Q) (k : Z) :
  (floor_log2 x <= 52)%Z ->
  exists j : Z, (inject_Z k == inject_Z j * ulp x)%Q.
Proof.
  intros He. unfold ulp.
  set (qe := (Z.max (floor_log2 x) (-1022) - 52)%Z).
  assert (Hqe : (qe <= 0)%Z) by lia.
  exists (k * 2 ^ (- qe))%Z.
  rewrite inject_Z_mult, <- pow2_inject by lia.
  rewrite <- Qmult_assoc, <- pow2_plus.
  replace (- qe + qe)%Z with 0%Z by lia. change (pow2 0) with 1%Q. ring.
Qed.

Lemma pow2_53 : (pow2 53 == inject_Z (2 ^ 53))%Q.
Proof. by apply pow2_inject. Qed.

Lemma round64_le_int (x : Q) (k : Z) :
  (0 <= k <= 2 ^ 53)%Z -> (x <= inject_Z k)%Q -> (round64 x <= inject_Z k)%Q.
Proof.
  intros [Hk0 Hk] Hx.
  assert (HK0 : (0 <= inject_Z k)%Q).
  { change 0%Q with (inject_Z 0). by rewrite <- Zle_Qle. }
  destruct (Qlt_le_dec 0 x) as [Hpos|Hneg].
  2:{ eapply Qle_trans; [by apply round64_sign|done]. }
  destruct (floor_log2_spec x Hpos) as [Hlo Hhi].
  assert (HK : (inject_Z k <= pow2 53)%Q).
  { rewrite pow2_53. by rewrite <- Zle_Qle. }
  assert (He : (floor_log2 x <= 53)%Z).
  { apply pow2_le_inv. lra. }
  destruct (Z.eq_dec (floor_log2 x) 53%Z) as [He53|Hne].
  - assert (Hu : (ulp x == 2)%Q).
    { unfold ulp. rewrite He53. reflexivity. }
    rewrite He53 in Hlo.
    assert (HKeq : (inject_Z k == inject_Z (2 ^ 52) * ulp x)%Q).
    { rewrite Hu.
      assert (H53 : (pow2 53 == inject_Z (2 ^ 52) * 2)%Q) by (by vm_compute).
      lra. }
    rewrite HKeq. apply round64_le_grid; [done|]. by rewrite <- HKeq.
  - destruct (int_on_grid x k) as [j Hj]; [lia|].
    rewrite Hj. apply round64_le_grid; [done|]. by rewrite <- Hj.
Qed.

Lemma round64_ge_int (x : Q) (k : Z) :
  (0 <= k <= 2 ^ 53)%Z -> (inject_Z k <= x)%Q -> (inject_Z k <= round64 x)%Q.
Proof.
  intros [Hk0 Hk] Hx.
  assert (HK0 : (0 <= inject_Z k)%Q).
  { change 0%Q with (inject_Z 0). by rewrite <- Zle_Qle. }
  destruct (Qlt_le_dec 0 x) as [Hpos|Hneg].
  2:{ assert (Hx0 : (0 <= x)%Q) by lra.
      assert (Hr := proj1 (round64_sign x) Hx0). lra. }
  destruct (floor_log2_spec x Hpos) as [Hlo Hhi].
  assert (HK : (inject_Z k <= pow2 53)%Q).
  { rewrite pow2_53. by rewrite <- Zle_Qle. }
  destruct (Z_le_gt_dec (floor_log2 x) 52%Z) as [He|He].
  - destruct (int_on_grid x k He) as [j Hj].
    rewrite Hj. apply round64_ge_grid; [done|]. by rewrite <- Hj.
  - assert (Hgrid : (pow2 (floor_log2 x) == inject_Z (2 ^ 52) * ulp x)%Q).
    { unfold ulp. rewrite <- pow2_inject by lia. rewrite <- pow2_plus.
      by replace (52 + (Z.max (floor_log2 x) (-1022) - 52))%Z
        with (floor_log2 x) by lia. }
    eapply Qle_trans; [apply HK|].
    eapply Qle_trans; [apply (pow2_le 53 (floor_log2 x)); lia|].
    rewrite Hgrid. apply round64_ge_grid; [done|]. by rewrite <- Hgrid.
Qed.

(** Adding at most 1 to 2^53 gives 2^53 again. *)
Lemma round64_saturates (x : Q) :
  (x <= inject_Z (2 ^ 53 + 1))%Q -> (round64 x <= inject_Z (2 ^ 53))%Q.
Proof.
  intros Hx.
  destruct (Qlt_le_dec (inject_Z (2 ^ 53)) x) as [Hbig|Hsmall].
  2:{ by apply round64_le_int. }
  assert (Hpos : (0 < x)%Q).
  { eapply Qlt_trans; [|apply Hbig]. done. }
  destruct (floor_log2_spec x Hpos) as [Hlo Hhi].
  assert (He : floor_log2 x = 53%Z).
  { assert (53 < floor_log2 x + 1)%Z.
    { apply pow2_lt_inv. rewrite pow2_53. lra. }
    assert (floor_log2 x < 54)%Z; [|lia].
    apply pow2_lt_inv. eapply Qle_lt_trans; [apply Hlo|].
    eapply Qle_lt_trans; [apply Hx|]. by rewrite (pow2_inject 54). }
  assert (Hu : (ulp x == 2)%Q).
  { unfold ulp. rewrite He. reflexivity. }
  rewrite (round64_of_pos x Hpos).
  assert (Hr : (round_half_even (x / ulp x) <= 2 ^ 52)%Z).
  { apply round_half_even_tie; [|done].
    apply Qle_shift_div_r; [apply ulp_pos|]. rewrite Hu.
    eapply Qle_trans; [apply Hx|]. by compute. }
  rewrite Zle_Qle in Hr.
  eapply Qle_trans;
    [apply Qmult_le_compat_r; [apply Hr | apply Qlt_le_weak, ulp_pos]|].
  rewrite Hu. by vm_compute.
Qed.

Lemma round64_zero (x : Q) : (x == 0)%Q -> round64 x = 0%Q.
Proof.
  intros Hx. unfold round64.
  by rewrite (proj2 (Qeq_bool_iff x 0) Hx).
Qed.

(** [float(n)] of a non-negative [int] is at least [n], up to [2^53]. *)
Lemma float_of_int_ge (n : Z) :
  (0 <= n)%Z -> (inject_Z (Z.min n (2 ^ 53)) <= float_of_int n)%Q.
Proof.
  intros Hn. apply round64_ge_int; [lia|]. rewrite <- Zle_Qle. lia.
Qed.

Lemma float_of_int_length {A} (x : A) (l : list A) :
  (1 <= float_of_int (Z.of_nat (length (x :: l))))%Q.
Proof.
  change 1%Q with (inject_Z 1). apply round64_ge_int; [lia|].
  rewrite <- Zle_Qle. cbn [length]. lia.
Qed.

Lemma float_of_int_nonzero {A} (x : A) (l : list A) :
  Qeq_bool (float_of_int (Z.of_nat (length (x :: l)))) 0 = false.
Proof.
  destruct (Qeq_bool _ 0) eqn:Heq; [|done].
  apply Qeq_bool_iff in Heq. pose proof (float_of_int_length x l). lra.
Qed.

(** A sum of [k] floats between 0 and 1 is between 0 and [k]; it never
    exceeds [2^53], where adding 1 changes nothing. *)
Lemma sum_from_bounds (l : list Q) (acc : Q) (k : Z) :
  (0 <= k)%Z ->
  (0 <= acc <= inject_Z (Z.min k (2 ^ 53)))%Q ->
  Forall (fun c => 0 <= c <= 1)%Q l ->
  (0 <= foldl float_add acc l
   <= inject_Z (Z.min (k + Z.of_nat (length l)) (2 ^ 53)))%Q.
Proof.
  intros Hk Hacc Hl. revert acc k Hk Hacc.
  induction Hl as [|c l [Hc0 Hc1] _ IH]; intros acc k Hk [Ha0 Ha1].
  - cbn [foldl length]. by replace (k + Z.of_nat 0)%Z with k by lia.
  - cbn [foldl length].
    replace (k + Z.of_nat (S (length l)))%Z
      with ((k + 1) + Z.of_nat (length l))%Z by lia.
    apply IH; [lia|]. unfold float_add. split.
    + apply round64_sign. lra.
    + destruct (Z_lt_le_dec k (2 ^ 53)) as [Hsmall|Hbig].
      * apply round64_le_int; [lia|].
        replace (Z.min (k + 1) (2 ^ 53)) with (Z.min k (2 ^ 53) + 1)%Z by lia.
        rewrite inject_Z_plus. change (inject_Z 1) with 1%Q. lra.
      * replace (Z.min (k + 1) (2 ^ 53)) with (2 ^ 53)%Z by lia.
        apply round64_saturates.
        replace (Z.min k (2 ^ 53)) with (2 ^ 53)%Z in Ha1 by lia.
        rewrite inject_Z_plus. change (inject_Z 1) with 1%Q. lra.
Qed.

Lemma sum_bounds (l : list Q) :
  Forall (fun c => 0 <= c <= 1)%Q l ->
  (0 <= sum l <= inject_Z (Z.min (Z.of_nat (length l)) (2 ^ 53)))%Q.
Proof.
  intros Hl. apply (sum_from_bounds l 0 0); [done| |done].
  split; [lra|]. by compute.
Qed.

Lemma sum_zero (l : list Q) : Forall (fun c => c == 0)%Q l -> sum l = 0%Q.
Proof.
  unfold sum. induction 1 as [|c l Hc _ IH]; [done|].
  cbn [foldl]. unfold float_add at 2.
  rewrite (round64_zero (0 + c)); [done|lra].
Qed.

(** The quotient of such a sum by the number of its terms. *)
Lemma mean_bounds (c : Q) (l : list Q) :
  Forall (fun c => 0 <= c <= 1)%Q (c :: l) ->
  (0 <= round64 (sum (c :: l) / float_of_int (Z.of_nat (length (c :: l))))
   <= 1)%Q.
Proof.
  intros Hl. destruct (sum_bounds _ Hl) as [Hs0 Hs1].
  pose proof (float_of_int_ge (Z.of_nat (length (c :: l)))) as Hn.
  pose proof (float_of_int_length c l) as Hpos.
  set (s := sum (c :: l)) in *.
  set (n := float_of_int (Z.of_nat (length (c :: l)))) in *.
  assert (Hsn : (s <= n)%Q).
  { eapply Qle_trans; [apply Hs1|]. apply Hn. lia. }
  split.
  - apply round64_sign. apply Qle_shift_div_l; lra.
  - change 1%Q with (inject_Z 1). apply round64_le_int; [lia|].
    change (inject_Z 1) with 1%Q. apply Qle_shift_div_r; lra.
Qed.

Lemma round_half_even_error (y : Q) :
  (- (1 # 2) <= inject_Z (round_half_even y) - y <= 1 # 2)%Q.
Proof.
  unfold round_half_even.
  assert (Hlo := Qfloor_le y). assert (Hhi := Qlt_floor y).
  rewrite inject_Z_plus in Hhi. change (inject_Z 1) with 1%Q in Hhi.
  destruct (Qcompare_spec (y - inject_Z (Qfloor y)) (1 # 2)) as [Heq|Hlt|Hgt].
  - destruct (Z.even (Qfloor y)).
    + lra.
    + rewrite inject_Z_plus. change (inject_Z 1) with 1%Q. lra.
  - lra.
  - rewrite inject_Z_plus. change (inject_Z 1) with 1%Q. lra.
Qed.

(** Rounding moves a number by at most half the spacing. *)
Lemma round64_error (x : Q) :
  (0 <= x)%Q ->
  (- (ulp x / 2) <= round64 x - x <= ulp x / 2)%Q.
Proof.
  intros Hx. pose proof (ulp_pos x) as Hu.
  destruct (Qeq_bool x 0) eqn:Hz.
  { unfold round64. rewrite Hz. apply Qeq_bool_iff in Hz.
    split.
    - apply Qle_trans with 0%Q; [|lra].
      assert (0 <= ulp x / 2)%Q by (apply Qle_shift_div_l; lra). lra.
    - apply Qle_trans with 0%Q; [lra|]. apply Qle_shift_div_l; lra. }
  apply Qeq_bool_neq in Hz.
  assert (Hpos : (0 < x)%Q) by lra.
  rewrite (round64_of_pos x Hpos).
  pose proof (round_half_even_error (x / ulp x)) as [Hr1 Hr2].
  set (r := inject_Z (round_half_even (x / ulp x))) in *.
  assert (Hxu : (x == x / ulp x * ulp x)%Q) by (field; lra).
  assert (Hd : (r * ulp x - x == (r - x / ulp x) * ulp x)%Q) by (field; lra).
  assert (Hhalf : (ulp x / 2 == (1 # 2) * ulp x)%Q) by (field; lra).
  assert (Hup : ((r - x / ulp x) * ulp x <= (1 # 2) * ulp x)%Q)
    by (apply Qmult_le_compat_r; lra).
  assert (Hdown : ((- (1 # 2)) * ulp x <= (r - x / ulp x) * ulp x)%Q)
    by (apply Qmult_le_compat_r; lra).
  rewrite Hd, Hhalf. lra.
Qed.

(** The spacing around a number that is at most [k >= 1]. *)
Lemma ulp_le (x : Q) (k : Z) :
  (0 < x)%Q -> (1 <= k)%Z -> (x <= inject_Z k)%Q ->
  (ulp x <= inject_Z k * pow2 (-52))%Q.
Proof.
  intros Hx Hk Hxk. destruct (floor_log2_spec x Hx) as [Hlo _].
  assert (HK : (1 <= inject_Z k)%Q).
  { change 1%Q with (inject_Z 1). by rewrite <- Zle_Qle. }
  pose proof (pow2_pos (-52)) as H52.
  unfold ulp. destruct (Z_le_gt_dec (-1022) (floor_log2 x)) as [He|He].
  - rewrite Z.max_l by lia.
    replace (floor_log2 x - 52)%Z with (floor_log2 x + -52)%Z by lia.
    rewrite pow2_plus. apply Qmult_le_compat_r; lra.
  - rewrite Z.max_r by lia.
    apply Qle_trans with (1 * pow2 (-52))%Q.
    + rewrite Qmult_1_l. by apply pow2_le.
    + apply Qmult_le_compat_r; lra.
Qed.

Lemma float_of_int_exact (n : Z) :
  (0 <= n <= 2 ^ 53)%Z -> (float_of_int n == inject_Z n)%Q.
Proof.
  intros Hn. apply Qle_antisym.
  - apply round64_le_int; [done|apply Qle_refl].
  - apply round64_ge_int; [done|apply Qle_refl].
Qed.

(** The rounded sum of floats between 0 and 1 against their exact sum:
    every addition adds at most half the spacing below [n]. *)
Lemma sum_from_error (l : list Q) (acc exact : Q) (k n : Z) (err : Q) :
  (0 <= k)%Z -> (k + Z.of_nat (length l) <= n <= 2 ^ 53)%Z -> (1 <= n)%Z ->
  (0 <= acc <= inject_Z k)%Q ->
  (- err <= acc - exact <= err)%Q ->
  Forall (fun c => 0 <= c <= 1)%Q l ->
  (- (err + inject_Z (Z.of_nat (length l)) * (inject_Z n * pow2 (-53)))
   <= foldl float_add acc l - (exact + fold_right Qplus 0 l)
   <= err + inject_Z (Z.of_nat (length l)) * (inject_Z n * pow2 (-53)))%Q.
Proof.
  intros Hk Hn Hn1 Hacc Herr Hl. revert acc exact k err Hk Hn Hacc Herr.
  induction Hl as [|c l [Hc0 Hc1] _ IH]; intros acc exact k err Hk Hn Hacc Herr.
  - cbn [foldl fold_right length]. change (inject_Z (Z.of_nat 0)) with 0%Q. lra.
  - cbn [foldl fold_right length] in *.
    set (step := (inject_Z n * pow2 (-53))%Q).
    assert (Hstep :
      (- step <= float_add acc c - (acc + c) <= step)%Q).
    { unfold float_add.
      assert (Hstep0 : (0 <= step)%Q).
      { unfold step. apply Qmult_le_0_compat.
        - change 0%Q with (inject_Z 0). rewrite <- Zle_Qle. lia.
        - apply Qlt_le_weak, pow2_pos. }
      destruct (Qlt_le_dec 0 (acc + c)) as [Hpos|Hzero].
      2:{ rewrite (round64_zero (acc + c)) by lra. lra. }
      pose proof (round64_error (acc + c) ltac:(lra)) as Hround.
      assert (Hxn : (acc + c <= inject_Z n)%Q).
      { apply Qle_trans with (inject_Z (k + 1)).
        - rewrite inject_Z_plus. change (inject_Z 1) with 1%Q. lra.
        - rewrite <- Zle_Qle. lia. }
      pose proof (ulp_le (acc + c) n Hpos Hn1 Hxn) as Hulp.
      assert (H53 : (pow2 (-52) == 2 * pow2 (-53))%Q) by (by vm_compute).
      assert (Hu : (ulp (acc + c) / 2 <= step)%Q).
      { apply Qle_shift_div_r; [lra|]. unfold step.
        rewrite H53 in Hulp. lra. }
      lra. }
    assert (Hacc' : (0 <= float_add acc c <= inject_Z (k + 1))%Q).
    { unfold float_add. split; [apply round64_sign; lra|].
      apply round64_le_int; [lia|].
      rewrite inject_Z_plus. change (inject_Z 1) with 1%Q. lra. }
    assert (Herr' : (- (err + step) <= float_add acc c - (exact + c)
                     <= err + step)%Q) by lra.
    specialize (IH (float_add acc c) (exact + c)%Q (k + 1)%Z (err + step)%Q
                  ltac:(lia) ltac:(lia) Hacc' Herr').
    rewrite Nat2Z.inj_succ. unfold Z.succ. rewrite inject_Z_plus.
    change (inject_Z 1) with 1%Q. fold step in IH |- *.
    lra.
Qed.

(** The mean as the code computes it, against the exact mean: the sum of
    [n] floats, [n] rounded additions and one rounded division, is within
    [(n + 1) * 2^-53] of the exact mean. *)
Lemma mean_error (c : Q) (l : list Q) :
  (Z.of_nat (length (c :: l)) <= 2 ^ 53)%Z ->
  Forall (fun c => 0 <= c <= 1)%Q (c :: l) ->
  (Qabs (round64 (sum (c :: l) / float_of_int (Z.of_nat (length (c :: l))))
         - arithmetic_mean (c :: l))
   <= inject_Z (Z.of_nat (length (c :: l)) + 1) * pow2 (-53))%Q.
Proof.
  intros Hlen Hl.
  set (n := Z.of_nat (length (c :: l))) in *.
  assert (Hn1 : (1 <= n)%Z) by (unfold n; cbn [length]; lia).
  pose proof (float_of_int_exact n ltac:(lia)) as Hfn.
  destruct (sum_bounds _ Hl) as [Hs0 Hs1]. fold n in Hs1.
  rewrite Z.min_l in Hs1 by lia.
  pose proof (sum_from_error (c :: l) 0 0 0 n 0 ltac:(lia) ltac:(lia) Hn1
                ltac:(split; [lra|by compute]) ltac:(lra) Hl) as Hsum.
  fold (sum (c :: l)) in Hsum. fold n in Hsum.
  unfold arithmetic_mean. fold n.
  set (s := sum (c :: l)) in *.
  set (S := fold_right Qplus 0%Q (c :: l)) in *.
  set (N := inject_Z n) in *.
  set (fn := float_of_int n) in *.
  assert (HN : (1 <= N)%Q).
  { unfold N. change 1%Q with (inject_Z 1). by rewrite <- Zle_Qle. }
  pose proof (pow2_pos (-53)) as H53.
  set (eps := pow2 (-53)) in *.
  assert (Hy0 : (0 <= s / fn)%Q) by (apply Qle_shift_div_l; lra).
  assert (Hy1 : (s / fn <= 1)%Q) by (apply Qle_shift_div_r; lra).
  assert (Hround : (- eps <= round64 (s / fn) - s / fn <= eps)%Q).
  { destruct (Qlt_le_dec 0 (s / fn)) as [Hpos|Hzero].
    2:{ rewrite (round64_zero (s / fn)) by lra. lra. }
    pose proof (round64_error (s / fn) Hy0) as Hround.
    pose proof (ulp_le (s / fn) 1 Hpos ltac:(lia) Hy1) as Hulp.
    assert (Heps : (pow2 (-52) == 2 * eps)%Q) by (by vm_compute).
    change (inject_Z 1) with 1%Q in Hulp.
    assert (Hu : (ulp (s / fn) / 2 <= eps)%Q).
    { apply Qle_shift_div_r; [lra|]. lra. }
    lra. }
  change (inject_Z (Z.of_nat (length (c :: l)))) with N in Hsum.
  fold eps in Hsum.
  assert (Hgoal : (inject_Z (n + 1) == N + 1)%Q).
  { rewrite inject_Z_plus. reflexivity. }
  rewrite Hgoal. clear Hgoal.
  clearbody N S s eps fn.
  assert (Hquot : (- (N * eps) <= s / fn - S / N <= N * eps)%Q).
  { assert (Heq : (s / fn - S / N == (s - S) / N)%Q).
    { rewrite Hfn. field. lra. }
    rewrite Heq. split.
    - apply Qle_shift_div_l; [lra|]. 
      assert (Hm : (- (N * eps) * N == - (0 + N * (N * eps)))%Q) by ring.
      rewrite Hm. lra.
    - apply Qle_shift_div_r; [lra|].
      assert (Hm : (N * eps * N == 0 + N * (N * eps))%Q) by ring.
      rewrite Hm. lra. }
  apply Qabs_Qle_condition.
  split; lra.
Qed.

(** * Reasoning about the monad *)

Section MonadFacts.
Context `{Externals}.

Lemma run_bind {A B} (m : M A) (f : A -> M B) (w : World) :
  (m ≫= f) w
  = match m w with
    | (Returns a, w') => f a w'
    | (Raises e, w') => (Raises e, w')
    end.
Proof. reflexivity. Qed.

Lemma run_load (l : loc) (o : obj) (w : World) :
  heap w !! l = Some o -> load l w = (Returns o, w).
Proof. intros Hl. unfold load. by rewrite Hl. Qed.

Lemma fresh_loc_None (w : World) : heap w !! fresh (dom (heap w)) = None.
Proof. apply not_elem_of_dom, is_fresh. Qed.

Lemma fresh_loc_ne (w : World) (l : loc) (o : obj) :
  heap w !! l = Some o -> fresh (dom (heap w)) <> l.
Proof. intros Hl Heq. rewrite <- Heq, fresh_loc_None in Hl. done. Qed.


Lemma extends_refl (w : World) : extends w w.
Proof. by intros l o. Qed.

Lemma extends_trans (w1 w2 w3 : World) :
  extends w1 w2 -> extends w2 w3 -> extends w1 w3.
Proof. intros H12 H23 l o Hl. by apply H23, H12. Qed.

Lemma extends_alloc (w : World) (o : obj) (u : list Event) :
  extends w (mkWorld (<[fresh (dom (heap w)):=o]> (heap w)) u).
Proof.
  intros l o' Hl. simpl. rewrite lookup_insert_ne; [done|].
  by eapply fresh_loc_ne.
Qed.

End MonadFacts.


Section DrawFacts.
Context `{Externals}.

Lemma draw_each_spec (bboxes : list BBox) (img_array : loc) (px : Pixels) (w : World) :
  heap w !! img_array = Some (NdArray px) ->
  exists px'' : Pixels,
    draw_each img_array bboxes w
    = (match outlined px bboxes with
       | Returns _ => Returns ()
       | Raises e => Raises e
       end,
       mkWorld (<[img_array:=NdArray px'']> (heap w)) (ui w))
    /\ (forall px', outlined px bboxes = Returns px' -> px'' = px').
Proof.
  revert px w. induction bboxes as [|bbox rest IH]; intros px w Harr.
  - exists px. split; [|by intros px' [= ->]].
    simpl. unfold mret, M_ret. destruct w as [h u]; simpl in *.
    by rewrite insert_id.
  - assert (Hsame : w = mkWorld (<[img_array:=NdArray px]> (heap w)) (ui w)).
    { destruct w as [h u]; simpl in *. by rewrite insert_id. }
    cbn [draw_each outlined]. rewrite run_bind. unfold lift at 1.
    destruct (np_int32 bbox) as [pts|e] eqn:Hpts.
    2:{ exists px. split; [by rewrite <- Hsame | done]. }
    unfold polylines.
    rewrite run_bind, run_bind, (run_load _ _ _ Harr), run_bind.
    unfold lift at 1.
    destruct (cv2_polylines px [pts] true (0, 255, 0)%Z 2%Z) as [px1|e] eqn:Hdraw.
    2:{ exists px. split; [by rewrite <- Hsame | done]. }
    unfold store.
    destruct (IH px1 (mkWorld (<[img_array:=NdArray px1]> (heap w)) (ui w)))
      as (px'' & Hrun & Hpx); [simpl; apply lookup_insert_eq|].
    exists px''. split; [|done].
    rewrite Hrun. simpl. by rewrite insert_insert_eq.
Qed.

End DrawFacts.

Section DrawRun.
Context `{Externals}.

(** One call of [draw_bboxes_on_image]: it returns a new image when every
    polygon is converted and drawn, and passes on the first exception
    otherwise; the objects that existed are unchanged in both cases. *)
Lemma draw_bboxes_on_image_run (image : loc) (bboxes : list BBox) (px : Pixels)
    (w : World) :
  heap w !! image = Some (PILImage px) ->
  match outlined px bboxes with
  | Returns px' =>
      exists (result : loc) (w' : World),
        draw_bboxes_on_image image bboxes w = (Returns result, w')
        /\ heap w !! result = None
        /\ heap w' !! result = Some (PILImage px')
        /\ extends w w'
        /\ ui w' = ui w
  | Raises e =>
      exists w' : World,
        draw_bboxes_on_image image bboxes w = (Raises e, w')
        /\ extends w w'
        /\ ui w' = ui w
  end.
Proof.
  intros Himg.
  set (w1 := mkWorld (<[fresh (dom (heap w)):=PILImage px]> (heap w)) (ui w)).
  set (copy := fresh (dom (heap w))).
  assert (Hcopy : heap w1 !! copy = Some (PILImage px))
    by apply lookup_insert_eq.
  set (w2 := mkWorld (<[fresh (dom (heap w1)):=NdArray px]> (heap w1)) (ui w1)).
  set (img_array := fresh (dom (heap w1))).
  assert (Harr : heap w2 !! img_array = Some (NdArray px))
    by apply lookup_insert_eq.
  destruct (draw_each_spec bboxes _ _ _ Harr) as (px'' & Hdraw & Hpx).
  set (w3 := mkWorld (<[img_array:=NdArray px'']> (heap w2)) (ui w2)) in *.
  assert (Harr3 : heap w3 !! img_array = Some (NdArray px''))
    by apply lookup_insert_eq.
  assert (H12 : extends w w1) by apply extends_alloc.
  assert (H23 : extends w1 w2) by apply extends_alloc.
  assert (H3 : extends w w3).
  { intros l o Hl. pose proof (H23 _ _ (H12 _ _ Hl)) as Hl2.
    simpl. rewrite lookup_insert_ne; [done|].
    intros <-. apply H12 in Hl. subst img_array.
    by rewrite (fresh_loc_None w1) in Hl. }
  assert (Hprefix :
    draw_bboxes_on_image image bboxes w
    = match draw_each img_array bboxes w2 with
      | (Returns _, w') => Image_fromarray img_array w'
      | (Raises e, w') => (Raises e, w')
      end).
  { unfold draw_bboxes_on_image, image_copy.
    rewrite run_bind, run_bind, (run_load _ _ _ Himg).
    unfold alloc at 1. fold w1 copy.
    unfold np_array. rewrite run_bind, run_bind, (run_load _ _ _ Hcopy).
    unfold alloc at 1. fold w2 img_array.
    by rewrite run_bind. }
  rewrite Hprefix, Hdraw.
  destruct (outlined px bboxes) as [px'|e].
  2:{ by exists w3. }
  rewrite (Hpx px' eq_refl) in *.
  unfold Image_fromarray. rewrite run_bind, (run_load _ _ _ Harr3).
  unfold alloc.
  pose proof (fresh_loc_None w3) as Hfresh.
  set (result := fresh (dom (heap w3))) in *.
  exists result, (mkWorld (<[result:=PILImage px']> (heap w3)) (ui w3)).
  split; [reflexivity|]. repeat split.
  - destruct (heap w !! result) as [o|] eqn:Hl; [|done].
    apply H3 in Hl. congruence.
  - apply lookup_insert_eq.
  - intros l o Hl. cbn [heap]. rewrite lookup_insert_ne; [by apply H3|].
    intros <-. apply H3 in Hl. congruence.
Qed.

End DrawRun.


Section OcrFacts.
Context `{Externals}.

Lemma collect_from (results : list Detection) (texts : list str)
    (confidences : list Q) (bboxes : list BBox) :
  foldl (fun '(texts, confidences, bboxes) '(bbox, text, conf) =>
           (texts ++ [text], confidences ++ [conf], bboxes ++ [bbox]))
        (texts, confidences, bboxes) results
  = (texts ++ (det_text <$> results), confidences ++ (det_conf <$> results),
     bboxes ++ (det_bbox <$> results)).
Proof.
  revert texts confidences bboxes.
  induction results as [|[[bbox text] conf] rest IH]; intros ts cs bs.
  - simpl. by rewrite !app_nil_r.
  - cbn [foldl]. rewrite IH. cbn. by rewrite <- !app_assoc.
Qed.

Lemma collect_spec (results : list Detection) :
  collect results
  = (det_text <$> results, det_conf <$> results, det_bbox <$> results).
Proof. apply (collect_from results [] [] []). Qed.

Lemma perform_ocr_run (image : loc) (reader : Reader) (px : Pixels)
    (dets : list Detection) (w : World) :
  heap w !! image = Some (PILImage px) ->
  reader px = Returns dets ->
  perform_ocr image reader w
  = (Returns (ocr_text dets, avg_confidence dets, det_bbox <$> dets),
     mkWorld (<[fresh (dom (heap w)):=NdArray px]> (heap w))
             (ui w ++ [Readtext (fresh (dom (heap w)))])).
Proof.
  intros Himg Hrd. unfold perform_ocr, np_array.
  rewrite run_bind, run_bind, (run_load _ _ _ Himg). unfold alloc at 1.
  set (img_array := fresh (dom (heap w))).
  set (w1 := mkWorld (<[img_array:=NdArray px]> (heap w)) (ui w)).
  assert (Harr : heap w1 !! img_array = Some (NdArray px))
    by apply lookup_insert_eq.
  unfold readtext. rewrite run_bind, run_bind, (run_load _ _ _ Harr).
  rewrite run_bind. unfold emit, lift. rewrite Hrd.
  destruct dets as [|d rest]; [reflexivity|].
  rewrite collect_spec. cbn [fmap list_fmap].
  rewrite run_bind. unfold true_div.
  rewrite (float_of_int_nonzero (det_conf d) (det_conf <$> rest)).
  unfold ocr_text, avg_confidence. cbn [length]. by rewrite length_fmap.
Qed.

Lemma perform_ocr_raises (image : loc) (reader : Reader) (px : Pixels)
    (e : exn) (w : World) :
  heap w !! image = Some (PILImage px) ->
  reader px = Raises e ->
  exists w', perform_ocr image reader w = (Raises e, w').
Proof.
  intros Himg Hrd. unfold perform_ocr, np_array.
  rewrite run_bind, run_bind, (run_load _ _ _ Himg). unfold alloc at 1.
  set (img_array := fresh (dom (heap w))).
  set (w1 := mkWorld (<[img_array:=NdArray px]> (heap w)) (ui w)).
  assert (Harr : heap w1 !! img_array = Some (NdArray px))
    by apply lookup_insert_eq.
  unfold readtext. rewrite run_bind, run_bind, (run_load _ _ _ Harr).
  rewrite run_bind. unfold emit, lift. rewrite Hrd. by eexists.
Qed.

End OcrFacts.

Section RasterFacts.
Context `{Externals}.

Lemma alloc_images_run (pxs : list Pixels) (w : World) :
  exists (images : list loc) (w' : World),
    alloc_images pxs w = (Returns images, w')
    /\ extends w w'
    /\ ui w' = ui w
    /\ Forall2 (fun l px => heap w' !! l = Some (PILImage px)) images pxs.
Proof.
  revert w. induction pxs as [|px rest IH]; intros w.
  - exists [], w.
    split; [done|]. split; [apply extends_refl|]. split; [done|constructor].
  - cbn [alloc_images]. rewrite run_bind. unfold alloc at 1.
    set (l := fresh (dom (heap w))).
    set (w1 := mkWorld (<[l:=PILImage px]> (heap w)) (ui w)).
    destruct (IH w1) as (ls & w' & Hrun & Hext & Hui & Hall).
    rewrite run_bind, Hrun. exists (l :: ls), w'.
    split; [done|]. split; [|split; [exact Hui|]].
    + eapply extends_trans; [apply extends_alloc | exact Hext].
    + constructor; [|exact Hall]. apply Hext, lookup_insert_eq.
Qed.

Lemma convert_from_bytes_returns (pdf_file : PdfFile) (n : nat)
    (pxs : list Pixels) (w : World) :
  pdf_convert pdf_file n = Returns pxs ->
  exists (images : list loc) (w' : World),
    convert_from_bytes pdf_file n w = (Returns images, w')
    /\ extends w w'
    /\ ui w' = ui w ++ [ConvertFromBytes n n 200]
    /\ Forall2 (fun l px => heap w' !! l = Some (PILImage px)) images pxs.
Proof.
  intros Hc. unfold convert_from_bytes, emit, lift.
  rewrite run_bind, run_bind, Hc.
  destruct (alloc_images_run pxs
              (mkWorld (heap w) (ui w ++ [ConvertFromBytes n n 200])))
    as (ls & w' & Hrun & Hext & Hui & Hall).
  exists ls, w'. rewrite Hrun.
  split; [done|]. split; [|by split].
  intros l o Hl. by apply Hext.
Qed.

Lemma convert_from_bytes_raises (pdf_file : PdfFile) (n : nat) (e : exn)
    (w : World) :
  pdf_convert pdf_file n = Raises e ->
  convert_from_bytes pdf_file n w
  = (Raises e, mkWorld (heap w) (ui w ++ [ConvertFromBytes n n 200])).
Proof.
  intros Hc. unfold convert_from_bytes, emit, lift.
  by rewrite run_bind, run_bind, Hc.
Qed.

End RasterFacts.

(** * Classification of one page *)

Section ClassifyFacts.
Context `{Externals}.
Implicit Types (pdf_file : PdfFile) (reader : Reader) (w : World).

Lemma classify_editable pdf_file reader (t : str) (results : Results)
    (page_info : PageInfo) w :
  50 <= length (strip t) ->
  classify pdf_file reader t results page_info w
  = (Returns (incr_editable_pages results,
              set_text t (set_type (lit "Editable") page_info)), w).
Proof.
  intros Hlen. unfold classify.
  by rewrite (proj2 (Nat.ltb_ge _ _) Hlen).
Qed.

Lemma classify_raster_raises pdf_file reader (t : str) (results : Results)
    (page_info : PageInfo) (e : exn) w :
  length (strip t) < 50 ->
  pdf_convert pdf_file (page_num page_info) = Raises e ->
  classify pdf_file reader t results page_info w
  = (Raises e,
     mkWorld (heap w)
       (ui w ++ [ConvertFromBytes (page_num page_info) (page_num page_info) 200])).
Proof.
  intros Hlen Hc. unfold classify.
  rewrite (proj2 (Nat.ltb_lt _ _) Hlen).
  by rewrite run_bind, (convert_from_bytes_raises _ _ _ _ Hc).
Qed.

Lemma classify_raster_empty pdf_file reader (t : str) (results : Results)
    (page_info : PageInfo) w :
  length (strip t) < 50 ->
  pdf_convert pdf_file (page_num page_info) = Returns [] ->
  classify pdf_file reader t results page_info w
  = (Returns (results, page_info),
     mkWorld (heap w)
       (ui w ++ [ConvertFromBytes (page_num page_info) (page_num page_info) 200])).
Proof.
  intros Hlen Hc. unfold classify.
  rewrite (proj2 (Nat.ltb_lt _ _) Hlen).
  unfold convert_from_bytes, emit, lift.
  by rewrite !run_bind, Hc.
Qed.

Lemma classify_ocr_raises pdf_file reader (t : str) (results : Results)
    (page_info : PageInfo) (px : Pixels) (rest : list Pixels) (e : exn) w :
  length (strip t) < 50 ->
  pdf_convert pdf_file (page_num page_info) = Returns (px :: rest) ->
  reader px = Raises e ->
  exists w', classify pdf_file reader t results page_info w = (Raises e, w').
Proof.
  intros Hlen Hc Hrd. unfold classify.
  rewrite (proj2 (Nat.ltb_lt _ _) Hlen).
  destruct (convert_from_bytes_returns _ _ _ w Hc)
    as (images & w1 & Hrun & _ & _ & Hall).
  rewrite run_bind, Hrun.
  inversion Hall as [|page_image ? ls ? Himg _]; subst.
  destruct (perform_ocr_raises _ _ _ _ _ Himg Hrd) as [w2 Hocr].
  rewrite run_bind, Hocr. by eexists.
Qed.

Lemma classify_ocr_returns pdf_file reader (t : str) (results : Results)
    (page_info : PageInfo) (px px' : Pixels) (rest : list Pixels)
    (dets : list Detection) w :
  length (strip t) < 50 ->
  pdf_convert pdf_file (page_num page_info) = Returns (px :: rest) ->
  reader px = Returns dets ->
  outlined px (det_bbox <$> dets) = Returns px' ->
  exists (preview img_array : loc) w',
    classify pdf_file reader t results page_info w
    = (Returns
         (if 0 <? length (strip t)
          then (incr_hybrid_pages results,
                mkPageInfo (page_num page_info) (lit "Hybrid")
                  (format_pct (avg_confidence dets))
                  (t ++ nl ++ ocr_text dets) (word_count page_info)
                  (Some preview))
          else (incr_scanned_pages results,
                mkPageInfo (page_num page_info) (lit "Scanned")
                  (format_pct (avg_confidence dets))
                  (ocr_text dets) (word_count page_info) (Some preview))),
       w')
    /\ extends w w'
    /\ ui w' = ui w ++ [ConvertFromBytes (page_num page_info)
                          (page_num page_info) 200; Readtext img_array]
    /\ heap w' !! preview = Some (PILImage px').
Proof.
  intros Hlen Hc Hrd Hout. unfold classify.
  rewrite (proj2 (Nat.ltb_lt _ _) Hlen).
  destruct (convert_from_bytes_returns _ _ _ w Hc)
    as (images & w1 & Hrun & Hext1 & Hui1 & Hall).
  rewrite run_bind, Hrun.
  inversion Hall as [|page_image ? ls ? Himg _]; subst.
  rewrite run_bind, (perform_ocr_run _ _ _ _ _ Himg Hrd).
  set (img_array := fresh (dom (heap w1))).
  set (w2 := mkWorld (<[img_array:=NdArray px]> (heap w1))
                     (ui w1 ++ [Readtext img_array])).
  assert (Hext2 : extends w1 w2).
  { intros l o Hl. cbn [w2 heap]. rewrite lookup_insert_ne; [done|].
    by eapply fresh_loc_ne. }
  pose proof (draw_bboxes_on_image_run page_image (det_bbox <$> dets) px w2
                (Hext2 _ _ Himg)) as Hd.
  rewrite Hout in Hd.
  destruct Hd as (preview & w3 & Hdraw & _ & Hprev & Hext3 & Hui3).
  exists preview, img_array, w3.
  split.
  - destruct (0 <? length (strip t)); by rewrite run_bind, Hdraw.
  - split; [|split; [|exact Hprev]].
    + eapply extends_trans; [exact Hext1|].
      eapply extends_trans; [exact Hext2 | exact Hext3].
    + rewrite Hui3. cbn [w2 ui]. rewrite Hui1. by rewrite <- app_assoc.
Qed.

(** The page image was read, and the annotation of the preview raises. *)
Lemma classify_annotation_raises pdf_file reader (t : str) (results : Results)
    (page_info : PageInfo) (px : Pixels) (rest : list Pixels)
    (dets : list Detection) (e : exn) w :
  length (strip t) < 50 ->
  pdf_convert pdf_file (page_num page_info) = Returns (px :: rest) ->
  reader px = Returns dets ->
  outlined px (det_bbox <$> dets) = Raises e ->
  exists (img_array : loc) w',
    classify pdf_file reader t results page_info w = (Raises e, w')
    /\ extends w w'
    /\ ui w' = ui w ++ [ConvertFromBytes (page_num page_info)
                          (page_num page_info) 200; Readtext img_array].
Proof.
  intros Hlen Hc Hrd Hout. unfold classify.
  rewrite (proj2 (Nat.ltb_lt _ _) Hlen).
  destruct (convert_from_bytes_returns _ _ _ w Hc)
    as (images & w1 & Hrun & Hext1 & Hui1 & Hall).
  rewrite run_bind, Hrun.
  inversion Hall as [|page_image ? ls ? Himg _]; subst.
  rewrite run_bind, (perform_ocr_run _ _ _ _ _ Himg Hrd).
  set (img_array := fresh (dom (heap w1))).
  set (w2 := mkWorld (<[img_array:=NdArray px]> (heap w1))
                     (ui w1 ++ [Readtext img_array])).
  assert (Hext2 : extends w1 w2).
  { intros l o Hl. cbn [w2 heap]. rewrite lookup_insert_ne; [done|].
    by eapply fresh_loc_ne. }
  pose proof (draw_bboxes_on_image_run page_image (det_bbox <$> dets) px w2
                (Hext2 _ _ Himg)) as Hd.
  rewrite Hout in Hd.
  destruct Hd as (w3 & Hdraw & Hext3 & Hui3).
  exists img_array, w3.
  split.
  - destruct (0 <? length (strip t)); by rewrite run_bind, Hdraw.
  - split.
    + eapply extends_trans; [exact Hext1|].
      eapply extends_trans; [exact Hext2 | exact Hext3].
    + rewrite Hui3. cbn [w2 ui]. rewrite Hui1. by rewrite <- app_assoc.
Qed.

End ClassifyFacts.

Section PageFacts.
Context `{Externals}.
Implicit Types (pdf_file : PdfFile) (reader : Reader) (w : World).

Lemma classify_returns_inv pdf_file reader (t : str) (results : Results)
    (n : nat) (rp : Results * PageInfo) w w' :
  classify pdf_file reader t results (mkPageInfo n [] (lit "N/A") [] 0 None) w
  = (Returns rp, w') ->
  classified pdf_file reader t results n rp.
Proof.
  intros Hrun.
  set (blank := mkPageInfo n [] (lit "N/A") [] 0 None) in *.
  destruct (Nat.le_gt_cases 50 (length (strip t))) as [Hge|Hlt].
  { rewrite (classify_editable _ _ _ _ _ _ Hge) in Hrun.
    injection Hrun as <- _. by constructor. }
  destruct (pdf_convert pdf_file n) as [[|px rest]|e] eqn:Hc.
  - rewrite (classify_raster_empty pdf_file reader t results blank w Hlt Hc)
      in Hrun.
    injection Hrun as <- _. by constructor.
  - destruct (reader px) as [dets|e] eqn:Hrd.
    + destruct (outlined px (det_bbox <$> dets)) as [px'|e] eqn:Hout.
      2:{ destruct (classify_annotation_raises pdf_file reader t results blank
                      px rest dets e w Hlt Hc Hrd Hout)
            as (img_array & w1 & Hrun' & _).
          by rewrite Hrun' in Hrun. }
      destruct (classify_ocr_returns pdf_file reader t results blank
                  px px' rest dets w Hlt Hc Hrd Hout)
        as (preview & img_array & w1 & Hrun' & _).
      rewrite Hrun' in Hrun. cbn [blank page_num word_count] in Hrun.
      destruct (Nat.ltb_spec 0 (length (strip t))) as [Hpos|Hzero];
        injection Hrun as <- _.
      * by eapply classified_hybrid.
      * eapply classified_scanned; [lia|done..].
    + destruct (classify_ocr_raises pdf_file reader t results blank
                  px rest e w Hlt Hc Hrd)
        as [w1 Hrun'].
      by rewrite Hrun' in Hrun.
  - by rewrite (classify_raster_raises pdf_file reader t results blank e w
                  Hlt Hc) in Hrun.
Qed.

(** [process_page] is [classify] between two UI updates, followed by the
    bookkeeping of [record_page]. *)
Lemma process_page_run pdf_file reader (total n : nat) (page : PdfPage)
    (results : Results) (contents : list str) w :
  process_page pdf_file reader total n page (results, contents) w
  = match classify pdf_file reader (extract_text_from_page page) results
            (mkPageInfo n [] (lit "N/A") [] 0 None)
            (mkWorld (heap w) (ui w ++ [StatusText (status_message n total)]))
    with
    | (Returns (results', page_info), w') =>
        (Returns (record_page page_info results' contents),
         mkWorld (heap w') (ui w' ++ [ProgressBar n total]))
    | (Raises e, w') => (Raises e, w')
    end.
Proof.
  unfold process_page. rewrite run_bind. unfold emit at 1.
  rewrite run_bind.
  destruct (classify _ _ _ _ _ _) as [[[results' page_info]|e] w']; done.
Qed.

Lemma process_page_returns_inv pdf_file reader (total n : nat) (page : PdfPage)
    (results : Results) (contents : list str) (st' : Results * list str) w w' :
  process_page pdf_file reader total n page (results, contents) w
  = (Returns st', w') ->
  exists results' page_info,
    classified pdf_file reader (extract_text_from_page page) results n
      (results', page_info)
    /\ st' = record_page page_info results' contents.
Proof.
  rewrite process_page_run.
  destruct (classify _ _ _ _ _ _) as [[[results' page_info]|e] w1] eqn:Hcl;
    [|done].
  intros [= <- _]. exists results', page_info. split; [|done].
  by eapply classify_returns_inv.
Qed.

End PageFacts.

(** * The annotation renderer *)

(** C9, amended (draw_bboxes_on_image, lines 82-93).  The renderer never
    changes the input image or any other object that existed, whether it
    returns or raises, and it writes nothing to the UI.  When numpy converts
    every polygon and OpenCV draws it, the renderer returns a new image
    object whose content is the input's content with each polygon drawn, in
    order, as a closed outline of colour (0, 255, 0) and thickness 2; for an
    empty sequence it returns a new image with exactly the input's content.
    When a conversion or a drawing raises, the exception is passed on and no
    image is returned. *)
Theorem draw_bboxes_on_image_pure `{Externals} (image : loc)
    (bboxes : list BBox) (px : Pixels) (w : World) :
  heap w !! image = Some (PILImage px) ->
  (forall px' : Pixels,
     outlined px bboxes = Returns px' ->
     exists (result : loc) (w' : World),
       draw_bboxes_on_image image bboxes w = (Returns result, w')
       /\ heap w !! result = None
       /\ result <> image
       /\ heap w' !! result = Some (PILImage px'))
  /\ (forall e : exn,
        outlined px bboxes = Raises e ->
        exists w' : World,
          draw_bboxes_on_image image bboxes w = (Raises e, w'))
  /\ (bboxes = [] ->
      exists (result : loc) (w' : World),
        draw_bboxes_on_image image bboxes w = (Returns result, w')
        /\ result <> image
        /\ heap w' !! result = Some (PILImage px))
  /\ (forall (o : outcome loc) (w' : World),
        draw_bboxes_on_image image bboxes w = (o, w') ->
        heap w' !! image = Some (PILImage px)
        /\ extends w w'
        /\ ui w' = ui w).
Proof.
  intros Himg.
  pose proof (draw_bboxes_on_image_run image bboxes px w Himg) as Hrun.
  split; [|split; [|split]].
  - intros px' Hout. rewrite Hout in Hrun.
    destruct Hrun as (result & w' & Hrun & Hnew & Hres & _).
    exists result, w'. split; [exact Hrun|]. split; [exact Hnew|].
    split; [congruence | exact Hres].
  - intros e Hout. rewrite Hout in Hrun.
    destruct Hrun as (w' & Hrun & _). by exists w'.
  - intros ->. cbn [outlined] in Hrun.
    destruct Hrun as (result & w' & Hrun & Hnew & Hres & _).
    exists result, w'. split; [exact Hrun|]. split; [congruence | exact Hres].
  - intros o w' Ho.
    destruct (outlined px bboxes) as [px'|e].
    + destruct Hrun as (result & w1 & Hrun & _ & _ & Hext & Hui).
      rewrite Hrun in Ho. injection Ho as <- <-.
      split; [by apply Hext|by split].
    + destruct Hrun as (w1 & Hrun & Hext & Hui).
      rewrite Hrun in Ho. injection Ho as <- <-.
      split; [by apply Hext|by split].
Qed.

Section DrawWitness.
Local Existing Instance display_list.

Lemma draw_bboxes_on_image_pure_witness :
  (forall px' : Pixels,
     outlined blank [box; box] = Returns px' ->
     exists (result : loc) (w' : World),
       draw_bboxes_on_image 1%positive [box; box] one_image_world
       = (Returns result, w')
       /\ heap one_image_world !! result = None
       /\ result <> 1%positive
       /\ heap w' !! result = Some (PILImage px'))
  /\ (forall e : exn,
        outlined blank [box; box] = Raises e ->
        exists w' : World,
          draw_bboxes_on_image 1%positive [box; box] one_image_world
          = (Raises e, w'))
  /\ ([box; box] = [] ->
      exists (result : loc) (w' : World),
        draw_bboxes_on_image 1%positive [box; box] one_image_world
        = (Returns result, w')
        /\ result <> 1%positive
        /\ heap w' !! result = Some (PILImage blank))
  /\ (forall (o : outcome loc) (w' : World),
        draw_bboxes_on_image 1%positive [box; box] one_image_world = (o, w') ->
        heap w' !! 1%positive = Some (PILImage blank)
        /\ extends one_image_world w'
        /\ ui w' = ui one_image_world).
Proof.
  apply (@draw_bboxes_on_image_pure display_list 1%positive [box; box] blank
           one_image_world).
  reflexivity.
Defined.

(** The renderer raises on a polygon that numpy refuses: no image is
    returned for this sequence of detections. *)
Lemma draw_bboxes_on_image_overflow :
  heap one_image_world !! 1%positive = Some (PILImage blank)
  /\ np_int32 wide_box
     = Raises (Exception (lit "Python integer out of bounds for int32"))
  /\ (draw_bboxes_on_image 1%positive [box; wide_box] one_image_world).1
     = Raises (Exception (lit "Python integer out of bounds for int32"))
  /\ ~ exists (result : loc) (w' : World),
         draw_bboxes_on_image 1%positive [box; wide_box] one_image_world
         = (Returns result, w').
Proof.
  split; [reflexivity|]. split; [reflexivity|].
  assert (Hrun :
    (draw_bboxes_on_image 1%positive [box; wide_box] one_image_world).1
    = Raises (Exception (lit "Python integer out of bounds for int32")))
    by (vm_compute; reflexivity).
  split; [exact Hrun|].
  intros (result & w' & Hret). by rewrite Hret in Hrun.
Qed.

End DrawWitness.

(** * The page confidence *)

Section ConfidenceFacts.
Context `{Externals}.

Lemma avg_confidence_bounds (dets : list Detection) :
  Forall (fun d => 0 <= det_conf d <= 1)%Q dets ->
  (0 <= avg_confidence dets <= 1)%Q.
Proof.
  intros Hall. destruct dets as [|d rest]; [simpl; lra|].
  unfold avg_confidence.
  rewrite <- (length_fmap det_conf (d :: rest)).
  assert (Hconf : Forall (fun c => 0 <= c <= 1)%Q (det_conf <$> d :: rest)).
  { apply (proj2 (Forall_fmap _ _ _)). exact Hall. }
  exact (mean_bounds (det_conf d) (list_fmap _ _ det_conf rest) Hconf).
Qed.

Lemma avg_confidence_error (dets : list Detection) :
  dets <> [] ->
  (Z.of_nat (length dets) <= 2 ^ 53)%Z ->
  Forall (fun d => 0 <= det_conf d <= 1)%Q dets ->
  (Qabs (avg_confidence dets - arithmetic_mean (det_conf <$> dets))
   <= inject_Z (Z.of_nat (length dets) + 1) * pow2 (-53))%Q.
Proof.
  intros Hne Hlen Hall. destruct dets as [|d rest]; [done|].
  unfold avg_confidence.
  rewrite <- (length_fmap det_conf (d :: rest)) in *.
  assert (Hconf : Forall (fun c => 0 <= c <= 1)%Q (det_conf <$> d :: rest)).
  { apply (proj2 (Forall_fmap _ _ _)). exact Hall. }
  exact (mean_error (det_conf d) (list_fmap _ _ det_conf rest) Hlen Hconf).
Qed.

Lemma avg_confidence_zero (dets : list Detection) :
  Forall (fun d => det_conf d == 0)%Q dets -> avg_confidence dets = 0%Q.
Proof.
  intros Hall. destruct dets as [|d rest]; [done|].
  unfold avg_confidence. rewrite sum_zero.
  - apply round64_zero. unfold Qdiv. lra.
  - apply (proj2 (Forall_fmap _ _ _)). exact Hall.
Qed.

End ConfidenceFacts.

(** C4, amended (perform_ocr, lines 59-80).  With every detection
    confidence in [0, 1] the call returns, so no division by zero is
    raised.  The confidence is 0.0 when there is no detection; otherwise it
    is the mean as the code computes it: the confidences are added from left
    to right, each addition rounded to a float, and the sum is divided by
    their number, the quotient rounded to a float.  For [n] detections
    ([n] at most 2^53) it differs from the exact arithmetic mean by at most
    [(n + 1) * 2^-53].  It lies in [0, 1], and it is 0.0 when every
    detection has confidence 0.0. *)
Theorem perform_ocr_confidence `{Externals} (image : loc) (reader : Reader)
    (px : Pixels) (dets : list Detection) (w : World) :
  heap w !! image = Some (PILImage px) ->
  reader px = Returns dets ->
  Forall (fun d => 0 <= det_conf d <= 1)%Q dets ->
  exists (full_text : str) (avg : Q) (bboxes : list BBox) (w' : World),
    perform_ocr image reader w = (Returns (full_text, avg, bboxes), w')
    /\ (dets <> [] ->
        avg = round64 (foldl (fun s c => round64 (s + c)) 0 (det_conf <$> dets)
                       / round64 (inject_Z (Z.of_nat (length dets))))
        /\ ~ round64 (inject_Z (Z.of_nat (length dets))) == 0)%Q
    /\ (dets <> [] -> (Z.of_nat (length dets) <= 2 ^ 53)%Z ->
        Qabs (avg - arithmetic_mean (det_conf <$> dets))
        <= inject_Z (Z.of_nat (length dets) + 1) * pow2 (-53))%Q
    /\ (dets = [] -> avg = 0%Q)
    /\ (0 <= avg <= 1)%Q
    /\ (Forall (fun d => det_conf d == 0)%Q dets -> avg = 0%Q).
Proof.
  intros Himg Hrd Hall.
  eexists _, _, _, _. split; [by apply perform_ocr_run|].
  split; [|split; [|split; [|split]]].
  - destruct dets as [|d rest]; [done|]. intros _. split; [reflexivity|].
    pose proof (float_of_int_length d rest) as Hpos.
    unfold float_of_int in Hpos. lra.
  - intros Hne Hlen. by apply avg_confidence_error.
  - by intros ->.
  - by apply avg_confidence_bounds.
  - by apply avg_confidence_zero.
Qed.

Section ConfidenceWitness.
Local Existing Instance display_list.

Lemma perform_ocr_confidence_witness :
  exists (full_text : str) (avg : Q) (bboxes : list BBox) (w' : World),
    perform_ocr 1%positive two_fragments one_image_world
    = (Returns (full_text, avg, bboxes), w')
    /\ ([(box, lit "Scan", float_0_9); (box, lit "ned", float_0_8)] <> [] ->
        avg = round64
                (foldl (fun s c => round64 (s + c)) 0
                   (det_conf <$> [(box, lit "Scan", float_0_9);
                                  (box, lit "ned", float_0_8)])
                 / round64 (inject_Z (Z.of_nat
                     (length [(box, lit "Scan", float_0_9);
                              (box, lit "ned", float_0_8)]))))
        /\ ~ round64 (inject_Z (Z.of_nat
               (length [(box, lit "Scan", float_0_9);
                        (box, lit "ned", float_0_8)]))) == 0)%Q
    /\ ([(box, lit "Scan", float_0_9); (box, lit "ned", float_0_8)] <> [] ->
        (Z.of_nat (length [(box, lit "Scan", float_0_9);
                           (box, lit "ned", float_0_8)]) <= 2 ^ 53)%Z ->
        Qabs (avg - arithmetic_mean
                      (det_conf <$> [(box, lit "Scan", float_0_9);
                                     (box, lit "ned", float_0_8)]))
        <= inject_Z (Z.of_nat (length [(box, lit "Scan", float_0_9);
                                       (box, lit "ned", float_0_8)]) + 1)
           * pow2 (-53))%Q
    /\ ([(box, lit "Scan", float_0_9); (box, lit "ned", float_0_8)] = [] ->
        avg = 0%Q)
    /\ (0 <= avg <= 1)%Q
    /\ (Forall (fun d => det_conf d == 0)%Q
          [(box, lit "Scan", float_0_9); (box, lit "ned", float_0_8)] ->
        avg = 0%Q).
Proof.
  apply (perform_ocr_confidence 1%positive two_fragments blank).
  - reflexivity.
  - reflexivity.
  - repeat constructor; unfold Qle; simpl; lia.
Defined.

(** The mean of the floats 0.9 and 0.8 is the float 0.8500000000000001. *)
Lemma mean_of_two_floats :
  exists (avg : Q) (w' : World),
    perform_ocr 1%positive two_fragments one_image_world
    = (Returns (lit "Scan ned", avg, [box; box]), w')
    /\ (avg == 1914029841632461 # 2251799813685248)%Q.
Proof. eexists _, _. split; [reflexivity|]. by vm_compute. Qed.

(** The confidence is 0.0 although the reader returned a detection. *)
Lemma zero_confidence_with_a_detection :
  Forall (fun d => 0 <= det_conf d <= 1)%Q [(box, lit "x", 0%Q)]
  /\ exists (avg : Q) (w' : World),
       perform_ocr 1%positive (reads [(box, lit "x", 0%Q)]) one_image_world
       = (Returns (lit "x", avg, [box]), w')
       /\ ~ ((avg == 0)%Q <-> [(box, lit "x", 0%Q)] = []).
Proof.
  split; [repeat constructor; unfold Qle; simpl; lia|].
  eexists _, _. split; [reflexivity|].
  intros [Hz _]. by specialize (Hz ltac:(reflexivity)).
Qed.

(** It is also 0.0 for the detections of confidence 5e-324 (the smallest
    positive float) and 0.0: the quotient by 2 is rounded to 0.0. *)
Lemma zero_confidence_by_underflow :
  exists (avg : Q) (w' : World),
    perform_ocr 1%positive
      (reads [(box, lit "a", pow2 (-1074)); (box, lit "b", 0%Q)])
      one_image_world
    = (Returns (lit "a b", avg, [box; box]), w')
    /\ (avg == 0)%Q.
Proof. eexists _, _. split; [reflexivity|]. by vm_compute. Qed.

End ConfidenceWitness.

(** * Pages *)

Lemma format_pct_not_na (q : Q) : format_pct q <> lit "N/A".
Proof.
  unfold format_pct. intros Heq. apply (f_equal last) in Heq.
  change (lit "%") with [37%N] in Heq. by rewrite last_snoc in Heq.
Qed.

Lemma strip_nil_inv (t : str) : strip t <> [] -> t <> [].
Proof. by intros Hs ->. Qed.

Section PageTheorems.
Context `{Externals}.
Implicit Types (pdf_file : PdfFile) (reader : Reader) (w : World).

Lemma record_page_pages (p : PageInfo) (r : Results) (contents : list str) :
  pages (record_page p r contents).1
  = pages r ++ [set_word_count (length (split (text p))) p].
Proof. reflexivity. Qed.

End PageTheorems.

(** C2 (process_pdf, lines 142-183).  A page whose stripped embedded text
    has 50 or more characters is recorded as Editable with the embedded text
    verbatim and the confidence ["N/A"], a string no formatted OCR
    confidence can equal (so it differs from that of 0.0); the only effects
    are the status line and the progress update, so neither the rasterizer
    nor the OCR reader is called, and no object is created. *)
Theorem editable_page `{Externals} (pdf_file : PdfFile) (reader : Reader)
    (total n : nat) (page : PdfPage) (results : Results)
    (contents : list str) (w : World) :
  50 <= length (strip (extract_text_from_page page)) ->
  exists (st' : Results * list str) (p : PageInfo),
    process_page pdf_file reader total n page (results, contents) w
    = (Returns st',
       mkWorld (heap w)
         (ui w ++ [StatusText (status_message n total); ProgressBar n total]))
    /\ pages st'.1 = pages results ++ [p]
    /\ page_num p = n
    /\ type p = lit "Editable"
    /\ text p = extract_text_from_page page
    /\ confidence p = lit "N/A"
    /\ (forall q : Q, confidence p <> format_pct q)
    /\ preview_image p = None
    /\ editable_pages st'.1 = editable_pages results + 1
    /\ scanned_pages st'.1 = scanned_pages results
    /\ hybrid_pages st'.1 = hybrid_pages results.
Proof.
  intros Hlen. rewrite process_page_run.
  rewrite (classify_editable _ _ _ _ _ _ Hlen).
  eexists _, _. split.
  { cbn [heap ui]. rewrite <- app_assoc. reflexivity. }
  rewrite record_page_pages.
  split; [reflexivity|]. repeat (split; [reflexivity|]).
  split; [|by repeat split].
  intros q Heq. by apply (format_pct_not_na q).
Qed.

(** C1, amended (process_pdf, lines 143-177; perform_ocr, lines 77-80).  A
    page whose stripped embedded text is non-empty and shorter than 50
    characters, for which the rasterizer returns at least one image, the
    reader returns detections on the first and the preview is annotated
    without an exception, is recorded as Hybrid; its text is the embedded
    text as extracted, a newline, and the detected texts joined by single
    spaces in the order the reader returned them.  When the annotation of
    the preview raises, no page is recorded: the exception leaves the loop
    body. *)
Theorem hybrid_page `{Externals} (pdf_file : PdfFile) (reader : Reader)
    (total n : nat) (page : PdfPage) (results : Results)
    (contents : list str) (px : Pixels) (rest : list Pixels)
    (dets : list Detection) (w : World) :
  0 < length (strip (extract_text_from_page page)) < 50 ->
  pdf_convert pdf_file n = Returns (px :: rest) ->
  reader px = Returns dets ->
  (forall px' : Pixels,
     outlined px (det_bbox <$> dets) = Returns px' ->
     exists (st' : Results * list str) (w' : World) (p : PageInfo),
       process_page pdf_file reader total n page (results, contents) w
       = (Returns st', w')
       /\ pages st'.1 = pages results ++ [p]
       /\ type p = lit "Hybrid"
       /\ text p
          = extract_text_from_page page ++ nl
            ++ join (lit " ") (det_text <$> dets)
       /\ hybrid_pages st'.1 = hybrid_pages results + 1)
  /\ (forall e : exn,
        outlined px (det_bbox <$> dets) = Raises e ->
        exists w' : World,
          process_page pdf_file reader total n page (results, contents) w
          = (Raises e, w')).
Proof.
  intros [Hpos Hlt] Hc Hrd. rewrite process_page_run. split.
  - intros px' Hout.
    destruct (classify_ocr_returns pdf_file reader (extract_text_from_page page)
                results (mkPageInfo n [] (lit "N/A") [] 0 None) px px' rest dets
                (mkWorld (heap w) (ui w ++ [StatusText (status_message n total)]))
                Hlt Hc Hrd Hout)
      as (preview & img_array & w1 & Hrun & _).
    rewrite Hrun. rewrite (proj2 (Nat.ltb_lt _ _) Hpos).
    eexists _, _, _. split; [reflexivity|].
    rewrite record_page_pages. by repeat split.
  - intros e Hout.
    destruct (classify_annotation_raises pdf_file reader
                (extract_text_from_page page) results
                (mkPageInfo n [] (lit "N/A") [] 0 None) px rest dets e
                (mkWorld (heap w) (ui w ++ [StatusText (status_message n total)]))
                Hlt Hc Hrd Hout)
      as (img_array & w1 & Hrun & _).
    rewrite Hrun. by exists w1.
Qed.

(** C3, amended (process_pdf, lines 163-172).  A page recorded as Scanned
    has embedded text that is empty once stripped, and its text is the OCR
    text; a page recorded as Hybrid has embedded text that is non-empty even
    when stripped, and its text is the embedded text, a newline, and the
    OCR text (which is empty when the reader found nothing).  In both cases
    the OCR text comes from the reader's answer on the first raster image
    of the page. *)
Theorem scanned_and_hybrid_pages `{Externals} (pdf_file : PdfFile)
    (reader : Reader) (total n : nat) (page : PdfPage) (results : Results)
    (contents : list str) (st' : Results * list str) (w w' : World) :
  process_page pdf_file reader total n page (results, contents) w
  = (Returns st', w') ->
  exists p : PageInfo,
    pages st'.1 = pages results ++ [p]
    /\ (type p = lit "Scanned" ->
        strip (extract_text_from_page page) = []
        /\ exists px rest dets,
             pdf_convert pdf_file n = Returns (px :: rest)
             /\ reader px = Returns dets
             /\ text p = join (lit " ") (det_text <$> dets))
    /\ (type p = lit "Hybrid" ->
        strip (extract_text_from_page page) <> []
        /\ extract_text_from_page page <> []
        /\ exists px rest dets,
             pdf_convert pdf_file n = Returns (px :: rest)
             /\ reader px = Returns dets
             /\ text p
                = extract_text_from_page page ++ nl
                  ++ join (lit " ") (det_text <$> dets)).
Proof.
  intros Hrun.
  destruct (process_page_returns_inv _ _ _ _ _ _ _ _ _ _ Hrun)
    as (results' & page_info & Hcl & ->).
  inversion Hcl as [Hge|Hlt Hc|px rest dets preview Hlen Hc Hrd
                    |px rest dets preview Hlen Hc Hrd]; subst;
    (eexists; split; [reflexivity|]);
    cbn [set_word_count type text]; (split; [intros Hty|intros Hty]);
    try discriminate Hty.
  - assert (Hne : strip (extract_text_from_page page) <> []).
    { intros Hnil. rewrite Hnil in Hlen. simpl in Hlen. lia. }
    split; [exact Hne|]. split; [by apply strip_nil_inv|].
    by exists px, rest, dets.
  - split; [by apply length_zero_iff_nil|].
    by exists px, rest, dets.
Qed.

Section PageWitnesses.
Local Existing Instance display_list.

Lemma editable_page_witness :
  exists (st' : Results * list str) (p : PageInfo),
    process_page (rendered_doc sample_text) (reads []) 1 1
      (text_page sample_text) (one_page_results, []) empty_world
    = (Returns st',
       mkWorld (heap empty_world)
         (ui empty_world ++ [StatusText (status_message 1 1); ProgressBar 1 1]))
    /\ pages st'.1 = pages one_page_results ++ [p]
    /\ page_num p = 1
    /\ type p = lit "Editable"
    /\ text p = extract_text_from_page (text_page sample_text)
    /\ confidence p = lit "N/A"
    /\ (forall q : Q, confidence p <> format_pct q)
    /\ preview_image p = None
    /\ editable_pages st'.1 = editable_pages one_page_results + 1
    /\ scanned_pages st'.1 = scanned_pages one_page_results
    /\ hybrid_pages st'.1 = hybrid_pages one_page_results.
Proof.
  apply (editable_page (rendered_doc sample_text) (reads []) 1 1
           (text_page sample_text) one_page_results [] empty_world).
  vm_compute. lia.
Defined.

Lemma hybrid_page_witness :
  (forall px' : Pixels,
     outlined blank
       (det_bbox <$> [(box, lit "Scan", float_0_9); (box, lit "ned", float_0_8)])
     = Returns px' ->
     exists (st' : Results * list str) (w' : World) (p : PageInfo),
       process_page (rendered_doc (lit "Header")) two_fragments
         1 1 (text_page (lit "Header")) (one_page_results, []) empty_world
       = (Returns st', w')
       /\ pages st'.1 = pages one_page_results ++ [p]
       /\ type p = lit "Hybrid"
       /\ text p
          = extract_text_from_page (text_page (lit "Header")) ++ nl
            ++ join (lit " ")
                 (det_text <$> [(box, lit "Scan", float_0_9);
                                (box, lit "ned", float_0_8)])
       /\ hybrid_pages st'.1 = hybrid_pages one_page_results + 1)
  /\ (forall e : exn,
        outlined blank
          (det_bbox <$> [(box, lit "Scan", float_0_9);
                         (box, lit "ned", float_0_8)])
        = Raises e ->
        exists w' : World,
          process_page (rendered_doc (lit "Header")) two_fragments
            1 1 (text_page (lit "Header")) (one_page_results, []) empty_world
          = (Raises e, w')).
Proof.
  apply (hybrid_page (rendered_doc (lit "Header")) two_fragments 1 1
           (text_page (lit "Header")) one_page_results [] blank []
           [(box, lit "Scan", float_0_9); (box, lit "ned", float_0_8)]
           empty_world).
  - vm_compute. lia.
  - reflexivity.
  - reflexivity.
Defined.

(** The text recorded for that page: the detected texts follow the embedded
    text in the reader's order, with one space between them. *)
Lemma hybrid_page_text :
  exists (st' : Results * list str) (w' : World),
    process_page (rendered_doc (lit "Header")) two_fragments 1 1
      (text_page (lit "Header")) (one_page_results, []) empty_world
    = (Returns st', w')
    /\ text <$> pages st'.1 = [lit "Header" ++ nl ++ lit "Scan ned"].
Proof. eexists _, _. split; [vm_compute; reflexivity|reflexivity]. Qed.

(** A page whose embedded text is one space: the raw text is non-empty, its
    stripped length is below 50, the rasterizer and the reader both return,
    and the page is recorded as Scanned, not Hybrid. *)
Lemma whitespace_page_not_hybrid :
  extract_text_from_page (text_page (lit " ")) <> []
  /\ length (strip (extract_text_from_page (text_page (lit " ")))) < 50
  /\ pdf_convert (rendered_doc (lit " ")) 1 = Returns [blank]
  /\ reads [(box, lit "Body", 1%Q)] blank = Returns [(box, lit "Body", 1%Q)]
  /\ exists (st' : Results * list str) (w' : World),
       process_page (rendered_doc (lit " ")) (reads [(box, lit "Body", 1%Q)])
         1 1 (text_page (lit " ")) (one_page_results, []) empty_world
       = (Returns st', w')
       /\ type <$> pages st'.1 = [lit "Scanned"]
       /\ text <$> pages st'.1 = [lit "Body"]
       /\ ~ (type <$> pages st'.1 = [lit "Hybrid"]
             /\ text <$> pages st'.1 = [lit " " ++ nl ++ lit "Body"]).
Proof.
  split; [done|]. split; [vm_compute; lia|]. split; [done|]. split; [done|].
  eexists _, _. split; [vm_compute; reflexivity|]. split; [reflexivity|].
  split; [reflexivity|]. by intros [? _].
Qed.

Lemma scanned_and_hybrid_pages_witness :
  exists (st' : Results * list str) (w' : World),
    process_page (rendered_doc []) (reads [(box, lit "Scan", 9 # 10)]) 1 1
      (text_page []) (one_page_results, []) empty_world
    = (Returns st', w')
    /\ exists p : PageInfo,
         pages st'.1 = pages one_page_results ++ [p]
         /\ (type p = lit "Scanned" ->
             strip (extract_text_from_page (text_page [])) = []
             /\ exists px rest dets,
                  pdf_convert (rendered_doc []) 1 = Returns (px :: rest)
                  /\ reads [(box, lit "Scan", 9 # 10)] px = Returns dets
                  /\ text p = join (lit " ") (det_text <$> dets))
         /\ (type p = lit "Hybrid" ->
             strip (extract_text_from_page (text_page [])) <> []
             /\ extract_text_from_page (text_page []) <> []
             /\ exists px rest dets,
                  pdf_convert (rendered_doc []) 1 = Returns (px :: rest)
                  /\ reads [(box, lit "Scan", 9 # 10)] px = Returns dets
                  /\ text p
                     = extract_text_from_page (text_page []) ++ nl
                       ++ join (lit " ") (det_text <$> dets)).
Proof.
  eexists _, _. split; [vm_compute; reflexivity|].
  eapply (scanned_and_hybrid_pages (rendered_doc [])
            (reads [(box, lit "Scan", 9 # 10)]) 1 1 (text_page [])
            one_page_results [] _ empty_world).
  vm_compute. reflexivity.
Defined.

(** A page whose embedded text, as the extractor returns it, is a tab and a
    newline: it is recorded as Scanned although that text is not the empty
    string. *)
Lemma scanned_page_with_embedded_text :
  exists (st' : Results * list str) (w' : World),
    process_page (rendered_doc (tab ++ nl)) (reads [(box, lit "Scan", 9 # 10)])
      1 1 (text_page (tab ++ nl)) (one_page_results, []) empty_world
    = (Returns st', w')
    /\ type <$> pages st'.1 = [lit "Scanned"]
    /\ extract_text_from_page (text_page (tab ++ nl)) = tab ++ nl
    /\ extract_text_from_page (text_page (tab ++ nl)) <> [].
Proof.
  eexists _, _. split; [vm_compute; reflexivity|]. by repeat split.
Qed.

End PageWitnesses.

(** * The whole run *)

Lemma count_words_and_chars_eq (text : str) :
  count_words_and_chars text
  = (whitespace_delimited_tokens text, length text,
     length (without_spaces text)).
Proof.
  unfold count_words_and_chars, without_spaces, split.
  rewrite !replace_delete, filter_filter_and.
  by rewrite (split_from_length [] text).
Qed.

Lemma pages_of_type_snoc (ty : str) (ps : list PageInfo) (p : PageInfo) :
  pages_of_type ty (ps ++ [p])
  = pages_of_type ty ps + (if decide (type p = ty) then 1 else 0).
Proof.
  unfold pages_of_type. rewrite filter_app, length_app.
  rewrite filter_cons, filter_nil. by case_decide.
Qed.

Section RunFacts.
Context `{Externals}.
Implicit Types (pdf_file : PdfFile) (reader : Reader) (w : World).

Lemma process_pdf_run pdf_file reader w :
  process_pdf pdf_file reader w
  = match pdf_open pdf_file with
    | Raises e => handled e w
    | Returns pdf_pages =>
        match process_pages pdf_file reader (length pdf_pages) 1 pdf_pages
                (set_total_pages (length pdf_pages)
                   (mkResults [] 0 0 0 0 0 0 0 None), []) w
        with
        | (Returns (results, all_text_content), w') =>
            (Returns (Some (set_extracted_text
                              (header results ++ concat all_text_content)
                              results)), w')
        | (Raises e, w') => handled e w'
        end
    end.
Proof.
  unfold process_pdf, try_except, handled. rewrite run_bind. unfold lift.
  destruct (pdf_open pdf_file) as [pdf_pages|e]; [|by destruct e].
  rewrite run_bind.
  destruct (process_pages _ _ _ _ _ _ _) as [[[results contents]|e] w'];
    [done|by destruct e].
Qed.

(** One page keeps the totals in agreement and appends its record and its
    block. *)
Lemma record_page_agree pdf_file reader (t : str) (results results' : Results)
    (n : nat) (page_info : PageInfo) (contents : list str) :
  totals_agree results ->
  classified pdf_file reader t results n (results', page_info) ->
  let st' := record_page page_info results' contents in
  totals_agree st'.1
  /\ page_num <$> pages st'.1 = (page_num <$> pages results) ++ [n]
  /\ total_pages st'.1 = total_pages results
  /\ extracted_text st'.1 = extracted_text results
  /\ exists p, pages st'.1 = pages results ++ [p]
               /\ st'.2 = contents ++ [page_block p].
Proof.
  intros [Hw Hc Hwo He Hs Hh Hwc] Hcl. unfold record_page.
  rewrite count_words_and_chars_eq. cbn zeta.
  inversion Hcl; subst;
    unfold add_page, set_word_count, incr_editable_pages, incr_scanned_pages,
      incr_hybrid_pages;
    cbn [fst snd pages text type total_words total_chars_with_spaces
      total_chars_without_spaces total_pages editable_pages scanned_pages
      hybrid_pages extracted_text word_count page_num confidence
      preview_image];
    (split; [|split; [by rewrite fmap_app|split; [done|split; [done|by eexists]]]]);
    (constructor;
     cbn [fst snd pages text type total_words total_chars_with_spaces
       total_chars_without_spaces total_pages editable_pages scanned_pages
       hybrid_pages extracted_text word_count page_num confidence
       preview_image];
     rewrite ?sum_list_with_app, ?pages_of_type_snoc;
     cbn [sum_list_with type word_count text];
     rewrite ?Forall_app, ?Forall_singleton;
     repeat case_decide; try discriminate; try done; try lia).
Qed.

Lemma process_pages_agree pdf_file reader (total : nat)
    (pdf_pages : list PdfPage) (n : nat) (st st' : Results * list str) w w' :
  totals_agree st.1 ->
  process_pages pdf_file reader total n pdf_pages st w = (Returns st', w') ->
  totals_agree st'.1
  /\ page_num <$> pages st'.1
     = (page_num <$> pages st.1) ++ seq n (length pdf_pages)
  /\ total_pages st'.1 = total_pages st.1
  /\ extracted_text st'.1 = extracted_text st.1
  /\ exists ps, pages st'.1 = pages st.1 ++ ps
                /\ st'.2 = st.2 ++ (page_block <$> ps).
Proof.
  revert n st w. induction pdf_pages as [|page rest IH]; intros n st w Hag Hrun.
  - injection Hrun as <- _. split; [done|]. cbn [length seq].
    rewrite app_nil_r. repeat split. exists []. by rewrite !app_nil_r.
  - cbn [process_pages] in Hrun. rewrite run_bind in Hrun.
    destruct (process_page _ _ _ _ _ _ _) as [[st1|e] w1] eqn:Hpage; [|done].
    destruct st as [results contents].
    destruct (process_page_returns_inv _ _ _ _ _ _ _ _ _ _ Hpage)
      as (results' & page_info & Hcl & ->).
    destruct (record_page_agree _ _ _ _ _ _ _ contents Hag Hcl)
      as (Hag1 & Hnum1 & Htot1 & Hext1 & p & Hp & Hblock).
    destruct (IH _ _ _ Hag1 Hrun) as (Hag' & Hnum' & Htot' & Hext' & ps & Hps & Hbl').
    split; [exact Hag'|]. split; [|split; [congruence|split; [congruence|]]].
    + rewrite Hnum', Hnum1. cbn [length seq fst]. by rewrite <- app_assoc.
    + exists (p :: ps). rewrite Hps, Hbl', Hp, Hblock. cbn [fst snd fmap list_fmap].
      by rewrite <- !app_assoc.
Qed.

Lemma process_pdf_returns_inv pdf_file reader (r : Results) w w' :
  process_pdf pdf_file reader w = (Returns (Some r), w') ->
  exists (pdf_pages : list PdfPage) (results : Results) (contents : list str),
    pdf_open pdf_file = Returns pdf_pages
    /\ process_pages pdf_file reader (length pdf_pages) 1 pdf_pages
         (set_total_pages (length pdf_pages)
            (mkResults [] 0 0 0 0 0 0 0 None), []) w
       = (Returns (results, contents), w')
    /\ r = set_extracted_text (header results ++ concat contents) results.
Proof.
  rewrite process_pdf_run. unfold handled.
  destruct (pdf_open pdf_file) as [pdf_pages|e]; [|by destruct e].
  destruct (process_pages _ _ _ _ _ _ _) as [[[results contents]|e] w1] eqn:Hrun;
    [|by destruct e].
  remember (header results ++ concat contents) as txt eqn:Htxt.
  intros [= <- <-]. exists pdf_pages, results, contents.
  split; [done|]. split; [done|]. by rewrite Htxt.
Qed.

End RunFacts.

Lemma totals_agree_initial (total : nat) :
  totals_agree (set_total_pages total (mkResults [] 0 0 0 0 0 0 0 None)).
Proof. by constructor. Qed.

(** C5 (process_pdf, lines 186-193).  In the results of a successful run
    the pages are those of the document, in order and once each; the total
    word count is the sum of the pages' word counts, each the number of
    tokens of the page's text; the total with spaces is the sum of the
    lengths of the pages' texts; the total without spaces is the sum of
    those lengths once spaces and newlines are removed; and each of the
    three page-type counters is the number of pages of that type. *)
Theorem totals_are_sums `{Externals} (pdf_file : PdfFile) (reader : Reader)
    (r : Results) (w w' : World) :
  process_pdf pdf_file reader w = (Returns (Some r), w') ->
  (exists pdf_pages : list PdfPage,
     pdf_open pdf_file = Returns pdf_pages
     /\ total_pages r = length pdf_pages
     /\ length (pages r) = length pdf_pages)
  /\ page_num <$> pages r = seq 1 (total_pages r)
  /\ total_words r = sum_list_with word_count (pages r)
  /\ Forall (fun p => word_count p = whitespace_delimited_tokens (text p))
            (pages r)
  /\ total_chars_with_spaces r
     = sum_list_with (fun p => length (text p)) (pages r)
  /\ total_chars_without_spaces r
     = sum_list_with (fun p => length (without_spaces (text p))) (pages r)
  /\ editable_pages r = pages_of_type (lit "Editable") (pages r)
  /\ scanned_pages r = pages_of_type (lit "Scanned") (pages r)
  /\ hybrid_pages r = pages_of_type (lit "Hybrid") (pages r).
Proof.
  intros Hrun.
  destruct (process_pdf_returns_inv _ _ _ _ _ Hrun)
    as (pdf_pages & results & contents & Hopen & Hpages & ->).
  destruct (process_pages_agree pdf_file reader (length pdf_pages) pdf_pages 1
              (set_total_pages (length pdf_pages)
                 (mkResults [] 0 0 0 0 0 0 0 None), [])
              (results, contents) w w'
              (totals_agree_initial (length pdf_pages)) Hpages)
    as ([Hw Hc Hwo He Hs Hh Hwc] & Hnum & Htot & _ & _).
  cbn [fst pages set_total_pages total_pages fmap list_fmap app] in Hnum, Htot.
  assert (Hlen : length (pages results) = length pdf_pages).
  { apply (f_equal length) in Hnum. by rewrite length_fmap, length_seq in Hnum. }
  generalize (header results ++ concat contents). intros txt.
  unfold set_extracted_text.
  cbn [pages total_words total_chars_with_spaces total_chars_without_spaces
       total_pages editable_pages scanned_pages hybrid_pages].
  split; [by exists pdf_pages|]. split; [by rewrite Htot|]. done.
Qed.

Section RunWitnesses.
Local Existing Instance display_list.

Lemma totals_are_sums_witness :
  let r := results_of (process_pdf three_page_doc two_fragments empty_world) in
  (exists pdf_pages : list PdfPage,
     pdf_open three_page_doc = Returns pdf_pages
     /\ total_pages r = length pdf_pages
     /\ length (pages r) = length pdf_pages)
  /\ page_num <$> pages r = seq 1 (total_pages r)
  /\ total_words r = sum_list_with word_count (pages r)
  /\ Forall (fun p => word_count p = whitespace_delimited_tokens (text p))
            (pages r)
  /\ total_chars_with_spaces r
     = sum_list_with (fun p => length (text p)) (pages r)
  /\ total_chars_without_spaces r
     = sum_list_with (fun p => length (without_spaces (text p))) (pages r)
  /\ editable_pages r = pages_of_type (lit "Editable") (pages r)
  /\ scanned_pages r = pages_of_type (lit "Scanned") (pages r)
  /\ hybrid_pages r = pages_of_type (lit "Hybrid") (pages r).
Proof.
  apply (totals_are_sums three_page_doc two_fragments
           (results_of (process_pdf three_page_doc two_fragments empty_world))
           empty_world
           (process_pdf three_page_doc two_fragments empty_world).2).
  vm_compute. reflexivity.
Defined.

End RunWitnesses.

(** * Failures *)

Section FailureFacts.
Context `{Externals}.
Implicit Types (pdf_file : PdfFile) (reader : Reader) (w : World).

Lemma raster_or_ocr_fails_failure pdf_file reader (n : nat) :
  raster_or_ocr_fails pdf_file reader n ->
  exists e, ocr_failure pdf_file reader n = Some e.
Proof.
  unfold ocr_failure.
  intros [[e Hc]|(px & rest & e & Hc & Hrd)]; rewrite Hc; [by exists e|].
  rewrite Hrd. by exists e.
Qed.

(** The loop body returns or raises as [page_failure] tells. *)
Lemma process_page_outcome pdf_file reader (total n : nat) (page : PdfPage)
    (st : Results * list str) w :
  match page_failure pdf_file reader n page with
  | None =>
      exists st' w',
        process_page pdf_file reader total n page st w = (Returns st', w')
  | Some e =>
      exists w', process_page pdf_file reader total n page st w = (Raises e, w')
  end.
Proof.
  destruct st as [results contents]. unfold page_failure, ocr_failure.
  rewrite process_page_run.
  set (blank_info := mkPageInfo n [] (lit "N/A") [] 0 None).
  set (w0 := mkWorld (heap w) (ui w ++ [StatusText (status_message n total)])).
  destruct (Nat.ltb_spec (length (strip (extract_text_from_page page))) 50)
    as [Hlt|Hge].
  2:{ rewrite (classify_editable _ _ _ _ _ _ Hge). by eexists _, _. }
  destruct (pdf_convert pdf_file n) as [[|px rest]|e] eqn:Hc.
  - rewrite (classify_raster_empty pdf_file reader _ results blank_info w0
               Hlt Hc).
    by eexists _, _.
  - destruct (reader px) as [dets|e] eqn:Hrd.
    + destruct (outlined px (det_bbox <$> dets)) as [px'|e] eqn:Hout.
      * destruct (classify_ocr_returns pdf_file reader _ results blank_info
                    px px' rest dets w0 Hlt Hc Hrd Hout)
          as (preview & img_array & w1 & -> & _).
        destruct (0 <? _); by eexists _, _.
      * destruct (classify_annotation_raises pdf_file reader _ results
                    blank_info px rest dets e w0 Hlt Hc Hrd Hout)
          as (img_array & w1 & -> & _).
        by eexists.
    + destruct (classify_ocr_raises pdf_file reader _ results blank_info px rest
                  e w0 Hlt Hc Hrd) as [w1 ->].
      by eexists.
  - rewrite (classify_raster_raises pdf_file reader _ results blank_info e w0
               Hlt Hc).
    by eexists.
Qed.

Lemma process_pages_outcome pdf_file reader (total : nat)
    (pdf_pages : list PdfPage) (n : nat) (st : Results * list str) w :
  match first_failure pdf_file reader n pdf_pages with
  | None =>
      exists st' w',
        process_pages pdf_file reader total n pdf_pages st w = (Returns st', w')
  | Some e =>
      exists w',
        process_pages pdf_file reader total n pdf_pages st w = (Raises e, w')
  end.
Proof.
  revert n st w. induction pdf_pages as [|page rest IH]; intros n st w.
  { by eexists _, _. }
  cbn [process_pages first_failure]. rewrite run_bind.
  pose proof (process_page_outcome pdf_file reader total n page st w) as Hpage.
  destruct (page_failure pdf_file reader n page) as [e|].
  - destruct Hpage as (w1 & ->). by eexists.
  - destruct Hpage as (st1 & w1 & ->). apply IH.
Qed.

(** The first failure is that of a page all of whose predecessors have
    none. *)
Lemma first_failure_Some pdf_file reader (pdf_pages : list PdfPage) (n : nat)
    (e : exn) :
  first_failure pdf_file reader n pdf_pages = Some e ->
  exists i page,
    pdf_pages !! i = Some page
    /\ page_failure pdf_file reader (n + i) page = Some e
    /\ forall j earlier,
         j < i -> pdf_pages !! j = Some earlier ->
         page_failure pdf_file reader (n + j) earlier = None.
Proof.
  revert n. induction pdf_pages as [|page rest IH]; intros n Hfirst; [done|].
  cbn [first_failure] in Hfirst.
  destruct (page_failure pdf_file reader n page) as [e0|] eqn:Hpage.
  - injection Hfirst as ->. exists 0, page. rewrite Nat.add_0_r.
    split; [done|]. split; [done|]. intros j earlier Hj. lia.
  - destruct (IH _ Hfirst) as (i & bad & Hi & Hbad & Hbefore).
    exists (S i), bad. rewrite <- Nat.add_succ_comm.
    split; [exact Hi|]. split; [exact Hbad|].
    intros [|j] earlier Hj Hlook.
    + injection Hlook as <-. by rewrite Nat.add_0_r.
    + rewrite <- Nat.add_succ_comm. apply (Hbefore j earlier); [lia|done].
Qed.

Lemma first_failure_None pdf_file reader (pdf_pages : list PdfPage) (n : nat) :
  (forall i page,
     pdf_pages !! i = Some page ->
     page_failure pdf_file reader (n + i) page = None) ->
  first_failure pdf_file reader n pdf_pages = None.
Proof.
  revert n. induction pdf_pages as [|page rest IH]; intros n Hok; [done|].
  cbn [first_failure].
  pose proof (Hok 0 page eq_refl) as Hpage. rewrite Nat.add_0_r in Hpage.
  rewrite Hpage. apply IH. intros i p Hi.
  rewrite Nat.add_succ_comm. by apply (Hok (S i) p).
Qed.

Lemma first_failure_exists pdf_file reader (pdf_pages : list PdfPage) (n : nat) :
  (exists i page e,
     pdf_pages !! i = Some page
     /\ page_failure pdf_file reader (n + i) page = Some e) ->
  exists e, first_failure pdf_file reader n pdf_pages = Some e.
Proof.
  revert n. induction pdf_pages as [|page rest IH];
    intros n (i & bad & e & Hi & Hbad); [done|].
  cbn [first_failure].
  destruct (page_failure pdf_file reader n page) as [e0|] eqn:Hpage;
    [by exists e0|].
  destruct i as [|i].
  - injection Hi as ->. rewrite Nat.add_0_r in Hbad. congruence.
  - apply IH. exists i, bad, e. by rewrite Nat.add_succ_comm.
Qed.

Lemma page_failure_needs_ocr pdf_file reader (n : nat) (page : PdfPage) :
  needs_ocr page ->
  page_failure pdf_file reader n page = ocr_failure pdf_file reader n.
Proof.
  intros Hneed. unfold page_failure.
  by rewrite (proj2 (Nat.ltb_lt _ _) Hneed).
Qed.

Lemma page_failure_inv pdf_file reader (n : nat) (page : PdfPage) (e : exn) :
  page_failure pdf_file reader n page = Some e ->
  needs_ocr page /\ ocr_failure pdf_file reader n = Some e.
Proof.
  unfold page_failure, needs_ocr.
  by destruct (Nat.ltb_spec (length (strip (extract_text_from_page page))) 50).
Qed.

(** The run of a document that opens. *)
Lemma process_pdf_outcome pdf_file reader (pdf_pages : list PdfPage) w :
  pdf_open pdf_file = Returns pdf_pages ->
  match first_failure pdf_file reader 1 pdf_pages with
  | None =>
      exists r w',
        process_pdf pdf_file reader w = (Returns (Some r), w')
        /\ length (pages r) = length pdf_pages
  | Some e => exists w', process_pdf pdf_file reader w = handled e w'
  end.
Proof.
  intros Hopen. rewrite process_pdf_run, Hopen.
  pose proof (process_pages_outcome pdf_file reader (length pdf_pages)
                pdf_pages 1
                (set_total_pages (length pdf_pages)
                   (mkResults [] 0 0 0 0 0 0 0 None), []) w) as Hpages.
  destruct (first_failure pdf_file reader 1 pdf_pages) as [e|].
  - destruct Hpages as (w1 & ->). by eexists.
  - destruct Hpages as ([results contents] & w1 & Hrun). rewrite Hrun.
    eexists _, _. split; [reflexivity|].
    destruct (process_pages_agree pdf_file reader (length pdf_pages) pdf_pages 1
                (set_total_pages (length pdf_pages)
                   (mkResults [] 0 0 0 0 0 0 0 None), [])
                (results, contents) w w1
                (totals_agree_initial (length pdf_pages)) Hrun)
      as (_ & Hnum & _).
    cbn [fst pages set_total_pages fmap list_fmap app] in Hnum.
    apply (f_equal length) in Hnum.
    by rewrite length_fmap, length_seq in Hnum.
Qed.

Lemma handled_not_results (e : exn) w (r : Results) :
  (handled e w).1 <> Returns (Some r).
Proof. unfold handled. by destruct (is_Exception e). Qed.

End FailureFacts.

(** C7, amended (process_pdf, lines 121-226; extract_text_from_page, lines
    37-43).  For a document that opens: if for some page that needs OCR the
    rasterizer raises, or the reader raises on the page's first image, the
    run gives no results at all.  With [e] the exception of the first page
    whose rasterization, OCR or annotation raises, the run returns [None]
    when [e] is an instance of [Exception], and lets [e] out to the caller
    when it is not.  A page whose text extraction raises, whatever the
    exception, is treated as a page with the empty text.  If rasterization,
    OCR and the annotation of the preview raise for no page that needs OCR,
    the run returns results covering every page, whatever the text
    extractions did. *)
Theorem failure_policy `{Externals} (pdf_file : PdfFile) (reader : Reader)
    (pdf_pages : list PdfPage) (w : World) :
  pdf_open pdf_file = Returns pdf_pages ->
  ((exists i page,
      pdf_pages !! i = Some page /\ needs_ocr page
      /\ raster_or_ocr_fails pdf_file reader (S i)) ->
   exists e : exn,
     first_failure pdf_file reader 1 pdf_pages = Some e
     /\ (is_Exception e = true ->
         (process_pdf pdf_file reader w).1 = Returns None)
     /\ (is_Exception e = false ->
         (process_pdf pdf_file reader w).1 = Raises e)
     /\ forall r, (process_pdf pdf_file reader w).1 <> Returns (Some r))
  /\ (forall page e,
        page_extract_text page = Raises e ->
        extract_text_from_page page = []
        /\ forall total n st w0,
             process_page pdf_file reader total n page st w0
             = process_page pdf_file reader total n (mkPdfPage (Returns (Some [])))
                 st w0)
  /\ ((forall i page,
         pdf_pages !! i = Some page -> needs_ocr page ->
         ocr_failure pdf_file reader (S i) = None) ->
      exists r,
        (process_pdf pdf_file reader w).1 = Returns (Some r)
        /\ length (pages r) = length pdf_pages).
Proof.
  intros Hopen.
  pose proof (process_pdf_outcome pdf_file reader pdf_pages w Hopen) as Hrun.
  split; [|split].
  - intros (i & page & Hi & Hneed & Hfail).
    destruct (raster_or_ocr_fails_failure _ _ _ Hfail) as [e0 He0].
    destruct (first_failure_exists pdf_file reader pdf_pages 1) as [e He].
    { exists i, page, e0. split; [exact Hi|].
      by rewrite (page_failure_needs_ocr _ _ _ _ Hneed). }
    rewrite He in Hrun. destruct Hrun as (w1 & Hrun).
    exists e. split; [done|]. rewrite Hrun. unfold handled.
    destruct (is_Exception e); by repeat split.
  - intros page e Hraise.
    assert (Hnil : extract_text_from_page page = []).
    { unfold extract_text_from_page. by rewrite Hraise. }
    split; [exact Hnil|]. intros total n [results contents] w0.
    unfold process_page. by rewrite Hnil.
  - intros Hok. rewrite first_failure_None in Hrun.
    + destruct Hrun as (r & w1 & Hrun & Hlen). exists r. by rewrite Hrun.
    + intros i page Hi. unfold page_failure.
      destruct (Nat.ltb_spec (length (strip (extract_text_from_page page))) 50)
        as [Hlt|Hge]; [|done].
      by apply (Hok i page).
Qed.

Section FailureWitness.
Local Existing Instance display_list.

Lemma failure_policy_witness :
  (exists e : exn,
     first_failure failing_doc two_fragments 1
       [text_page sample_text; text_page (lit "7")] = Some e
     /\ (is_Exception e = true ->
         (process_pdf failing_doc two_fragments empty_world).1 = Returns None)
     /\ (is_Exception e = false ->
         (process_pdf failing_doc two_fragments empty_world).1 = Raises e)
     /\ forall r,
          (process_pdf failing_doc two_fragments empty_world).1
          <> Returns (Some r))
  /\ extract_text_from_page (mkPdfPage (Raises (Exception (lit "bad stream"))))
     = []
  /\ exists r,
       (process_pdf three_page_doc two_fragments empty_world).1 = Returns (Some r)
       /\ length (pages r) = 3.
Proof.
  split; [|split].
  - refine (proj1 (failure_policy failing_doc two_fragments
                     [text_page sample_text; text_page (lit "7")] empty_world
                     eq_refl) _).
    exists 1, (text_page (lit "7")). split; [reflexivity|].
    split; [unfold needs_ocr; vm_compute; lia|].
    left. by eexists.
  - refine (proj1 (proj1 (proj2 (failure_policy three_page_doc two_fragments
                     [text_page sample_text; text_page (lit "Header");
                      mkPdfPage (Raises (Exception (lit "bad stream")))]
                     empty_world eq_refl))
                     (mkPdfPage (Raises (Exception (lit "bad stream"))))
                     (Exception (lit "bad stream")) eq_refl)).
  - refine (proj2 (proj2 (failure_policy three_page_doc two_fragments
                     [text_page sample_text; text_page (lit "Header");
                      mkPdfPage (Raises (Exception (lit "bad stream")))]
                     empty_world eq_refl)) _).
    intros [|[|[|i]]] page Hi Hneed; cbn [lookup list_lookup] in Hi;
      simplify_eq.
    + unfold needs_ocr in Hneed. vm_compute in Hneed. lia.
    + reflexivity.
    + reflexivity.
Defined.

(** The run of [failing_doc] returns [None]: the exception of the
    rasterizer on its second page is an instance of [Exception]. *)
Lemma failing_doc_returns_None :
  (process_pdf failing_doc two_fragments empty_world).1 = Returns None.
Proof. vm_compute. reflexivity. Qed.

(** Rasterization and OCR succeed for the only page of a document, and the
    annotation of its preview raises on a polygon that numpy refuses: the
    run returns [None] and reports the exception. *)
Lemma annotation_failure_stops_the_run :
  pdf_convert (rendered_doc (lit "Header")) 1 = Returns [blank]
  /\ reads [(wide_box, lit "Body", 1%Q)] blank
     = Returns [(wide_box, lit "Body", 1%Q)]
  /\ (process_pdf (rendered_doc (lit "Header"))
        (reads [(wide_box, lit "Body", 1%Q)]) empty_world).1
     = Returns None
  /\ last (ui (process_pdf (rendered_doc (lit "Header"))
                 (reads [(wide_box, lit "Body", 1%Q)]) empty_world).2)
     = Some (StError (lit "Error processing PDF: "
                      ++ lit "Python integer out of bounds for int32")).
Proof.
  split; [reflexivity|]. split; [reflexivity|].
  split; vm_compute; reflexivity.
Qed.

(** The reader is interrupted on the only page of a document: OCR fails
    for that page, and the run does not return the failure result; the
    exception leaves [process_pdf]. *)
Lemma interrupted_run :
  pdf_open (rendered_doc []) = Returns [text_page []]
  /\ needs_ocr (text_page [])
  /\ raster_or_ocr_fails (rendered_doc []) interrupted_reader 1
  /\ (process_pdf (rendered_doc []) interrupted_reader empty_world).1
     = Raises (BaseException (lit "KeyboardInterrupt"))
  /\ (process_pdf (rendered_doc []) interrupted_reader empty_world).1
     <> Returns None.
Proof.
  split; [reflexivity|]. split; [unfold needs_ocr; vm_compute; lia|].
  split; [right; by exists blank, [], (BaseException (lit "KeyboardInterrupt"))|].
  assert (Hrun :
    (process_pdf (rendered_doc []) interrupted_reader empty_world).1
    = Raises (BaseException (lit "KeyboardInterrupt")))
    by (vm_compute; reflexivity).
  split; [exact Hrun|]. by rewrite Hrun.
Qed.

End FailureWitness.

(** * A page the rasterizer returns no image for *)

(** C10 (process_pdf, lines 133-193).  When a page needs OCR and the
    rasterizer returns an empty list of images, the page is processed
    without an exception: its record has the empty string as type, ["N/A"]
    as confidence, the empty text, no word and no preview image, the reader
    is not called, and no page-type counter changes.  For a one-page
    document of that kind the run returns results whose three counters add
    up to 0, below the page count 1. *)
Theorem page_without_image `{Externals} (pdf_file : PdfFile) (reader : Reader)
    (n : nat) (page : PdfPage) :
  needs_ocr page ->
  pdf_convert pdf_file n = Returns [] ->
  (forall (total : nat) (results : Results) (contents : list str) (w : World),
     let p := mkPageInfo n [] (lit "N/A") [] 0 None in
     process_page pdf_file reader total n page (results, contents) w
     = (Returns (add_page p 0 0 0 results, contents ++ [page_block p]),
        mkWorld (heap w)
          (ui w ++ [StatusText (status_message n total);
                    ConvertFromBytes n n 200; ProgressBar n total]))
     /\ editable_pages (add_page p 0 0 0 results) = editable_pages results
     /\ scanned_pages (add_page p 0 0 0 results) = scanned_pages results
     /\ hybrid_pages (add_page p 0 0 0 results) = hybrid_pages results)
  /\ (n = 1 -> pdf_open pdf_file = Returns [page] ->
      forall w : World,
      exists (r : Results) (w' : World),
        process_pdf pdf_file reader w = (Returns (Some r), w')
        /\ pages r = [mkPageInfo 1 [] (lit "N/A") [] 0 None]
        /\ total_pages r = 1
        /\ editable_pages r + scanned_pages r + hybrid_pages r = 0
        /\ editable_pages r + scanned_pages r + hybrid_pages r < total_pages r).
Proof.
  intros Hneed Hc.
  assert (Hpage : forall total results contents w,
            process_page pdf_file reader total n page (results, contents) w
            = (Returns (add_page (mkPageInfo n [] (lit "N/A") [] 0 None) 0 0 0
                          results,
                        contents ++ [page_block (mkPageInfo n [] (lit "N/A") [] 0 None)]),
               mkWorld (heap w)
                 (ui w ++ [StatusText (status_message n total);
                           ConvertFromBytes n n 200; ProgressBar n total]))).
  { intros total results contents w. rewrite process_page_run.
    rewrite (classify_raster_empty pdf_file reader _ results
               (mkPageInfo n [] (lit "N/A") [] 0 None) _ Hneed Hc).
    cbn [heap ui]. by rewrite <- !app_assoc. }
  split.
  - intros total results contents w p. by rewrite Hpage.
  - intros -> Hopen w. rewrite process_pdf_run, Hopen.
    cbn [process_pages length]. rewrite run_bind, Hpage.
    eexists _, _. split; [reflexivity|]. cbn. repeat split; lia.
Qed.

Section NoImageWitness.
Local Existing Instance display_list.

Lemma page_without_image_witness :
  exists (r : Results) (w' : World),
    process_pdf (unrendered_doc (lit "7")) two_fragments empty_world
    = (Returns (Some r), w')
    /\ pages r = [mkPageInfo 1 [] (lit "N/A") [] 0 None]
    /\ total_pages r = 1
    /\ editable_pages r + scanned_pages r + hybrid_pages r = 0
    /\ editable_pages r + scanned_pages r + hybrid_pages r < total_pages r.
Proof.
  refine (proj2 (page_without_image (unrendered_doc (lit "7")) two_fragments 1
                   (text_page (lit "7")) _ eq_refl) eq_refl eq_refl empty_world).
  unfold needs_ocr. vm_compute. lia.
Defined.

End NoImageWitness.

(** * The report text *)

Lemma rep_shift (a b : str) (n : nat) :
  rep (a ++ b) n ++ a = a ++ rep (b ++ a) n.
Proof.
  unfold rep. induction n as [|n IH]; cbn [replicate concat].
  - by rewrite app_nil_r.
  - rewrite <- (app_assoc (a ++ b)). rewrite IH. by rewrite <- !app_assoc.
Qed.

Lemma process_pdf_report `{Externals} (pdf_file : PdfFile) (reader : Reader)
    (r : Results) (w w' : World) :
  process_pdf pdf_file reader w = (Returns (Some r), w') ->
  extracted_text r = Some (header r ++ concat (page_block <$> pages r)).
Proof.
  intros Hrun.
  destruct (process_pdf_returns_inv _ _ _ _ _ Hrun)
    as (pdf_pages & results & contents & Hopen & Hpages & ->).
  destruct (process_pages_agree pdf_file reader (length pdf_pages) pdf_pages 1
              (set_total_pages (length pdf_pages)
                 (mkResults [] 0 0 0 0 0 0 0 None), [])
              (results, contents) w w'
              (totals_agree_initial (length pdf_pages)) Hpages)
    as (_ & _ & _ & _ & ps & Hps & Hcontents).
  cbn [fst snd pages set_total_pages app] in Hps, Hcontents.
  subst contents. rewrite <- Hps. reflexivity.
Qed.

Section ReportFacts.
Local Existing Instance display_list.

(** C8 (process_pdf, lines 196-220).  What the code computes as header,
    for all results: one line of 60 ['='], then 60 times the title line
    followed by a line holding a single ['='], then 60 times the summary
    block followed by a line holding a single ['='].  On a one-page
    document with 60 characters of embedded text, the report so has one
    line of 60 ['='] and not three, 60 title lines, 60 copies of every
    summary line and 120 lines that are a single ['=']; the page block
    that follows has its line of 60 dashes once. *)
Theorem header_repeats_its_blocks :
  (forall r : Results,
     header r
     = (rep (lit "=") 60 ++ nl)
       ++ rep (lit "PDF TEXT EXTRACTION REPORT" ++ nl ++ lit "=" ++ nl) 60
       ++ rep (summary r ++ lit "=" ++ nl) 60)
  /\ let report :=
       report_of (process_pdf (rendered_doc sample_text) (reads []) empty_world) in
     count_lines (rep (lit "=") 60) report = 1
     /\ count_lines (lit "PDF TEXT EXTRACTION REPORT") report = 60
     /\ count_lines (lit "Total Word Count: 12") report = 60
     /\ count_lines (lit "Editable Pages: 1") report = 60
     /\ count_lines (lit "=") report = 120
     /\ count_lines (lit "PAGE 1 | Type: Editable | Confidence: N/A") report = 1
     /\ count_lines (rep (lit "-") 60) report = 1.
Proof.
  split.
  - intros r. unfold header.
    rewrite (rep_shift nl (summary r ++ lit "=") 60).
    rewrite (app_assoc (rep (nl ++ lit "PDF TEXT EXTRACTION REPORT" ++ nl
                             ++ lit "=") 60) nl).
    rewrite (rep_shift nl (lit "PDF TEXT EXTRACTION REPORT" ++ nl ++ lit "=") 60).
    by rewrite <- !app_assoc.
  - vm_compute. by repeat split.
Qed.

End ReportFacts.

(** * Further properties of the string functions *)

Lemma lstrip_split (s : str) :
  exists lead : str,
    s = lead ++ lstrip s
    /\ Forall (fun c => is_space c = true) lead
    /\ (forall c rest, lstrip s = c :: rest -> is_space c = false).
Proof.
  induction s as [|c s (lead & Hs & Hlead & Hhead)].
  - exists []. by repeat split.
  - cbn [lstrip]. destruct (is_space c) eqn:Hc.
    + exists (c :: lead). split; [exact (f_equal (cons c) Hs)|].
      split; [by constructor|done].
    + exists []. split; [done|]. split; [constructor|]. by intros ? ? [= <- _].
Qed.

Lemma lstrip_fixed (s : str) :
  (forall c rest, s = c :: rest -> is_space c = false) -> lstrip s = s.
Proof.
  destruct s as [|c s]; [done|]. intros Hhead. cbn [lstrip].
  by rewrite (Hhead c s eq_refl).
Qed.

Lemma lstrip_all_space (s : str) :
  Forall (fun c => is_space c = true) s -> lstrip s = [].
Proof. induction 1 as [|c s Hc _ IH]; [done|]. cbn [lstrip]. by rewrite Hc. Qed.

Lemma rstrip_split (s : str) :
  exists trail : str,
    s = rstrip s ++ trail
    /\ Forall (fun c => is_space c = true) trail
    /\ (forall front c, rstrip s = front ++ [c] -> is_space c = false).
Proof.
  unfold rstrip.
  destruct (lstrip_split (rev s)) as (lead & Hs & Hlead & Hhead).
  exists (rev lead). split; [|split].
  - rewrite <- rev_app_distr, <- Hs. by rewrite rev_involutive.
  - by apply Forall_rev.
  - intros front c Heq. apply (f_equal (@rev char)) in Heq.
    rewrite rev_involutive, rev_app_distr in Heq. cbn [rev app] in Heq.
    exact (Hhead _ _ Heq).
Qed.

(** X1 (the [strip()] calls at lines 143 and 163).  Stripping removes
    whitespace from the two ends and nothing else: the string is the
    stripped string between a run of whitespace and another, and the
    stripped string neither starts nor ends with whitespace.  So it is never
    longer than the string, it is empty exactly when the string holds only
    whitespace, and stripping it again changes nothing. *)
Theorem strip_spec (s : str) :
  (exists lead trail : str,
     s = lead ++ strip s ++ trail
     /\ Forall (fun c => is_space c = true) lead
     /\ Forall (fun c => is_space c = true) trail)
  /\ (forall c rest, strip s = c :: rest -> is_space c = false)
  /\ (forall front c, strip s = front ++ [c] -> is_space c = false)
  /\ length (strip s) <= length s
  /\ (strip s = [] <-> Forall (fun c => is_space c = true) s)
  /\ strip (strip s) = strip s.
Proof.
  unfold strip.
  destruct (lstrip_split s) as (lead & Hs & Hlead & Hhead).
  destruct (rstrip_split (lstrip s)) as (trail & Ht & Htrail & Hlast).
  assert (Hfirst : forall c rest, rstrip (lstrip s) = c :: rest ->
                                  is_space c = false).
  { intros c rest Heq. rewrite Heq in Ht. by eapply Hhead. }
  assert (Hdec : s = lead ++ rstrip (lstrip s) ++ trail).
  { by rewrite <- Ht. }
  split; [by exists lead, trail|]. split; [exact Hfirst|]. split; [exact Hlast|].
  split; [|split].
  - rewrite Hdec at 2. rewrite !length_app. lia.
  - split.
    + intros Hnil. rewrite Hdec, Hnil. by apply Forall_app.
    + intros Hall. rewrite (lstrip_all_space s Hall). reflexivity.
  - rewrite (lstrip_fixed _ Hfirst).
    unfold rstrip at 1. rewrite lstrip_fixed; [by rewrite rev_involutive|].
    intros c rest Heq. apply (f_equal (@rev char)) in Heq.
    rewrite rev_involutive in Heq. cbn [rev] in Heq.
    exact (Hlast _ _ Heq).
Qed.

Lemma count_tokens_from_sep (in_token : bool) (a b : str) (c : char) :
  is_space c = true ->
  count_tokens_from in_token (a ++ c :: b)
  = count_tokens_from in_token a + count_tokens_from false b.
Proof.
  intros Hc. revert in_token. induction a as [|x a IH]; intros in_token.
  - cbn [app count_tokens_from]. by rewrite Hc.
  - cbn [app count_tokens_from]. destruct (is_space x); rewrite IH; lia.
Qed.

Lemma count_tokens_from_le (in_token : bool) (s : str) :
  count_tokens_from in_token s <= length (filter (fun c => is_space c = false) s).
Proof.
  revert in_token. induction s as [|c s IH]; intros in_token; [done|].
  cbn [count_tokens_from]. rewrite filter_cons. destruct (is_space c) eqn:Hc.
  - rewrite decide_False by done. apply IH.
  - rewrite decide_True by done. cbn [length].
    specialize (IH true). destruct in_token; lia.
Qed.

Lemma non_space_kept (s : str) :
  length (filter (fun c => is_space c = false) s) <= length (without_spaces s).
Proof.
  unfold without_spaces. induction s as [|c s IH]; [done|].
  rewrite !filter_cons. destruct (is_space c) eqn:Hc.
  - rewrite decide_False by done.
    case_decide; cbn [length]; [apply le_S|]; exact IH.
  - rewrite decide_True by done.
    rewrite decide_True; [cbn [length]; apply le_n_S, IH|].
    split; intros ->; done.
Qed.

(** X2 (count_words_and_chars, lines 95-101).  The three counts of a text
    are ordered: there are at most as many words as characters other than
    space and newline, and at most as many of those as characters.  Two
    texts put together with one whitespace character between them have the
    words of both, and texts joined by single spaces have the words of all
    of them. *)
Theorem word_and_char_counts_compose :
  (forall text : str,
     let '(words, chars_with, chars_without) := count_words_and_chars text in
     words <= chars_without /\ chars_without <= chars_with)
  /\ (forall (a b : str) (c : char),
        is_space c = true ->
        (count_words_and_chars (a ++ [c] ++ b)).1.1
        = (count_words_and_chars a).1.1 + (count_words_and_chars b).1.1)
  /\ (forall texts : list str,
        (count_words_and_chars (join (lit " ") texts)).1.1
        = sum_list_with (fun t => (count_words_and_chars t).1.1) texts).
Proof.
  assert (Hsep : forall (a b : str) (c : char),
            is_space c = true ->
            (count_words_and_chars (a ++ [c] ++ b)).1.1
            = (count_words_and_chars a).1.1 + (count_words_and_chars b).1.1).
  { intros a b c Hc. rewrite !count_words_and_chars_eq. cbn [fst app].
    by apply count_tokens_from_sep. }
  split; [|split; [exact Hsep|]].
  - intros text. rewrite count_words_and_chars_eq. split.
    + etransitivity; [apply count_tokens_from_le | apply non_space_kept].
    + apply length_filter.
  - induction texts as [|t [|t' texts] IH].
    + reflexivity.
    + cbn [join sum_list_with]. lia.
    + change (join (lit " ") (t :: t' :: texts))
        with (t ++ [0x20%N] ++ join (lit " ") (t' :: texts)).
      refine (eq_trans (Hsep t (join (lit " ") (t' :: texts)) 0x20%N eq_refl) _).
      cbn [sum_list_with] in *. f_equal. exact IH.
Qed.

(** * Further properties of a run *)

Lemma count_events_app (kind : Event -> bool) (evs1 evs2 : list Event) :
  count_events kind (evs1 ++ evs2)
  = count_events kind evs1 + count_events kind evs2.
Proof. unfold count_events. by rewrite List.filter_app, length_app. Qed.

Section StepFacts.
Context `{Externals}.
Implicit Types (pdf_file : PdfFile) (reader : Reader) (w : World).

Lemma page_record_ok_extends w w' (p : PageInfo) :
  extends w w' -> page_record_ok w p -> page_record_ok w' p.
Proof.
  intros Hext [Hwc Hshape]. split; [exact Hwc|].
  destruct Hshape as [Hed|[Hno|(Hty & Hconf & l & px & Hprev & Hl)]];
    [by left | by right; left | right; right].
  split; [exact Hty|]. split; [exact Hconf|].
  exists l, px. split; [exact Hprev|]. by apply Hext.
Qed.

(** One iteration of the loop, with its effects on the world. *)
Lemma process_page_step pdf_file reader (total n : nat) (page : PdfPage)
    (results : Results) (contents : list str) (st' : Results * list str) w w' :
  process_page pdf_file reader total n page (results, contents) w
  = (Returns st', w') ->
  extends w w'
  /\ exists results' p evs,
       classified pdf_file reader (extract_text_from_page page) results n
         (results', p)
       /\ st' = record_page p results' contents
       /\ ui w' = ui w ++ StatusText (status_message n total) :: evs
                  ++ [ProgressBar n total]
       /\ ((type p = lit "Editable" /\ evs = [] /\ heap w' = heap w)
           \/ (type p = [] /\ evs = [ConvertFromBytes n n 200]
               /\ heap w' = heap w)
           \/ ((type p = lit "Scanned" \/ type p = lit "Hybrid")
               /\ exists img_array l px,
                    evs = [ConvertFromBytes n n 200; Readtext img_array]
                    /\ preview_image p = Some l
                    /\ heap w' !! l = Some (PILImage px))).
Proof.
  rewrite process_page_run.
  set (t := extract_text_from_page page).
  set (blank_info := mkPageInfo n [] (lit "N/A") [] 0 None).
  set (w0 := mkWorld (heap w) (ui w ++ [StatusText (status_message n total)])).
  destruct (Nat.le_gt_cases 50 (length (strip t))) as [Hge|Hlt].
  { rewrite (classify_editable _ _ _ _ _ _ Hge). intros [= <- <-].
    split; [by intros l o|].
    eexists _, _, []. split; [by constructor|]. split; [reflexivity|].
    split; [cbn [ui w0]; by rewrite <- app_assoc|]. by left. }
  destruct (pdf_convert pdf_file n) as [[|px rest]|e] eqn:Hc.
  - rewrite (classify_raster_empty pdf_file reader t results blank_info w0
               Hlt Hc).
    intros [= <- <-]. split; [by intros l o|].
    eexists _, _, [ConvertFromBytes n n 200].
    split; [by constructor|]. split; [reflexivity|].
    split; [cbn [ui w0 page_num blank_info]; by rewrite <- !app_assoc|].
    right; left. done.
  - destruct (reader px) as [dets|e] eqn:Hrd.
    + destruct (outlined px (det_bbox <$> dets)) as [px'|e] eqn:Hout.
      2:{ destruct (classify_annotation_raises pdf_file reader t results
                      blank_info px rest dets e w0 Hlt Hc Hrd Hout)
            as (img_array & w1 & -> & _).
          done. }
      destruct (classify_ocr_returns pdf_file reader t results blank_info
                  px px' rest dets w0 Hlt Hc Hrd Hout)
        as (preview & img_array & w1 & -> & Hext & Hui & Hprev).
      cbn [blank_info page_num word_count] in *.
      destruct (Nat.ltb_spec 0 (length (strip t))) as [Hpos|Hzero];
        intros [= <- <-];
        (split; [intros l o Hl; by apply (Hext l o)|]);
        eexists _, _, [ConvertFromBytes n n 200; Readtext img_array];
        (split; [|split; [reflexivity|split]]).
      * by eapply classified_hybrid.
      * cbn [ui]. rewrite Hui. cbn [ui w0]. by rewrite <- !app_assoc.
      * right; right. split; [by right|]. by eexists _, _, _.
      * eapply classified_scanned; [lia|done..].
      * cbn [ui]. rewrite Hui. cbn [ui w0]. by rewrite <- !app_assoc.
      * right; right. split; [by left|]. by eexists _, _, _.
    + destruct (classify_ocr_raises pdf_file reader t results blank_info
                  px rest e w0 Hlt Hc Hrd) as [w1 ->].
      done.
  - by rewrite (classify_raster_raises pdf_file reader t results blank_info e w0
                  Hlt Hc).
Qed.

End StepFacts.

Section TraceFacts.
Context `{Externals}.
Implicit Types (pdf_file : PdfFile) (reader : Reader) (w : World).

Lemma process_page_trace pdf_file reader (total n : nat) (page : PdfPage)
    (results : Results) (contents : list str) (st' : Results * list str) w w' :
  process_page pdf_file reader total n page (results, contents) w
  = (Returns st', w') ->
  extends w w'
  /\ (exists p, pages st'.1 = pages results ++ [p] /\ page_record_ok w' p)
  /\ exists evs,
       ui w' = ui w ++ evs
       /\ scanned_pages st'.1 + hybrid_pages st'.1
          = scanned_pages results + hybrid_pages results
            + count_events is_readtext evs
       /\ count_events is_convert evs + editable_pages st'.1
          = editable_pages results + 1
       /\ List.filter is_progress evs = [ProgressBar n total]
       /\ count_events is_error evs = 0.
Proof.
  intros Hrun.
  destruct (process_page_step _ _ _ _ _ _ _ _ _ _ Hrun)
    as (Hext & results' & p & evs & Hcl & -> & Hui & Hshape).
  split; [exact Hext|].
  assert (Hwc : word_count (set_word_count (length (split (text p))) p)
                = whitespace_delimited_tokens
                    (text (set_word_count (length (split (text p))) p)))
    by apply (split_from_length [] (text p)).
  rewrite record_page_pages. unfold record_page.
  rewrite count_words_and_chars_eq. cbn zeta.
  inversion Hcl as [Hge|Hlt Hc|px rest dets preview Hlen Hc Hrd
                    |px rest dets preview Hlen Hc Hrd]; subst;
    destruct Hshape as [(Hty & -> & Hheap)|[(Hty & -> & Hheap)
                       |(Hty & arr & l & px' & -> & Hprev & Hl)]];
    cbn [type] in Hty; try discriminate Hty;
    try (destruct Hty; discriminate);
    unfold add_page, incr_editable_pages, incr_scanned_pages, incr_hybrid_pages;
    cbn [fst pages editable_pages scanned_pages hybrid_pages];
    (split; [eexists; split; [reflexivity|]; split; [exact Hwc|]
            |eexists; split; [exact Hui|]; cbn; repeat split; lia]).
  - left. by repeat split.
  - right; left. by repeat split.
  - right; right. split; [by right|]. split; [by eexists|].
    by exists l, px'.
  - right; right. split; [by left|]. split; [by eexists|].
    by exists l, px'.
Qed.

Lemma process_pages_trace pdf_file reader (total : nat)
    (pdf_pages : list PdfPage) (n : nat) (st st' : Results * list str) w w' :
  process_pages pdf_file reader total n pdf_pages st w = (Returns st', w') ->
  extends w w'
  /\ (Forall (page_record_ok w) (pages st.1) ->
      Forall (page_record_ok w') (pages st'.1))
  /\ exists evs,
       ui w' = ui w ++ evs
       /\ scanned_pages st'.1 + hybrid_pages st'.1
          = scanned_pages st.1 + hybrid_pages st.1
            + count_events is_readtext evs
       /\ count_events is_convert evs + editable_pages st'.1
          = editable_pages st.1 + length pdf_pages
       /\ List.filter is_progress evs
          = (fun k => ProgressBar k total) <$> seq n (length pdf_pages)
       /\ count_events is_error evs = 0.
Proof.
  revert n st w. induction pdf_pages as [|page rest IH]; intros n st w Hrun.
  - injection Hrun as <- <-. split; [apply extends_refl|]. split; [done|].
    exists []. rewrite app_nil_r. cbn. repeat split; lia.
  - cbn [process_pages] in Hrun. rewrite run_bind in Hrun.
    destruct (process_page _ _ _ _ _ _ _) as [[st1|e] w1] eqn:Hpage; [|done].
    destruct st as [results contents].
    destruct (process_page_trace _ _ _ _ _ _ _ _ _ _ Hpage)
      as (Hext1 & (p & Hp & Hok) & evs1 & Hui1 & Hrd1 & Hcv1 & Hpr1 & Her1).
    destruct (IH _ _ _ Hrun)
      as (Hext2 & Hall2 & evs2 & Hui2 & Hrd2 & Hcv2 & Hpr2 & Her2).
    split; [by eapply extends_trans|]. split.
    + intros Hall. apply Hall2. rewrite Hp. apply Forall_app. split.
      * eapply Forall_impl; [exact Hall|]. intros q.
        by apply page_record_ok_extends.
      * by constructor.
    + exists (evs1 ++ evs2). rewrite Hui2, Hui1, <- app_assoc.
      split; [done|]. rewrite !count_events_app, List.filter_app, Hpr1, Hpr2.
      cbn [fst length seq fmap list_fmap app] in *. repeat split; lia.
Qed.

End TraceFacts.


(** X3 (process_pdf, lines 127-203).  A successful run only adds to the
    world: every object that existed is unchanged.  Among the events it
    adds, the reader is called once for each page recorded as Scanned or
    Hybrid, the rasterizer once for each page not recorded as Editable, the
    progress bar is set once per page, to 1/n, 2/n, ... n/n in that order,
    and no error is reported. *)
Theorem run_trace `{Externals} (pdf_file : PdfFile) (reader : Reader)
    (r : Results) (w w' : World) :
  process_pdf pdf_file reader w = (Returns (Some r), w') ->
  extends w w'
  /\ exists evs : list Event,
       ui w' = ui w ++ evs
       /\ count_events is_readtext evs = scanned_pages r + hybrid_pages r
       /\ count_events is_convert evs + editable_pages r = total_pages r
       /\ List.filter is_progress evs
          = (fun k => ProgressBar k (total_pages r)) <$> seq 1 (total_pages r)
       /\ count_events is_error evs = 0.
Proof.
  intros Hrun.
  destruct (process_pdf_returns_inv _ _ _ _ _ Hrun)
    as (pdf_pages & results & contents & Hopen & Hpages & ->).
  destruct (process_pages_agree pdf_file reader (length pdf_pages) pdf_pages 1
              (set_total_pages (length pdf_pages)
                 (mkResults [] 0 0 0 0 0 0 0 None), [])
              (results, contents) w w'
              (totals_agree_initial (length pdf_pages)) Hpages)
    as (_ & _ & Htot & _).
  destruct (process_pages_trace _ _ _ _ _ _ _ _ _ Hpages)
    as (Hext & _ & evs & Hui & Hrd & Hcv & Hpr & Her).
  cbn [fst set_total_pages total_pages scanned_pages hybrid_pages
       editable_pages] in Htot, Hrd, Hcv.
  split; [exact Hext|]. exists evs.
  generalize (header results ++ concat contents). intros txt.
  unfold set_extracted_text.
  cbn [total_pages scanned_pages hybrid_pages editable_pages].
  rewrite Htot. repeat split; try done; lia.
Qed.


(** X5 (process_pdf, lines 121-226).  An exception that leaves the
    function is not an instance of [Exception].  A document that cannot be
    opened with an [Exception] gives [None] and one error message, with no
    other effect; any other exception of the opening goes on to the caller.
    Whenever the result is [None] the last event is the error message
    ["Error processing PDF: "] followed by the message of the exception that
    stopped the run, an instance of [Exception]: that of opening the
    document, or that of the rasterizer, the reader or the annotation of the
    preview on the first page that needs OCR and for which one of them
    raises. *)
Theorem failure_report `{Externals} (pdf_file : PdfFile) (reader : Reader)
    (w : World) :
  (forall e w',
     process_pdf pdf_file reader w = (Raises e, w') -> is_Exception e = false)
  /\ (forall e,
        pdf_open pdf_file = Raises e ->
        process_pdf pdf_file reader w
        = if is_Exception e
          then (Returns None,
                mkWorld (heap w)
                  (ui w ++ [StError (lit "Error processing PDF: "
                                     ++ exn_str e)]))
          else (Raises e, w))
  /\ (forall w',
        process_pdf pdf_file reader w = (Returns None, w') ->
        exists e w1,
          is_Exception e = true
          /\ w' = mkWorld (heap w1)
                    (ui w1 ++ [StError (lit "Error processing PDF: "
                                        ++ exn_str e)])
          /\ (pdf_open pdf_file = Raises e
              \/ exists pdf_pages i page,
                   pdf_open pdf_file = Returns pdf_pages
                   /\ pdf_pages !! i = Some page
                   /\ needs_ocr page
                   /\ ocr_failure pdf_file reader (S i) = Some e
                   /\ forall j earlier,
                        j < i -> pdf_pages !! j = Some earlier ->
                        needs_ocr earlier ->
                        ocr_failure pdf_file reader (S j) = None)).
Proof.
  split; [|split].
  - intros e w'. rewrite process_pdf_run. unfold handled.
    destruct (pdf_open pdf_file) as [pdf_pages|e0].
    + destruct (process_pages _ _ _ _ _ _ _) as [[[results contents]|e1] w1];
        [done|].
      destruct (is_Exception e1) eqn:He1; [done|]. by intros [= <- _].
    + destruct (is_Exception e0) eqn:He0; [done|]. by intros [= <- _].
  - intros e Hopen. by rewrite process_pdf_run, Hopen.
  - intros w'. destruct (pdf_open pdf_file) as [pdf_pages|e0] eqn:Hopen.
    + pose proof (process_pdf_outcome pdf_file reader pdf_pages w Hopen) as Hrun.
      destruct (first_failure pdf_file reader 1 pdf_pages) as [e|] eqn:Hfirst.
      2:{ destruct Hrun as (r & w1 & -> & _). done. }
      destruct Hrun as (w1 & ->). unfold handled.
      destruct (is_Exception e) eqn:He; [|done].
      intros [= <-]. exists e, w1. split; [done|]. split; [done|]. right.
      destruct (first_failure_Some _ _ _ _ _ Hfirst)
        as (i & page & Hi & Hbad & Hbefore).
      destruct (page_failure_inv _ _ _ _ _ Hbad) as [Hneed Hfail].
      exists pdf_pages, i, page. split; [done|]. split; [done|].
      split; [done|]. split; [done|].
      intros j earlier Hj Hlook Hneed'.
      rewrite <- (page_failure_needs_ocr pdf_file reader (S j) earlier Hneed').
      by apply (Hbefore j earlier).
    + rewrite process_pdf_run, Hopen. unfold handled.
      destruct (is_Exception e0) eqn:He; [|done].
      intros [= <-]. exists e0, w. split; [done|]. split; [done|]. by left.
Qed.

Lemma tokens_join (texts : list str) :
  whitespace_delimited_tokens (join (lit " ") texts)
  = sum_list_with whitespace_delimited_tokens texts.
Proof.
  unfold whitespace_delimited_tokens.
  induction texts as [|t [|t' texts] IH].
  - reflexivity.
  - cbn [join sum_list_with]. lia.
  - change (join (lit " ") (t :: t' :: texts))
      with (t ++ 0x20%N :: join (lit " ") (t' :: texts)).
    refine (eq_trans (count_tokens_from_sep false t _ 0x20%N eq_refl) _).
    cbn [sum_list_with] in *. f_equal. exact IH.
Qed.

Lemma sum_list_with_fmap {A B} (f : B -> nat) (g : A -> B) (l : list A) :
  sum_list_with f (g <$> l) = sum_list_with (fun x => f (g x)) l.
Proof. induction l as [|x l IH]; [done|]. cbn. by rewrite IH. Qed.

(** X6 (process_pdf, lines 186-187 with 163-172).  The word count recorded
    for a page: for an Editable page the words of its embedded text; for a
    Hybrid page the words of its embedded text plus the words of every text
    the reader detected; for a Scanned page the words of the detected texts;
    and 0 for a page left without type. *)
Theorem page_word_count `{Externals} (pdf_file : PdfFile) (reader : Reader)
    (total n : nat) (page : PdfPage) (results : Results)
    (contents : list str) (st' : Results * list str) (w w' : World) :
  process_page pdf_file reader total n page (results, contents) w
  = (Returns st', w') ->
  exists p : PageInfo,
    pages st'.1 = pages results ++ [p]
    /\ (type p = lit "Editable" ->
        word_count p
        = whitespace_delimited_tokens (extract_text_from_page page))
    /\ (type p = lit "Hybrid" ->
        exists px rest dets,
          pdf_convert pdf_file n = Returns (px :: rest)
          /\ reader px = Returns dets
          /\ word_count p
             = whitespace_delimited_tokens (extract_text_from_page page)
               + sum_list_with
                   (fun d => whitespace_delimited_tokens (det_text d)) dets)
    /\ (type p = lit "Scanned" ->
        exists px rest dets,
          pdf_convert pdf_file n = Returns (px :: rest)
          /\ reader px = Returns dets
          /\ word_count p
             = sum_list_with
                 (fun d => whitespace_delimited_tokens (det_text d)) dets)
    /\ (type p = [] -> word_count p = 0).
Proof.
  intros Hrun.
  destruct (process_page_returns_inv _ _ _ _ _ _ _ _ _ _ Hrun)
    as (results' & page_info & Hcl & ->).
  assert (Hocr : forall dets : list Detection,
            whitespace_delimited_tokens (ocr_text dets)
            = sum_list_with
                (fun d => whitespace_delimited_tokens (det_text d)) dets).
  { intros dets. unfold ocr_text. by rewrite tokens_join, sum_list_with_fmap. }
  inversion Hcl as [Hge|Hlt Hc|px rest dets preview Hlen Hc Hrd
                    |px rest dets preview Hlen Hc Hrd]; subst;
    (eexists; split; [reflexivity|]);
    cbn [set_word_count type text word_count];
    repeat split; intros Hty; try discriminate Hty.
  - apply (split_from_length [] _).
  - exists px, rest, dets. split; [done|]. split; [done|].
    etransitivity; [apply (split_from_length [] _)|].
    etransitivity; [apply (count_tokens_from_sep false _ _ 0x0a%N eq_refl)|].
    f_equal. apply Hocr.
  - exists px, rest, dets. split; [done|]. split; [done|].
    etransitivity; [apply (split_from_length [] _)|]. apply Hocr.
Qed.

(** X7 (process_pdf, lines 196-220).  The report text of a successful run
    is the header followed by the blocks of the pages, one block per page
    record, in the order of the records. *)
Theorem report_layout `{Externals} (pdf_file : PdfFile) (reader : Reader)
    (r : Results) (w w' : World) :
  process_pdf pdf_file reader w = (Returns (Some r), w') ->
  extracted_text r = Some (header r ++ concat (page_block <$> pages r))
  /\ length (page_block <$> pages r) = total_pages r.
Proof.
  intros Hrun.
  destruct (process_pdf_returns_inv _ _ _ _ _ Hrun)
    as (pdf_pages & results & contents & Hopen & Hpages & ->).
  destruct (process_pages_agree pdf_file reader (length pdf_pages) pdf_pages 1
              (set_total_pages (length pdf_pages)
                 (mkResults [] 0 0 0 0 0 0 0 None), [])
              (results, contents) w w'
              (totals_agree_initial (length pdf_pages)) Hpages)
    as (_ & Hnum & Htot & _ & ps & Hps & Hcontents).
  cbn [fst snd pages set_total_pages total_pages fmap list_fmap app]
    in Hps, Hcontents, Hnum, Htot.
  subst contents. rewrite <- Hps. split; [reflexivity|].
  apply (f_equal length) in Hnum. rewrite length_fmap, length_seq in Hnum.
  rewrite length_fmap. unfold set_extracted_text. cbn [pages total_pages].
  congruence.
Qed.

Section TextOnly.
Context `{Externals}.
Implicit Types (pdf_file : PdfFile) (reader : Reader) (w : World).

Lemma process_pages_text_only pdf_file reader (total : nat)
    (pdf_pages : list PdfPage) (n : nat) (st : Results * list str) w :
  Forall (fun page => 50 <= length (strip (extract_text_from_page page)))
         pdf_pages ->
  exists st' : Results * list str,
    process_pages pdf_file reader total n pdf_pages st w
    = (Returns st',
       mkWorld (heap w) (ui w ++ quiet_events total n (length pdf_pages)))
    /\ pages st'.1 = pages st.1 ++ editable_records n pdf_pages
    /\ editable_pages st'.1 = editable_pages st.1 + length pdf_pages
    /\ scanned_pages st'.1 = scanned_pages st.1
    /\ hybrid_pages st'.1 = hybrid_pages st.1
    /\ total_pages st'.1 = total_pages st.1.
Proof.
  intros Hall. revert n st w.
  induction Hall as [|page rest Hpage _ IH]; intros n st w.
  - exists st. unfold quiet_events, editable_records. cbn.
    rewrite !app_nil_r. destruct w. by repeat split; try lia.
  - destruct st as [results contents].
    cbn [process_pages]. rewrite run_bind, process_page_run.
    rewrite (classify_editable _ _ _ _ _ _ Hpage).
    match goal with
    | |- context [process_pages _ _ _ _ _ ?st1 ?w1] =>
        destruct (IH (S n) st1 w1) as (st' & -> & Hps & Hed & Hsc & Hhy & Htot)
    end.
    exists st'. split.
    { unfold quiet_events. cbn [heap ui length seq flat_map app].
      by rewrite <- !app_assoc. }
    rewrite Hps, Hed, Hsc, Hhy, Htot. rewrite record_page_pages.
    unfold editable_records. rewrite imap_cons.
    unfold record_page. rewrite count_words_and_chars_eq.
    cbn [fst set_text set_type set_word_count text add_page
         incr_editable_pages editable_pages scanned_pages hybrid_pages
         total_pages pages page_num type confidence word_count preview_image
         length].
    rewrite Nat.add_0_r, <- app_assoc.
    split; [|repeat split; lia].
    f_equal. cbn [app]. f_equal; [by rewrite (split_from_length [] _)|].
    apply imap_ext. intros i p _. cbn. by rewrite Nat.add_succ_r.
Qed.

End TextOnly.

(** X8 (process_pdf, lines 127-203).  For a document whose pages all have
    at least 50 stripped characters of embedded text, the empty document
    included, the run succeeds whatever the rasterizer and the reader would
    do: every page is recorded as Editable with its embedded text, in order;
    no object is created; and the only events are the status line and the
    progress update of each page. *)
Theorem text_only_document `{Externals} (pdf_file : PdfFile) (reader : Reader)
    (pdf_pages : list PdfPage) (w : World) :
  pdf_open pdf_file = Returns pdf_pages ->
  Forall (fun page => 50 <= length (strip (extract_text_from_page page)))
         pdf_pages ->
  exists r : Results,
    process_pdf pdf_file reader w
    = (Returns (Some r),
       mkWorld (heap w)
         (ui w ++ quiet_events (length pdf_pages) 1 (length pdf_pages)))
    /\ pages r = editable_records 1 pdf_pages
    /\ text <$> pages r = extract_text_from_page <$> pdf_pages
    /\ total_pages r = length pdf_pages
    /\ editable_pages r = length pdf_pages
    /\ scanned_pages r = 0
    /\ hybrid_pages r = 0.
Proof.
  intros Hopen Hall. rewrite process_pdf_run, Hopen.
  destruct (process_pages_text_only pdf_file reader (length pdf_pages)
              pdf_pages 1
              (set_total_pages (length pdf_pages)
                 (mkResults [] 0 0 0 0 0 0 0 None), []) w Hall)
    as ([results contents] & -> & Hps & Hed & Hsc & Hhy & Htot).
  cbn [fst pages set_total_pages editable_pages scanned_pages hybrid_pages
       total_pages app] in *.
  eexists. split; [reflexivity|].
  generalize (header results ++ concat contents). intros txt.
  unfold set_extracted_text.
  cbn [pages editable_pages scanned_pages hybrid_pages total_pages].
  split; [exact Hps|]. split; [|by repeat split].
  rewrite Hps. unfold editable_records. clear.
  generalize 1. induction pdf_pages as [|page rest IH]; intros n; [done|].
  rewrite imap_cons. cbn [fmap list_fmap text]. f_equal.
  rewrite <- (IH (S n)). f_equal. apply imap_ext. intros i p _. cbn.
  by rewrite Nat.add_succ_r.
Qed.

(** * Further properties of the image functions *)

(** X9 (page_to_image, lines 45-48).  The function passes on an exception
    of the rasterizer, returns [None] without any effect when the rasterizer
    returns no image, and otherwise returns the first image, a new object
    holding the first raster, leaving every earlier object unchanged. *)
Theorem page_to_image_spec `{Externals}
    (pdf_page_bytes : nat -> outcome (list Pixels)) (dpi : nat) (w : World) :
  (forall e,
     pdf_page_bytes dpi = Raises e ->
     page_to_image pdf_page_bytes dpi w = (Raises e, w))
  /\ (pdf_page_bytes dpi = Returns [] ->
      page_to_image pdf_page_bytes dpi w = (Returns None, w))
  /\ (forall px rest,
        pdf_page_bytes dpi = Returns (px :: rest) ->
        exists (image : loc) (w' : World),
          page_to_image pdf_page_bytes dpi w = (Returns (Some image), w')
          /\ heap w !! image = None
          /\ heap w' !! image = Some (PILImage px)
          /\ extends w w'
          /\ ui w' = ui w).
Proof.
  unfold page_to_image, lift. split; [|split].
  - intros e He. by rewrite run_bind, He.
  - intros He. rewrite run_bind, He. reflexivity.
  - intros px rest He. rewrite run_bind, He, run_bind.
    cbn [alloc_images]. rewrite run_bind. unfold alloc at 1.
    set (image := fresh (dom (heap w))).
    set (w1 := mkWorld (<[image:=PILImage px]> (heap w)) (ui w)).
    destruct (alloc_images_run rest w1) as (ls & w' & Hrun & Hext & Hui & _).
    rewrite run_bind, Hrun. exists image, w'.
    split; [reflexivity|]. split; [apply fresh_loc_None|].
    split; [apply Hext, lookup_insert_eq|]. split; [|exact Hui].
    eapply extends_trans; [apply extends_alloc | exact Hext].
Qed.

Section OcrFrame.
Context `{Externals}.

Lemma perform_ocr_raises_run (image : loc) (reader : Reader) (px : Pixels)
    (e : exn) (w : World) :
  heap w !! image = Some (PILImage px) ->
  reader px = Raises e ->
  perform_ocr image reader w
  = (Raises e,
     mkWorld (<[fresh (dom (heap w)):=NdArray px]> (heap w))
             (ui w ++ [Readtext (fresh (dom (heap w)))])).
Proof.
  intros Himg Hrd. unfold perform_ocr, np_array.
  rewrite run_bind, run_bind, (run_load _ _ _ Himg). unfold alloc at 1.
  set (img_array := fresh (dom (heap w))).
  set (w1 := mkWorld (<[img_array:=NdArray px]> (heap w)) (ui w)).
  assert (Harr : heap w1 !! img_array = Some (NdArray px))
    by apply lookup_insert_eq.
  unfold readtext. rewrite run_bind, run_bind, (run_load _ _ _ Harr).
  rewrite run_bind. unfold emit, lift. by rewrite Hrd.
Qed.

End OcrFrame.

(** X10 (perform_ocr, lines 50-80).  On an image the call creates one
    array holding the image's pixels, hands it to the reader once, and
    changes nothing else: the image and every other object are as before.
    If the reader raises, the exception is passed on; otherwise the call
    returns the detected texts joined by single spaces and the polygons, one
    per detection, both in the reader's order. *)
Theorem perform_ocr_frame `{Externals} (image : loc) (reader : Reader)
    (px : Pixels) (w : World) :
  heap w !! image = Some (PILImage px) ->
  exists (img_array : loc) (w' : World),
    heap w !! img_array = None
    /\ heap w' = <[img_array:=NdArray px]> (heap w)
    /\ ui w' = ui w ++ [Readtext img_array]
    /\ heap w' !! image = Some (PILImage px)
    /\ extends w w'
    /\ match reader px with
       | Raises e => perform_ocr image reader w = (Raises e, w')
       | Returns dets =>
           exists (avg : Q),
             perform_ocr image reader w
             = (Returns (join (lit " ") (det_text <$> dets), avg,
                         det_bbox <$> dets), w')
             /\ length (det_bbox <$> dets) = length dets
       end.
Proof.
  intros Himg.
  exists (fresh (dom (heap w))),
    (mkWorld (<[fresh (dom (heap w)):=NdArray px]> (heap w))
             (ui w ++ [Readtext (fresh (dom (heap w)))])).
  split; [apply fresh_loc_None|]. split; [done|]. split; [done|].
  assert (Hext : extends w
            (mkWorld (<[fresh (dom (heap w)):=NdArray px]> (heap w))
                     (ui w ++ [Readtext (fresh (dom (heap w)))])))
    by apply extends_alloc.
  split; [by apply Hext|]. split; [exact Hext|].
  destruct (reader px) as [dets|e] eqn:Hrd.
  - exists (avg_confidence dets).
    split; [by apply perform_ocr_run|]. by rewrite length_fmap.
  - by apply perform_ocr_raises_run.
Qed.

Lemma outlined_app `{Externals} (px : Pixels) (bboxes1 bboxes2 : list BBox) :
  outlined px (bboxes1 ++ bboxes2)
  = match outlined px bboxes1 with
    | Returns px1 => outlined px1 bboxes2
    | Raises e => Raises e
    end.
Proof.
  revert px. induction bboxes1 as [|bbox rest IH]; intros px; [done|].
  cbn [app outlined]. destruct (np_int32 bbox) as [pts|e]; [|done].
  by destruct (cv2_polylines px [pts] true (0, 255, 0)%Z 2%Z) as [px1|e].
Qed.

(** X11 (draw_bboxes_on_image, lines 82-93).  Annotating in two steps is
    annotating in one.  When the polygons of two lists, one after the other,
    are all converted and drawn, drawing the second list on the image
    returned for the first gives an image with the same content as drawing
    the concatenated list on the original image, which is still unchanged.
    When a conversion or a drawing raises for the concatenated list, the
    same exception is raised in the two-step annotation: by the first step,
    or by the second on the image the first returned. *)
Theorem draw_bboxes_on_image_twice `{Externals} (image : loc)
    (bboxes1 bboxes2 : list BBox) (px : Pixels) (w : World) :
  heap w !! image = Some (PILImage px) ->
  (forall content : Pixels,
     outlined px (bboxes1 ++ bboxes2) = Returns content ->
     exists (first second both : loc) (w1 w2 w3 : World),
       draw_bboxes_on_image image bboxes1 w = (Returns first, w1)
       /\ draw_bboxes_on_image first bboxes2 w1 = (Returns second, w2)
       /\ draw_bboxes_on_image image (bboxes1 ++ bboxes2) w = (Returns both, w3)
       /\ heap w2 !! second = Some (PILImage content)
       /\ heap w3 !! both = Some (PILImage content)
       /\ heap w2 !! image = Some (PILImage px))
  /\ (forall e : exn,
        outlined px (bboxes1 ++ bboxes2) = Raises e ->
        (exists w3 : World,
           draw_bboxes_on_image image (bboxes1 ++ bboxes2) w = (Raises e, w3))
        /\ ((exists w1 : World,
               draw_bboxes_on_image image bboxes1 w = (Raises e, w1))
            \/ exists (first : loc) (w1 w2 : World),
                 draw_bboxes_on_image image bboxes1 w = (Returns first, w1)
                 /\ draw_bboxes_on_image first bboxes2 w1 = (Raises e, w2))).
Proof.
  intros Himg.
  pose proof (draw_bboxes_on_image_run image bboxes1 px w Himg) as Hrun1.
  pose proof (draw_bboxes_on_image_run image (bboxes1 ++ bboxes2) px w Himg)
    as Hrun3.
  rewrite outlined_app in *.
  destruct (outlined px bboxes1) as [px1|e1].
  - destruct Hrun1 as (first & w1 & Hrun1 & _ & Hfirst & Hext1 & _).
    pose proof (draw_bboxes_on_image_run first bboxes2 px1 w1 Hfirst) as Hrun2.
    split.
    + intros content Hout. rewrite Hout in Hrun2, Hrun3.
      destruct Hrun2 as (second & w2 & Hrun2 & _ & Hsecond & Hext2 & _).
      destruct Hrun3 as (both & w3 & Hrun3 & _ & Hboth & _).
      exists first, second, both, w1, w2, w3.
      split; [exact Hrun1|]. split; [exact Hrun2|]. split; [exact Hrun3|].
      split; [exact Hsecond|]. split; [exact Hboth|]. by apply Hext2, Hext1.
    + intros e Hout. rewrite Hout in Hrun2, Hrun3.
      destruct Hrun2 as (w2 & Hrun2 & _). destruct Hrun3 as (w3 & Hrun3 & _).
      split; [by exists w3|]. right. by exists first, w1, w2.
  - destruct Hrun1 as (w1 & Hrun1 & _). destruct Hrun3 as (w3 & Hrun3 & _).
    split; [done|]. intros e [= <-].
    split; [by exists w3|]. left. by exists w1.
Qed.

(** * The Streamlit script *)

Lemma size_check (n : N) :
  (100 < inject_Z (Z.of_N n) / inject_Z (1024 * 1024))%Q <-> (104857600 < n)%N.
Proof.
  unfold Qlt, Qdiv, Qmult, Qinv, inject_Z.
  change (1024 * 1024)%Z with 1048576%Z. cbn. lia.
Qed.

Section MainFacts.
Context `{Externals}.

Lemma main_rejects (f : UploadedFile) (process_button : bool)
    (load_ocr_reader : outcome Reader) (a : App) :
  (104857600 < upload_size f)%N ->
  main (Some f) process_button load_ocr_reader a
  = (Returns (), show [SizeError] (show [Title; Intro; Sidebar; FileUploader] a)).
Proof.
  intros Hbig. unfold main.
  destruct (Qlt_le_dec 100 _) as [_|Hle]; [reflexivity|].
  apply size_check in Hbig. exfalso. by apply (Qlt_not_le _ _ Hbig).
Qed.

Lemma main_accepts (f : UploadedFile) (process_button : bool)
    (load_ocr_reader : outcome Reader) (a : App) :
  (upload_size f <= 104857600)%N ->
  main (Some f) process_button load_ocr_reader a
  = let a0 :=
      show [FileSuccess (upload_name f);
            FileInfo (format_2f (inject_Z (Z.of_N (upload_size f))
                                 / inject_Z (1024 * 1024)));
            Button]
        (show [Title; Intro; Sidebar; FileUploader] a) in
    match (if process_button then run_extraction f load_ocr_reader a0
           else (Returns (), a0))
    with
    | (Raises e, a1) => (Raises e, a1)
    | (Returns _, a1) =>
        match app_session a1 with
        | Some results => display_results f results a1
        | None => (Returns (), a1)
        end
    end.
Proof.
  intros Hsmall. unfold main.
  destruct (Qlt_le_dec 100 _) as [Hlt|_]; [|reflexivity].
  apply size_check in Hlt. lia.
Qed.

End MainFacts.

Section MainRuns.
Context `{Externals}.

Lemma run_extraction_cases (f : UploadedFile) (load_ocr_reader : outcome Reader)
    (a : App) :
  (exists e,
     load_ocr_reader = Raises e
     /\ run_extraction f load_ocr_reader a
        = (Raises e,
           mkApp (app_world a) (app_widgets a ++ [Spinner]) (app_session a)))
  \/ (exists reader e w',
        load_ocr_reader = Returns reader
        /\ process_pdf (upload_pdf f) reader (app_world a) = (Raises e, w')
        /\ run_extraction f load_ocr_reader a
           = (Raises e,
              mkApp w'
                (app_widgets a
                 ++ [Spinner; ProcessingInfo; Progress0; EmptyStatus])
                (app_session a)))
  \/ (exists reader w',
        load_ocr_reader = Returns reader
        /\ process_pdf (upload_pdf f) reader (app_world a) = (Returns None, w')
        /\ run_extraction f load_ocr_reader a
           = (Returns (),
              mkApp w'
                (app_widgets a
                 ++ [Spinner; ProcessingInfo; Progress0; EmptyStatus])
                (app_session a)))
  \/ (exists reader r w',
        load_ocr_reader = Returns reader
        /\ process_pdf (upload_pdf f) reader (app_world a)
           = (Returns (Some r), w')
        /\ run_extraction f load_ocr_reader a
           = (Returns (),
              mkApp w'
                (app_widgets a
                 ++ [Spinner; ProcessingInfo; Progress0; EmptyStatus;
                     Complete; Balloons])
                (Some r))).
Proof.
  unfold run_extraction. destruct load_ocr_reader as [reader|e].
  - right. cbn [show app_world app_widgets app_session].
    destruct (process_pdf (upload_pdf f) reader (app_world a))
      as [[[r|]|e] w'] eqn:Hrun.
    + right; right. exists reader, r, w'. split; [done|]. split; [done|].
      unfold show. cbn [app_world app_widgets app_session].
      by rewrite <- !app_assoc.
    + right; left. exists reader, w'. split; [done|]. split; [done|].
      by rewrite <- !app_assoc.
    + left. exists reader, e, w'. split; [done|]. split; [done|].
      by rewrite <- !app_assoc.
  - left. by exists e.
Qed.

Lemma previews_expanders (ps : list PageInfo) :
  Forall (fun wd => wd <> SizeError) (previews ps).
Proof.
  unfold previews. induction ps as [|p ps IH]; [constructor|].
  cbn [flat_map]. apply Forall_app. split; [|exact IH].
  destruct (preview_image p); by repeat constructor.
Qed.

Lemma display_results_widgets (f : UploadedFile) (r : Results) (a : App) :
  exists o ws,
    display_results f r a
    = (o, mkApp (app_world a) (app_widgets a ++ ws) (app_session a))
    /\ Forall (fun wd => wd <> SizeError) ws.
Proof.
  unfold display_results, show.
  cbn [app_world app_widgets app_session].
  destruct (extracted_text r) as [data|].
  - eexists _, _. rewrite <- app_assoc. split; [reflexivity|].
    apply Forall_app. split; [by repeat constructor|].
    apply Forall_app. split; [by repeat constructor|apply previews_expanders].
  - eexists _, _. split; [reflexivity|]. by repeat constructor.
Qed.

End MainRuns.

(** X12 (main, lines 267-282).  A file of more than 100 * 1024 * 1024
    bytes is refused: the script shows the size error and stops, so nothing
    is extracted, the session keeps what it held, and no result is shown,
    whether or not the button was pressed.  A file of at most that size is
    never refused: its name and size are shown and the size error is not. *)
Theorem upload_size_limit `{Externals} (f : UploadedFile)
    (process_button : bool) (load_ocr_reader : outcome Reader) (a : App) :
  ((104857600 < upload_size f)%N ->
   main (Some f) process_button load_ocr_reader a
   = (Returns (),
      mkApp (app_world a)
        (app_widgets a ++ [Title; Intro; Sidebar; FileUploader; SizeError])
        (app_session a)))
  /\ ((upload_size f <= 104857600)%N ->
      exists o a' ws,
        main (Some f) process_button load_ocr_reader a = (o, a')
        /\ app_widgets a'
           = app_widgets a
             ++ [Title; Intro; Sidebar; FileUploader;
                 FileSuccess (upload_name f);
                 FileInfo (format_2f (inject_Z (Z.of_N (upload_size f))
                                      / inject_Z (1024 * 1024)));
                 Button]
             ++ ws
        /\ Forall (fun wd => wd <> SizeError) ws).
Proof.
  split.
  - intros Hbig. rewrite (main_rejects _ _ _ _ Hbig). unfold show.
    cbn [app_world app_widgets app_session]. by rewrite <- app_assoc.
  - intros Hsmall. rewrite (main_accepts _ _ _ _ Hsmall). cbn zeta.
    set (a0 := show _ (show _ a)).
    assert (Ha0 : app_widgets a0
                  = app_widgets a
                    ++ [Title; Intro; Sidebar; FileUploader;
                        FileSuccess (upload_name f);
                        FileInfo (format_2f (inject_Z (Z.of_N (upload_size f))
                                             / inject_Z (1024 * 1024)));
                        Button]).
    { unfold a0, show. cbn [app_widgets]. by rewrite <- app_assoc. }
    assert (Hshow : forall a1 ws1,
              app_widgets a1 = app_widgets a0 ++ ws1 ->
              Forall (fun wd => wd <> SizeError) ws1 ->
              exists o a' ws,
                match app_session a1 with
                | Some results => display_results f results a1
                | None => (Returns (), a1)
                end = (o, a')
                /\ app_widgets a' = app_widgets a0 ++ ws
                /\ Forall (fun wd => wd <> SizeError) ws).
    { intros a1 ws1 Hw1 Hok1. destruct (app_session a1) as [r|].
      - destruct (display_results_widgets f r a1) as (o & ws2 & -> & Hok2).
        eexists o, _, (ws1 ++ ws2). split; [reflexivity|].
        cbn [app_widgets]. rewrite Hw1, <- app_assoc.
        split; [done|]. by apply Forall_app.
      - by exists (Returns ()), a1, ws1. }
    match goal with
    | |- exists o a' ws, ?run = _ /\ _ =>
        enough (exists o a' ws,
                  run = (o, a') /\ app_widgets a' = app_widgets a0 ++ ws
                  /\ Forall (fun wd => wd <> SizeError) ws)
          as (o & a' & ws & Hrun & Hw & Hok)
    end.
    { exists o, a', ws. split; [exact Hrun|]. split; [|exact Hok].
      rewrite Hw, Ha0. by rewrite <- app_assoc. }
    destruct process_button.
    + destruct (run_extraction_cases f load_ocr_reader a0)
        as [(e & _ & ->)|[(reader & e & w' & _ & _ & ->)
                         |[(reader & w' & _ & _ & ->)
                          |(reader & r & w' & _ & _ & ->)]]].
      * eexists _, _, [Spinner]. split; [reflexivity|].
        split; [reflexivity|]. by repeat constructor.
      * eexists _, _, [Spinner; ProcessingInfo; Progress0; EmptyStatus].
        split; [reflexivity|]. split; [reflexivity|]. by repeat constructor.
      * eapply Hshow; [reflexivity|]. by repeat constructor.
      * eapply Hshow; [reflexivity|]. by repeat constructor.
    + apply (Hshow a0 []); [by rewrite app_nil_r|constructor].
Qed.

(** X13 (main, lines 285-304).  A run of the script changes the stored
    results only when the button was pressed on an accepted file, the reader
    was loaded and the extraction returned results; in every other case,
    a failed extraction included, the session keeps what it held. *)
Theorem session_changes_on_success `{Externals}
    (uploaded_file : option UploadedFile) (process_button : bool)
    (load_ocr_reader : outcome Reader) (a a' : App) (o : outcome unit) :
  main uploaded_file process_button load_ocr_reader a = (o, a') ->
  app_session a' = app_session a
  \/ exists f reader r w',
       uploaded_file = Some f
       /\ process_button = true
       /\ load_ocr_reader = Returns reader
       /\ (upload_size f <= 104857600)%N
       /\ process_pdf (upload_pdf f) reader (app_world a) = (Returns (Some r), w')
       /\ app_session a' = Some r
       /\ app_world a' = w'.
Proof.
  destruct uploaded_file as [f|]; [|by intros [= _ <-]; left].
  destruct (N.le_gt_cases (upload_size f) 104857600) as [Hsmall|Hbig];
    [|by rewrite (main_rejects _ _ _ _ Hbig); intros [= _ <-]; left].
  rewrite (main_accepts _ _ _ _ Hsmall). cbn zeta.
  set (a0 := show _ (show _ a)).
  assert (Hkeep : forall a1 o1 a2,
            match app_session a1 with
            | Some results => display_results f results a1
            | None => (Returns (), a1)
            end = (o1, a2) ->
            app_session a2 = app_session a1 /\ app_world a2 = app_world a1).
  { intros a1 o1 a2. destruct (app_session a1) as [r|] eqn:Hs.
    - destruct (display_results_widgets f r a1) as (o2 & ws & -> & _).
      by intros [= _ <-].
    - by intros [= _ <-]. }
  destruct process_button.
  - destruct (run_extraction_cases f load_ocr_reader a0)
      as [(e & _ & ->)|[(reader & e & w' & _ & _ & ->)
                       |[(reader & w' & _ & _ & ->)
                        |(reader & r & w' & Hload & Hrun & ->)]]].
    + intros [= _ <-]. by left.
    + intros [= _ <-]. by left.
    + intros Hshow. apply Hkeep in Hshow as [-> _]. by left.
    + intros Hshow. apply Hkeep in Hshow as [-> ->]. right.
      by exists f, reader, r, w'.
  - intros Hshow. apply Hkeep in Hshow as [-> _]. by left.
Qed.

(** X14 (main, lines 295-335).  When the extraction of a newly uploaded,
    accepted file fails and the session still holds results of an earlier
    extraction, the script shows those earlier results, totals, table and
    previews, and offers their report for download under the name of the new
    file. *)
Theorem failed_run_shows_earlier_results `{Externals} (f : UploadedFile)
    (reader : Reader) (a : App) (w' : World) (earlier : Results)
    (data : str) :
  (upload_size f <= 104857600)%N ->
  process_pdf (upload_pdf f) reader (app_world a) = (Returns None, w') ->
  app_session a = Some earlier ->
  extracted_text earlier = Some data ->
  main (Some f) true (Returns reader) a
  = (Returns (),
     mkApp w'
       (app_widgets a
        ++ [Title; Intro; Sidebar; FileUploader;
            FileSuccess (upload_name f);
            FileInfo (format_2f (inject_Z (Z.of_N (upload_size f))
                                 / inject_Z (1024 * 1024)));
            Button; Spinner; ProcessingInfo; Progress0; EmptyStatus;
            Rule; ResultsHeader;
            Metric (lit "Total Pages") (total_pages earlier);
            Metric (lit "Total Words") (total_words earlier);
            Metric (lit "Chars (with spaces)") (total_chars_with_spaces earlier);
            Metric (lit "Chars (no spaces)") (total_chars_without_spaces earlier);
            Metric (lit "Editable Pages") (editable_pages earlier);
            Metric (lit "Scanned Pages") (scanned_pages earlier);
            Metric (lit "Hybrid Pages") (hybrid_pages earlier);
            DownloadButton data (upload_stem f ++ lit "_extracted.txt");
            Rule; PageDetails; Tabs; Dataframe (page_data (pages earlier));
            PreviewInfo]
        ++ previews (pages earlier))
       (Some earlier)).
Proof.
  intros Hsmall Hrun Hsession Hdata.
  rewrite (main_accepts _ _ _ _ Hsmall). cbn zeta. unfold run_extraction.
  cbn [show app_world app_widgets app_session]. rewrite Hrun.
  cbn [app_session]. rewrite Hsession. unfold display_results. rewrite Hdata.
  unfold show. cbn [app_world app_widgets app_session].
  f_equal. f_equal. rewrite <- !app_assoc. reflexivity.
Qed.

Section DisplayFacts.
Context `{Externals}.

Lemma process_pdf_success_facts (pdf_file : PdfFile) (reader : Reader)
    (r : Results) (w w' : World) :
  process_pdf pdf_file reader w = (Returns (Some r), w') ->
  totals_agree r
  /\ Forall (page_record_ok w') (pages r)
  /\ total_pages r = length (pages r)
  /\ exists data, extracted_text r = Some data.
Proof.
  intros Hrun.
  destruct (process_pdf_returns_inv _ _ _ _ _ Hrun)
    as (pdf_pages & results & contents & Hopen & Hpages & ->).
  destruct (process_pages_agree pdf_file reader (length pdf_pages) pdf_pages 1
              (set_total_pages (length pdf_pages)
                 (mkResults [] 0 0 0 0 0 0 0 None), [])
              (results, contents) w w'
              (totals_agree_initial (length pdf_pages)) Hpages)
    as ([Hw Hc Hwo He Hs Hh Hwc] & Hnum & Htot & _).
  destruct (process_pages_trace _ _ _ _ _ _ _ _ _ Hpages)
    as (_ & Hall & _).
  specialize (Hall (Forall_nil_2 _)).
  cbn [fst set_total_pages total_pages pages fmap list_fmap app] in *.
  assert (Hlen : length (pages results) = length pdf_pages).
  { apply (f_equal length) in Hnum. by rewrite length_fmap, length_seq in Hnum. }
  generalize (header results ++ concat contents). intros txt.
  unfold set_extracted_text. split; [by constructor|].
  cbn [pages total_pages extracted_text].
  split; [exact Hall|]. split; [congruence|]. by exists txt.
Qed.

Lemma previews_count (w : World) (ps : list PageInfo) :
  Forall (page_record_ok w) ps ->
  length (previews ps)
  = pages_of_type (lit "Scanned") ps + pages_of_type (lit "Hybrid") ps.
Proof.
  unfold previews, pages_of_type.
  induction 1 as [|p ps [_ Hp] _ IH]; [done|].
  cbn [flat_map]. rewrite length_app, IH, !filter_cons.
  destruct Hp as [(Hty & _ & Hprev & _)|[(Hty & _ & Hprev & _)
                 |(Hty & _ & l & px & Hprev & _)]];
    rewrite Hprev; [| |destruct Hty as [Hty|Hty]]; rewrite Hty;
    repeat case_decide; try discriminate; try done; cbn [length]; lia.
Qed.

End DisplayFacts.

(** X15 (main, lines 285-364).  When the button is pressed on an accepted
    file and the extraction returns results, they are stored in the session
    and shown: the seven totals, the report for download under the file's
    stem followed by ["_extracted.txt"], a table with one row per page, and
    one preview for each page recorded as Scanned or Hybrid, and none for
    the others. *)
Theorem successful_run_display `{Externals} (f : UploadedFile)
    (reader : Reader) (a : App) (w' : World) (r : Results) :
  (upload_size f <= 104857600)%N ->
  process_pdf (upload_pdf f) reader (app_world a) = (Returns (Some r), w') ->
  exists data : str,
    extracted_text r = Some data
    /\ main (Some f) true (Returns reader) a
       = (Returns (),
          mkApp w'
            (app_widgets a
             ++ [Title; Intro; Sidebar; FileUploader;
                 FileSuccess (upload_name f);
                 FileInfo (format_2f (inject_Z (Z.of_N (upload_size f))
                                      / inject_Z (1024 * 1024)));
                 Button; Spinner; ProcessingInfo; Progress0; EmptyStatus;
                 Complete; Balloons; Rule; ResultsHeader;
                 Metric (lit "Total Pages") (total_pages r);
                 Metric (lit "Total Words") (total_words r);
                 Metric (lit "Chars (with spaces)") (total_chars_with_spaces r);
                 Metric (lit "Chars (no spaces)") (total_chars_without_spaces r);
                 Metric (lit "Editable Pages") (editable_pages r);
                 Metric (lit "Scanned Pages") (scanned_pages r);
                 Metric (lit "Hybrid Pages") (hybrid_pages r);
                 DownloadButton data (upload_stem f ++ lit "_extracted.txt");
                 Rule; PageDetails; Tabs; Dataframe (page_data (pages r));
                 PreviewInfo]
             ++ previews (pages r))
            (Some r))
    /\ length (page_data (pages r)) = total_pages r
    /\ length (previews (pages r)) = scanned_pages r + hybrid_pages r.
Proof.
  intros Hsmall Hrun.
  destruct (process_pdf_success_facts _ _ _ _ _ Hrun)
    as ([_ _ _ _ Hs Hh _] & Hall & Htot & data & Hdata).
  exists data. split; [exact Hdata|]. split; [|split].
  - rewrite (main_accepts _ _ _ _ Hsmall). cbn zeta. unfold run_extraction.
    cbn [show app_world app_widgets app_session]. rewrite Hrun.
    unfold show at 1. cbn [app_session app_world app_widgets].
    unfold display_results. rewrite Hdata.
    unfold show. cbn [app_world app_widgets app_session].
    f_equal. f_equal. rewrite <- !app_assoc. reflexivity.
  - unfold page_data. by rewrite length_fmap.
  - rewrite Hs, Hh. by eapply previews_count.
Qed.

(** * The text of a confidence *)

Lemma round_half_even_range (q : Q) (hi : Z) :
  (0 <= q)%Q -> (q <= inject_Z hi)%Q ->
  (0 <= round_half_even q <= hi)%Z.
Proof.
  intros Hlo Hhi. unfold round_half_even.
  assert (Hf0 : (0 <= Qfloor q)%Z).
  { change 0%Z with (Qfloor 0). by apply Qfloor_resp_le. }
  assert (Hfq := Qfloor_le q).
  assert (Hfhi : (Qfloor q <= hi)%Z).
  { rewrite Zle_Qle. by eapply Qle_trans. }
  assert (Hstep : (inject_Z (Qfloor q) < q)%Q -> (Qfloor q + 1 <= hi)%Z).
  { intros Hlt. assert (Hlt' : (Qfloor q < hi)%Z); [|lia].
    rewrite Zlt_Qlt. by eapply Qlt_le_trans. }
  destruct (Qcompare_spec (q - inject_Z (Qfloor q)) (1 # 2)) as [Heq|Hlt|Hgt].
  - destruct (Z.even (Qfloor q)); [lia|].
    split; [lia|]. apply Hstep. lra.
  - lia.
  - split; [lia|]. apply Hstep. lra.
Qed.

Lemma str_of_digit (d : nat) :
  d < 10 -> str_of_nat d = [(48 + N.of_nat d)%N].
Proof.
  intros Hd. do 10 (destruct d as [|d]; [reflexivity|]). lia.
Qed.

Lemma format_pct_shape (c : Q) :
  (0 <= c <= 1)%Q ->
  exists whole tenth : nat,
    format_pct c
    = str_of_nat whole ++ lit "." ++ [(48 + N.of_nat tenth)%N] ++ lit "%"
    /\ whole <= 100 /\ tenth <= 9 /\ (whole = 100 -> tenth = 0).
Proof.
  intros [Hc0 Hc1]. unfold format_pct, format_1f.
  set (x := float_mul c (float_of_int 100)).
  assert (Hx : (0 <= x <= inject_Z 100)%Q).
  { assert (H100 : (0 <= float_of_int 100 <= inject_Z 100)%Q).
    { unfold float_of_int. split; [by apply round64_sign|].
      by apply round64_le_int. }
    assert (Hprod : (0 <= c * float_of_int 100 <= inject_Z 100)%Q).
    { split; [apply Qmult_le_0_compat; lra|].
      apply Qle_trans with (1 * inject_Z 100)%Q;
        [apply Qmult_le_compat_nonneg; lra|].
      rewrite Qmult_1_l. apply Qle_refl. }
    unfold x, float_mul. split; [apply round64_sign; lra|].
    apply round64_le_int; [done|lra]. }
  destruct Hx as [Hx0 Hx1].
  destruct (Qlt_le_dec x 0) as [Hneg|_];
    [exfalso; by apply (Qlt_not_le _ _ Hneg)|].
  set (t := Z.to_nat (round_half_even (Qabs x * inject_Z 10))).
  assert (Ht : t <= 1000).
  { unfold t.
    assert (Hr : (0 <= round_half_even (Qabs x * inject_Z 10) <= 1000)%Z); [|lia].
    apply round_half_even_range.
    - apply Qmult_le_0_compat; [apply Qabs_nonneg|by compute].
    - rewrite (Qabs_pos x Hx0). unfold inject_Z in *. lra. }
  exists (t / 10), (t mod 10).
  assert (Hmod : t mod 10 < 10) by (apply Nat.mod_upper_bound; lia).
  split; [|split; [|split]].
  - cbn [app]. rewrite (str_of_digit _ Hmod). by rewrite <- !app_assoc.
  - apply Nat.Div0.div_le_upper_bound. lia.
  - lia.
  - intros Hwhole. pose proof (Nat.div_mod_eq t 10). lia.
Qed.

(** The product by 100 is rounded before it is formatted: the float 0.0015
    gives ["0.1%"], its product by 100 being the float just below 0.15. *)
Lemma format_pct_rounds_the_product :
  format_pct (3458764513820541 # 2305843009213693952) = lit "0.1%".
Proof. vm_compute. reflexivity. Qed.

(** X16 (process_pdf, line 174, with perform_ocr, line 75).  When the
    reader's confidences lie between 0 and 1, the confidence recorded for a
    Scanned or Hybrid page is the text of a number from 0.0 to 100.0 with
    one digit after the point, followed by ['%']: the mean of the detection
    confidences, a float between 0 and 1, multiplied by 100 as a float, and
    the product formatted with one decimal place. *)
Theorem ocr_page_confidence_text `{Externals} (pdf_file : PdfFile)
    (reader : Reader) (total n : nat) (page : PdfPage) (results : Results)
    (contents : list str) (st' : Results * list str) (w w' : World) :
  (forall px dets,
     reader px = Returns dets ->
     Forall (fun d => 0 <= det_conf d <= 1)%Q dets) ->
  process_page pdf_file reader total n page (results, contents) w
  = (Returns st', w') ->
  exists p : PageInfo,
    pages st'.1 = pages results ++ [p]
    /\ (type p = lit "Scanned" \/ type p = lit "Hybrid" ->
        exists (px : Pixels) (rest : list Pixels) (dets : list Detection)
               (whole tenth : nat),
          pdf_convert pdf_file n = Returns (px :: rest)
          /\ reader px = Returns dets
          /\ confidence p = format_pct (avg_confidence dets)
          /\ (0 <= avg_confidence dets <= 1)%Q
          /\ confidence p
             = str_of_nat whole ++ lit "." ++ [(48 + N.of_nat tenth)%N]
               ++ lit "%"
          /\ whole <= 100 /\ tenth <= 9 /\ (whole = 100 -> tenth = 0)).
Proof.
  intros Hrange Hrun.
  destruct (process_page_returns_inv _ _ _ _ _ _ _ _ _ _ Hrun)
    as (results' & page_info & Hcl & ->).
  inversion Hcl as [Hge|Hlt Hc|px rest dets preview Hlen Hc Hrd
                    |px rest dets preview Hlen Hc Hrd]; subst;
    (eexists; split; [reflexivity|]);
    cbn [set_word_count type confidence]; intros [Hty|Hty];
    try discriminate Hty;
    pose proof (avg_confidence_bounds dets (Hrange px dets Hrd)) as Havg;
    destruct (format_pct_shape _ Havg) as (whole & tenth & Hfmt & Hbounds);
    by exists px, rest, dets, whole, tenth.
Qed.

(** * Order of the totals *)

Lemma sum_list_with_le {A} (f g : A -> nat) (l : list A) :
  (forall x, f x <= g x) -> sum_list_with f l <= sum_list_with g l.
Proof.
  intros Hfg. induction l as [|x l IH]; [done|].
  cbn [sum_list_with]. specialize (Hfg x). lia.
Qed.

Lemma sum_list_with_ext_Forall {A} (f g : A -> nat) (l : list A) :
  Forall (fun x => f x = g x) l -> sum_list_with f l = sum_list_with g l.
Proof.
  induction 1 as [|x l Hx _ IH]; [done|]. cbn [sum_list_with]. lia.
Qed.

(** X17 (process_pdf, lines 186-191).  In the results of a successful run
    the total word count is at most the total character count without
    spaces, which is at most the total character count with spaces. *)
Theorem totals_ordered `{Externals} (pdf_file : PdfFile) (reader : Reader)
    (r : Results) (w w' : World) :
  process_pdf pdf_file reader w = (Returns (Some r), w') ->
  total_words r <= total_chars_without_spaces r
  /\ total_chars_without_spaces r <= total_chars_with_spaces r.
Proof.
  intros Hrun.
  destruct (process_pdf_success_facts _ _ _ _ _ Hrun)
    as ([Hw Hc Hwo _ _ _ Hwc] & _).
  rewrite Hw, Hc, Hwo. rewrite (sum_list_with_ext_Forall _ _ _ Hwc). split.
  - apply sum_list_with_le. intros p.
    etransitivity; [apply count_tokens_from_le | apply non_space_kept].
  - apply sum_list_with_le. intros p. apply length_filter.
Qed.

(** * Instances of the further properties *)

Section FurtherWitnesses.
Local Existing Instance display_list.

Lemma run_trace_witness :
  extends empty_world (process_pdf three_page_doc two_fragments empty_world).2
  /\ exists evs : list Event,
       ui (process_pdf three_page_doc two_fragments empty_world).2
       = ui empty_world ++ evs
       /\ count_events is_readtext evs
          = scanned_pages earlier_results + hybrid_pages earlier_results
       /\ count_events is_convert evs + editable_pages earlier_results
          = total_pages earlier_results
       /\ List.filter is_progress evs
          = (fun k => ProgressBar k (total_pages earlier_results))
              <$> seq 1 (total_pages earlier_results)
       /\ count_events is_error evs = 0.
Proof.
  apply (run_trace three_page_doc two_fragments earlier_results empty_world).
  vm_compute. reflexivity.
Defined.


Lemma report_layout_witness :
  extracted_text earlier_results
  = Some (header earlier_results
          ++ concat (page_block <$> pages earlier_results))
  /\ length (page_block <$> pages earlier_results)
     = total_pages earlier_results.
Proof.
  apply (report_layout three_page_doc two_fragments earlier_results empty_world
           (process_pdf three_page_doc two_fragments empty_world).2).
  vm_compute. reflexivity.
Defined.

Lemma totals_ordered_witness :
  total_words earlier_results <= total_chars_without_spaces earlier_results
  /\ total_chars_without_spaces earlier_results
     <= total_chars_with_spaces earlier_results.
Proof.
  apply (totals_ordered three_page_doc two_fragments earlier_results empty_world
           (process_pdf three_page_doc two_fragments empty_world).2).
  vm_compute. reflexivity.
Defined.

Lemma page_word_count_witness :
  exists (st' : Results * list str) (w' : World),
    process_page (rendered_doc (lit "Page header")) two_fragments 1 1
      (text_page (lit "Page header")) (one_page_results, []) empty_world
    = (Returns st', w')
    /\ exists p : PageInfo,
         pages st'.1 = pages one_page_results ++ [p]
         /\ type p = lit "Hybrid"
         /\ word_count p = 4.
Proof.
  eexists _, _. split; [vm_compute; reflexivity|].
  destruct (page_word_count (rendered_doc (lit "Page header")) two_fragments
              1 1 (text_page (lit "Page header")) one_page_results [] _
              empty_world _ ltac:(vm_compute; reflexivity))
    as (p & Hp & _ & Hhybrid & _).
  exists p. split; [exact Hp|].
  vm_compute in Hp. injection Hp as <-. by split.
Defined.

Lemma text_only_document_witness :
  exists r : Results,
    process_pdf text_doc broken_reader empty_world
    = (Returns (Some r),
       mkWorld (heap empty_world) (ui empty_world ++ quiet_events 2 1 2))
    /\ pages r
       = editable_records 1 [text_page sample_text; text_page sample_text]
    /\ text <$> pages r
       = extract_text_from_page
           <$> [text_page sample_text; text_page sample_text]
    /\ total_pages r = 2
    /\ editable_pages r = 2
    /\ scanned_pages r = 0
    /\ hybrid_pages r = 0.
Proof.
  apply (text_only_document text_doc broken_reader
           [text_page sample_text; text_page sample_text] empty_world).
  - reflexivity.
  - repeat constructor; vm_compute; lia.
Defined.

Lemma perform_ocr_frame_witness :
  exists (img_array : loc) (w' : World),
    heap one_image_world !! img_array = None
    /\ heap w' = <[img_array:=NdArray blank]> (heap one_image_world)
    /\ ui w' = ui one_image_world ++ [Readtext img_array]
    /\ heap w' !! 1%positive = Some (PILImage blank)
    /\ extends one_image_world w'
    /\ match two_fragments blank with
       | Raises e => perform_ocr 1%positive two_fragments one_image_world
                     = (Raises e, w')
       | Returns dets =>
           exists (avg : Q),
             perform_ocr 1%positive two_fragments one_image_world
             = (Returns (join (lit " ") (det_text <$> dets), avg,
                         det_bbox <$> dets), w')
             /\ length (det_bbox <$> dets) = length dets
       end.
Proof.
  apply (perform_ocr_frame 1%positive two_fragments blank one_image_world).
  reflexivity.
Defined.

Lemma draw_bboxes_on_image_twice_witness :
  (forall content : Pixels,
     outlined blank ([box] ++ [box; box]) = Returns content ->
     exists (first second both : loc) (w1 w2 w3 : World),
       draw_bboxes_on_image 1%positive [box] one_image_world
       = (Returns first, w1)
       /\ draw_bboxes_on_image first [box; box] w1 = (Returns second, w2)
       /\ draw_bboxes_on_image 1%positive ([box] ++ [box; box]) one_image_world
          = (Returns both, w3)
       /\ heap w2 !! second = Some (PILImage content)
       /\ heap w3 !! both = Some (PILImage content)
       /\ heap w2 !! 1%positive = Some (PILImage blank))
  /\ (forall e : exn,
        outlined blank ([box] ++ [box; box]) = Raises e ->
        (exists w3 : World,
           draw_bboxes_on_image 1%positive ([box] ++ [box; box])
             one_image_world
           = (Raises e, w3))
        /\ ((exists w1 : World,
               draw_bboxes_on_image 1%positive [box] one_image_world
               = (Raises e, w1))
            \/ exists (first : loc) (w1 w2 : World),
                 draw_bboxes_on_image 1%positive [box] one_image_world
                 = (Returns first, w1)
                 /\ draw_bboxes_on_image first [box; box] w1 = (Raises e, w2))).
Proof.
  apply (draw_bboxes_on_image_twice 1%positive [box] [box; box] blank
           one_image_world).
  reflexivity.
Defined.

Lemma ocr_page_confidence_text_witness :
  exists (st' : Results * list str) (w' : World),
    process_page (rendered_doc []) two_fragments 1 1 (text_page [])
      (one_page_results, []) empty_world
    = (Returns st', w')
    /\ exists p : PageInfo,
         pages st'.1 = pages one_page_results ++ [p]
         /\ confidence p = lit "85.0%".
Proof.
  eexists _, _. split; [vm_compute; reflexivity|].
  destruct (ocr_page_confidence_text (rendered_doc []) two_fragments 1 1
              (text_page []) one_page_results [] _ empty_world _
              ltac:(intros px dets [= <-]; repeat constructor;
                    unfold Qle; simpl; lia)
              ltac:(vm_compute; reflexivity))
    as (p & Hp & _).
  exists p. split; [exact Hp|].
  vm_compute in Hp. by injection Hp as <-.
Defined.

Lemma session_changes_on_success_witness :
  app_session
    (main (Some (sample_upload 2048 three_page_doc)) true
       (Returns two_fragments) fresh_app).2
  = app_session fresh_app
  \/ exists f reader r w',
       Some (sample_upload 2048 three_page_doc) = Some f
       /\ true = true
       /\ Returns two_fragments = Returns reader
       /\ (upload_size f <= 104857600)%N
       /\ process_pdf (upload_pdf f) reader (app_world fresh_app)
          = (Returns (Some r), w')
       /\ app_session
            (main (Some (sample_upload 2048 three_page_doc)) true
               (Returns two_fragments) fresh_app).2
          = Some r
       /\ app_world
            (main (Some (sample_upload 2048 three_page_doc)) true
               (Returns two_fragments) fresh_app).2
          = w'.
Proof.
  apply (session_changes_on_success
           (Some (sample_upload 2048 three_page_doc)) true
           (Returns two_fragments) fresh_app _
           (main (Some (sample_upload 2048 three_page_doc)) true
              (Returns two_fragments) fresh_app).1).
  apply surjective_pairing.
Defined.

Lemma failed_run_shows_earlier_results_witness :
  app_session
    (main (Some (sample_upload 2048 failing_doc)) true (Returns two_fragments)
       returning_app).2
  = Some earlier_results.
Proof.
  rewrite (failed_run_shows_earlier_results (sample_upload 2048 failing_doc)
             two_fragments returning_app
             (process_pdf failing_doc two_fragments empty_world).2
             earlier_results
             (report_of (process_pdf three_page_doc two_fragments empty_world))).
  - reflexivity.
  - vm_compute. discriminate.
  - vm_compute. reflexivity.
  - reflexivity.
  - vm_compute. reflexivity.
Defined.

Lemma successful_run_display_witness :
  length (page_data (pages earlier_results)) = total_pages earlier_results
  /\ length (previews (pages earlier_results))
     = scanned_pages earlier_results + hybrid_pages earlier_results.
Proof.
  destruct (successful_run_display (sample_upload 2048 three_page_doc)
              two_fragments fresh_app
              (process_pdf three_page_doc two_fragments empty_world).2
              earlier_results
              ltac:(vm_compute; discriminate)
              ltac:(vm_compute; reflexivity))
    as (data & _ & _ & Hrows & Hprev).
  by split.
Defined.

End FurtherWitnesses.
